(** * Order delay dashboard: column resolution, coercion, filters and views

    A shallow embedding of [order_dashboard.py].  The script is a linear
    pipeline over a pandas frame: header normalisation and alias lookup,
    the mandatory-field check, renaming and numeric coercion, the two
    sidebar filters and a sequence of group-by views.

    Conventions of the embedding.
    - A Python [str] is a sequence of code points; a [string] holds its
      UTF-8 encoding, byte by byte, so that equality and order of
      strings are those of Python.  [str.strip], [str.lower] and the
      regular expression work on the code points.
    - A cell of a frame is missing ([VNaN]), a finite number ([VNum], an
      exact rational) or a string.  The sums of the profit column are
      computed as pandas computes them for the dtype of the column:
      compensated summation in binary64, each operation rounded, or
      64-bit integers that wrap around.  The counts and the divisions
      of the other views are exact: rounding is not modelled there.
    - The library is pandas 3: [.astype(str)] keeps a missing cell
      missing.
    - A frame is its list of column labels and its rows, each row holding
      one cell per label, by position.
    - A Python exception is [None] (or [Raised]); [st.stop()] is a result
      of its own, carrying what [st.error] showed.

    Embedded: [normalize_cols], [find_col], the alias table and the
    mandatory-field check, renaming and coercion, the four counts, the
    filter options and the filter stage, the most profitable product per
    region, the cross-tab of regions and shipping modes, the delay
    summaries by shipping mode and by region with the mode the warning
    names, the Standard Class break-up and the routes feature.  The
    loader and the remaining rankings (region averages, top markets, top
    categories) only read the filtered frame and are not part of any
    statement below. *)

From Stdlib Require Import QArith Sorted.
From Stdlib Require Qcanon.
From stdpp Require Import gmap strings list fin_maps.
From Stdlib Require Import Ascii String.

Local Open Scope string_scope.
Local Open Scope list_scope.

(** ** Characters and header normalisation *)

Module Chars.

Definition code (c : ascii) : N := N_of_ascii c.

Definition between (lo hi n : N) : bool := ((lo <=? n) && (n <=? hi))%N.

(** [str.isspace] on a code point: the white space of Unicode, which is
    what [str.strip] removes. *)
Definition is_space (n : N) : bool :=
  between 9 13 n || between 28 32 n || (n =? 133)%N || (n =? 160)%N
  || (n =? 5760)%N || between 8192 8202 n || (n =? 8232)%N || (n =? 8233)%N
  || (n =? 8239)%N || (n =? 8287)%N || (n =? 12288)%N.

(** The character class [a-z0-9]. *)
Definition is_alnum (n : N) : bool := between 97 122 n || between 48 57 n.

(** [str.lower] on one code point.  Below 128 the capitals A-Z change
    and nothing else does.  Above, two code points lower into the class
    [a-z0-9]: U+0130 becomes "i" followed by U+0307, and U+212A (the
    Kelvin sign) becomes "k".  Every other code point above 127 has a
    lowercase form made of code points above 127; the table of the
    interpreter is not copied here and such a code point is left as it
    is, which the pattern of [re_sub] cannot tell from its lowercase
    form, both lying outside the class. *)
Definition lower_point (n : N) : list N :=
  if between 65 90 n then [(n + 32)%N]
  else if (n =? 304)%N then [105%N; 775%N]
  else if (n =? 8490)%N then [107%N]
  else [n].

Definition underscore : ascii := "_"%char.

End Chars.

(** *** Strings and code points

    UTF-8, as [read_csv] reads the file.  A byte sequence that is no
    UTF-8 text is no header of a loaded file; [decode] is total and
    reads a byte that starts no character as U+FFFD. *)

Module Utf8.
Import Chars.

Definition continuation (b : N) : bool := between 128 191 b.

(** What a byte that starts no character is read as. *)
Definition replacement : N := 65533%N.

Fixpoint decode (s : list ascii) : list N :=
  match s with
  | [] => []
  | a :: t =>
      let x := code a in
      if (x <? 128)%N then x :: decode t
      else
        match t with
        | [] => [replacement]
        | b :: t1 =>
            let y := code b in
            if between 192 223 x && continuation y
            then ((x - 192) * 64 + (y - 128))%N :: decode t1
            else
              match t1 with
              | [] => replacement :: decode t
              | c :: t2 =>
                  let z := code c in
                  if between 224 239 x && continuation y && continuation z
                  then ((x - 224) * 4096 + (y - 128) * 64 + (z - 128))%N
                       :: decode t2
                  else
                    match t2 with
                    | [] => replacement :: decode t
                    | d :: t3 =>
                        let w := code d in
                        if between 240 247 x && continuation y
                           && continuation z && continuation w
                        then ((x - 240) * 262144 + (y - 128) * 4096
                              + (z - 128) * 64 + (w - 128))%N :: decode t3
                        else replacement :: decode t
                    end
              end
        end
  end.

Definition encode_point (n : N) : list ascii :=
  if (n <? 128)%N then [ascii_of_N n]
  else if (n <? 2048)%N then
    [ascii_of_N (192 + n / 64); ascii_of_N (128 + n mod 64)]
  else if (n <? 65536)%N then
    [ascii_of_N (224 + n / 4096); ascii_of_N (128 + (n / 64) mod 64);
     ascii_of_N (128 + n mod 64)]
  else
    [ascii_of_N (240 + n / 262144); ascii_of_N (128 + (n / 4096) mod 64);
     ascii_of_N (128 + (n / 64) mod 64); ascii_of_N (128 + n mod 64)].

Definition encode (u : list N) : list ascii := flat_map encode_point u.

(** The code points of a string, and the string of a sequence of code
    points. *)
Definition points (s : string) : list N := decode (list_ascii_of_string s).

Definition str (u : list N) : string := string_of_list_ascii (encode u).

End Utf8.


Module Norm.
Import Chars.

Fixpoint lstrip (s : list N) : list N :=
  match s with
  | c :: t => if is_space c then lstrip t else s
  | [] => []
  end.

Definition rstrip (s : list N) : list N := rev (lstrip (rev s)).

(** [s.strip()] *)
Definition strip (s : list N) : list N := rstrip (lstrip s).

(** [s.lower()] *)
Definition lower (s : list N) : list N := flat_map lower_point s.

(** [re.sub(r'[^a-z0-9]+', '_', s)]: the scanner is either outside a
    match or inside one; entering a match emits the replacement, the
    rest of the match (greedy [+]) emits nothing. *)
Fixpoint re_sub (in_match : bool) (s : list N) : list N :=
  match s with
  | [] => []
  | c :: t =>
      if is_alnum c then c :: re_sub false t
      else if in_match then re_sub true t
      else code underscore :: re_sub true t
  end.

(** [re.sub(r'[^a-z0-9]+', '_', c.strip().lower())] on the code points
    of [c]. *)
Definition norm_points (s : list N) : list N :=
  re_sub false (lower (strip s)).

Definition norm (s : string) : string :=
  Utf8.str (norm_points (Utf8.points s)).

(** *** The rule in the words of the specification

    The string is cut into its maximal runs of characters of one class
    (inside or outside [a-z0-9]); a run outside the class is replaced
    with a single underscore, a run inside is kept. *)

Fixpoint runs (s : list N) : list (bool * list N) :=
  match s with
  | [] => []
  | c :: t =>
      match runs t with
      | (b, r) :: rest =>
          if Bool.eqb b (is_alnum c) then (b, c :: r) :: rest
          else (is_alnum c, [c]) :: (b, r) :: rest
      | [] => [(is_alnum c, [c])]
      end
  end.

Definition replace_run (r : bool * list N) : list N :=
  if fst r then snd r else [code underscore].

Definition spec_norm_points (s : list N) : list N :=
  List.concat (map replace_run (runs (lower (strip s)))).

Definition spec_norm (s : string) : string :=
  Utf8.str (spec_norm_points (Utf8.points s)).

End Norm.

Arguments Norm.norm : simpl never.


(** ** Cells and frames *)

Inductive value : Type :=
| VNaN
| VNum (q : Q)
| VStr (s : string).

Record DataFrame : Type := mkFrame {
  columns : list string;
  rows : list (list value)
}.

(** [df.copy()]: a fresh object with the same labels and cells. *)
Definition copy (df : DataFrame) : DataFrame :=
  mkFrame (columns df) (rows df).

(** [name in df.columns] *)
Definition has_col (name : string) (df : DataFrame) : bool :=
  existsb (String.eqb name) (columns df).

(** The positions, counted from [i], at which a label occurs. *)
Fixpoint positions (name : string) (cols : list string) (i : nat) : list nat :=
  match cols with
  | [] => []
  | c :: t =>
      if String.eqb name c then i :: positions name t (S i)
      else positions name t (S i)
  end.

Definition cell (i : nat) (r : list value) : value := nth i r VNaN.

(** [df[name]] as a series.  pandas gives a series only when the label
    occurs once: an absent label raises [KeyError] and a repeated one
    yields a frame, on which the calls of the script raise.  Both are
    [None] here. *)
Definition series (df : DataFrame) (name : string) : option (list value) :=
  match positions name (columns df) 0 with
  | [i] => Some (map (cell i) (rows df))
  | _ => None
  end.

Fixpoint set_cell (i : nat) (v : value) (r : list value) : list value :=
  match r, i with
  | [], _ => []
  | _ :: t, O => v :: t
  | x :: t, S j => x :: set_cell j v t
  end.

(** [df[name] = vals], in place: an existing label has its cells
    replaced (at every position it occurs), a new label is appended as
    the last column.  [vals] holds one cell per row, as every series the
    script assigns is computed from the frame it is assigned to. *)
Definition assign (df : DataFrame) (name : string) (vals : list value) : DataFrame :=
  match positions name (columns df) 0 with
  | [] =>
      mkFrame (columns df ++ [name])
              (zip_with (fun r v => r ++ [v]) (rows df) vals)
  | ps =>
      mkFrame (columns df)
              (zip_with (fun r v => fold_right (fun i acc => set_cell i v acc) r ps)
                        (rows df) vals)
  end.

(** [df[mask]]: the rows whose mask entry is true, as a new frame. *)
Fixpoint select {A : Type} (l : list A) (mask : list bool) : list A :=
  match l, mask with
  | x :: t, b :: m => if b then x :: select t m else select t m
  | _, _ => []
  end.

Definition boolean_index (df : DataFrame) (mask : list bool) : DataFrame :=
  mkFrame (columns df) (select (rows df) mask).

(** *** Cell-wise operations *)

Definition Qltb (p q : Q) : bool := negb (Qle_bool q p).

(** [cell == k] for a number [k]: false on missing cells and on strings. *)
Definition eq_num (k : Q) (v : value) : bool :=
  match v with
  | VNum q => Qeq_bool q k
  | _ => false
  end.

(** [cell == s] for a string [s]. *)
Definition eq_str (s : string) (v : value) : bool :=
  match v with
  | VStr t => String.eqb t s
  | _ => false
  end.

Definition is_missing (v : value) : bool :=
  match v with VNaN => true | _ => false end.

Definition is_str (v : value) : bool :=
  match v with VStr _ => true | _ => false end.

(** Equality of cells as hash keys ([isin], [unique], group keys):
    numbers by value, strings by content, missing equal to missing. *)
Definition value_eqb (a b : value) : bool :=
  match a, b with
  | VNaN, VNaN => true
  | VNum p, VNum q => Qeq_bool p q
  | VStr s, VStr t => String.eqb s t
  | _, _ => false
  end.

(** [series.isin(values)] on one cell. *)
Definition isin (values : list value) (v : value) : bool :=
  existsb (value_eqb v) values.

(** [pd.to_numeric(..., errors="coerce")] on one cell.  Which strings
    read as numbers is the library's business: [parse] is its reader. *)
Definition to_numeric (parse : string -> option Q) (v : value) : value :=
  match v with
  | VNaN => VNaN
  | VNum q => VNum q
  | VStr s => match parse s with Some q => VNum q | None => VNaN end
  end.

(** [.fillna(0)] on one cell. *)
Definition fillna0 (v : value) : value :=
  match v with VNaN => VNum 0 | _ => v end.

(** A truth value stored in a cell: Python's [True] and [False] are the
    integers 1 and 0 in every comparison, sum and mean of the script. *)
Definition of_bool (b : bool) : value := VNum (if b then 1 else 0).

(** [.astype(str)] on one cell, as pandas 3 does it: a number is
    printed ([repr_num] is the library's printing of a number), a string
    is kept, and a missing cell stays missing (versions before 3 wrote
    the string "nan" in its place). *)
Definition astype_str (repr_num : Q -> string) (v : value) : value :=
  match v with
  | VNaN => VNaN
  | VNum q => VStr (repr_num q)
  | VStr s => VStr s
  end.

(** [a + b] on one cell each of two string series, or of a string series
    and a string: the concatenation, missing when either side is. *)
Definition str_add (a b : value) : value :=
  match a, b with
  | VStr s, VStr t => VStr (s ++ t)
  | _, _ => VNaN
  end.

(** ** Column resolution *)

(** [normalize_cols(df)]: the frame with normalised labels and the dict
    from normalised label to literal label, filled in header order. *)
Definition normalize_cols (df : DataFrame) : DataFrame * gmap string string :=
  let mapping :=
    fold_left (fun (m : gmap string string) c => <[Norm.norm c := c]> m)
              (columns df) ∅ in
  let df_norm := mkFrame (map Norm.norm (columns df)) (rows (copy df)) in
  (df_norm, mapping).

(** [find_col(mapping, candidates)] *)
Fixpoint find_col (mapping : gmap string string) (candidates : list string)
  : option string :=
  match candidates with
  | [] => None
  | cand :: rest =>
      let cand_norm := Norm.norm cand in
      match mapping !! cand_norm with
      | Some actual => Some actual
      | None => find_col mapping rest
      end
  end.

(** The alias table, in the order the dict literal lists it. *)
Definition candidates : list (string * list string) :=
  [ ("order_id", ["order_id"; "order id"; "orderid"]);
    ("order_region", ["order_region"; "order region"; "region"]);
    ("order_country", ["order_country"; "order country"; "country"]);
    ("shipping_mode", ["shipping_mode"; "shipping mode"; "shipping_mode"; "shippingmode"]);
    ("category_name", ["category_name"; "category name"; "category"]);
    ("product_name", ["product_name"; "product name"; "product"]);
    ("sales", ["sales"; "sales_per_customer"; "sales_per_order"; "sales_total"]);
    ("profit_per_order", ["profit_per_order"; "profit_per_order"; "order_profit_per_order"; "profit"]);
    ("quantity", ["order_item_quantity"; "quantity"; "order_item_qty"; "qty"]);
    ("label", ["label"; "order_status"; "delay_flag"; "delay_status"]) ].

(** [found]: one entry per logical field, in table order. *)
Definition resolve (col_map : gmap string string) : list (string * option string) :=
  map (fun '(std, cand_list) => (std, find_col col_map cand_list)) candidates.

Definition found (df : DataFrame) : list (string * option string) :=
  resolve (snd (normalize_cols df)).

Definition critical : list string := ["label"; "order_region"; "shipping_mode"].

Definition is_critical (k : string) : bool := existsb (String.eqb k) critical.

(** [[k for k, v in found.items() if v is None and k in (...)]] *)
Definition missing_critical (fnd : list (string * option string)) : list string :=
  map fst (List.filter (fun kv => match snd kv with
                             | None => is_critical (fst kv)
                             | Some _ => false
                             end) fnd).

(** ** From the raw frame to the working set *)

(** What [st.error] shows before [st.stop()]. *)
Inductive diagnostic : Type :=
| CriticalMissing (missing : list string) (detected : list string)
| MissingRequired (c : string).

(** The script up to the working set either stops on a diagnostic, dies
    on a Python exception, or goes on with the working set. *)
Inductive prepared : Type :=
| Stopped (d : diagnostic)
| Raised
| Working (work : DataFrame).

(** [{found[k]: k for k in found if found[k] is not None}] *)
Definition rename_map (fnd : list (string * option string)) : gmap string string :=
  fold_left (fun (m : gmap string string) kv =>
               match snd kv with
               | Some actual => <[actual := fst kv]> m
               | None => m
               end) fnd ∅.

(** [df.rename(columns=m)] *)
Definition rename (df : DataFrame) (m : gmap string string) : DataFrame :=
  mkFrame (map (fun c => default c (m !! c)) (columns df)) (rows df).

(** [work["label"] = pd.to_numeric(work["label"], errors="coerce")] *)
Definition coerce_label (parse : string -> option Q) (work : DataFrame)
  : option DataFrame :=
  s ← series work "label";
  Some (assign work "label" (map (to_numeric parse) s)).

(** The body of the loop over the measure columns. *)
Definition coerce_measure (parse : string -> option Q) (work : DataFrame)
  (col : string) : option DataFrame :=
  if has_col col work then
    s ← series work col;
    Some (assign work col (map (fun v => fillna0 (to_numeric parse v)) s))
  else Some work.

Definition measures : list string := ["sales"; "profit_per_order"; "quantity"].

Definition coerce (parse : string -> option Q) (work : DataFrame)
  : option DataFrame :=
  fold_left (fun acc col => w ← acc; coerce_measure parse w col)
            measures (coerce_label parse work).

Definition nonempty {A : Type} (l : list A) : bool :=
  match l with [] => false | _ => true end.

Definition prepare (parse : string -> option Q) (df : DataFrame) : prepared :=
  let '(df_norm, col_map) := normalize_cols df in
  let fnd := resolve col_map in
  let missing := missing_critical fnd in
  if nonempty missing then Stopped (CriticalMissing missing (columns df))
  else
    let work := rename (copy df) (rename_map fnd) in
    match coerce parse work with
    | Some w => Working w
    | None => Raised
    end.

(** ** Top-level counts *)

(** [mask.sum()] *)
Definition sum_mask (mask : list bool) : nat :=
  List.length (List.filter (fun b => b) mask).

(** [int((work["label"] == k).sum()) if "label" in work.columns else 0] *)
Definition label_count (k : Q) (work : DataFrame) : option nat :=
  if has_col "label" work then
    s ← series work "label"; Some (sum_mask (map (eq_num k) s))
  else Some O.

Definition total_orders (work : DataFrame) : nat := List.length (rows work).
Definition delayed_count : DataFrame -> option nat := label_count (-1).
Definition ontime_count : DataFrame -> option nat := label_count 0.
Definition early_count : DataFrame -> option nat := label_count 1.

(** ** Filters *)

Definition dropna (l : list value) : list value :=
  List.filter (fun v => negb (is_missing v)) l.

(** The distinct elements of a list in order of first appearance. *)
Fixpoint distinct {A : Type} (eqb : A -> A -> bool) (l : list A) : list A :=
  match l with
  | [] => []
  | x :: t => x :: List.filter (fun y => negb (eqb x y)) (distinct eqb t)
  end.

(** [.unique()] *)
Definition unique (l : list value) : list value := distinct value_eqb l.

(** Python's [<] between two cells of one kind. *)
Definition value_ltb (a b : value) : bool :=
  match a, b with
  | VNum p, VNum q => Qltb p q
  | VStr s, VStr t => String.ltb s t
  | _, _ => false
  end.

Fixpoint insert_by {A : Type} (leb : A -> A -> bool) (x : A) (l : list A) : list A :=
  match l with
  | [] => [x]
  | y :: t => if leb x y then x :: l else y :: insert_by leb x t
  end.

(** A stable sort: an element goes before the first one it is not above. *)
Definition sort_by {A : Type} (leb : A -> A -> bool) (l : list A) : list A :=
  fold_right (insert_by leb) [] l.

(** The test of a stable sort that only knows [<]: [a] stays before [b]
    unless [b < a]. *)
Definition py_leb (a b : value) : bool := negb (value_ltb b a).

(** [sorted(l)]: [TypeError] when strings meet numbers. *)
Definition py_sorted (l : list value) : option (list value) :=
  if existsb is_str l && existsb (fun v => negb (is_str v)) l then None
  else Some (sort_by py_leb l).

(** [sorted(work[name].dropna().unique()) if name in work.columns else []] *)
Definition filter_options (name : string) (work : DataFrame)
  : option (list value) :=
  if has_col name work then
    s ← series work name; py_sorted (unique (dropna s))
  else Some [].

(** One [if name in filtered.columns and sel: filtered = filtered[...]]. *)
Definition restrict (name : string) (sel : list value) (filtered : DataFrame)
  : option DataFrame :=
  if has_col name filtered && nonempty sel then
    s ← series filtered name;
    Some (boolean_index filtered (map (isin sel) s))
  else Some filtered.

(** Lines 129-133: the filtered record set for the two selections. *)
Definition filter_stage (work : DataFrame) (sel_regions sel_shipping : list value)
  : option DataFrame :=
  f ← restrict "order_region" sel_regions (copy work);
  restrict "shipping_mode" sel_shipping f.

(** ** Numbers of a column *)

(** A float: a finite number, an infinity or NaN. *)
Inductive fval : Type :=
| FNum (q : Q)
| FInf (negative : bool)
| FNaN.

(** *** Binary64 arithmetic

    The operations of the sums of a float column, each rounded to the
    nearest binary64 number.  The sign of a zero is not recorded: no
    operation below tells the two zeros apart. *)

Module Binary64.

Definition is_nan (x : fval) : bool :=
  match x with FNaN => true | _ => false end.

(** The exponent of the leading bit of [a / d], for positive [a] and
    [d]. *)
Definition ilog2 (a d : Z) : Z :=
  let e := (Z.log2 a - Z.log2 d)%Z in
  if (a * 2 ^ Z.max 0 (- e) <? d * 2 ^ Z.max 0 e)%Z then (e - 1)%Z else e.

(** [num / den] rounded to the nearest integer, a tie going to the even
    one. *)
Definition round_half_even (num den : Z) : Z :=
  let fl := (num / den)%Z in
  let r := (num mod den)%Z in
  if (2 * r <? den)%Z then fl
  else if (den <? 2 * r)%Z then (fl + 1)%Z
  else if Z.even fl then fl else (fl + 1)%Z.

(** [m * 2 ^ e] *)
Definition scale (m e : Z) : Q :=
  if (0 <=? e)%Z then inject_Z (m * 2 ^ e)
  else Qmake m (Z.to_pos (2 ^ (- e))).

(** The binary64 number nearest to [q]: 53 bits of precision, the last
    place never below [2 ^ -1074], a tie going to the even significand,
    and an infinity from [2 ^ 1024] on. *)
Definition round (q : Q) : fval :=
  let r := Qred q in
  let n := Qnum r in
  let d := Z.pos (Qden r) in
  if (n =? 0)%Z then FNum 0
  else
    let a := Z.abs n in
    let e := Z.max (ilog2 a d - 52) (-1074) in
    let m := round_half_even (a * 2 ^ Z.max 0 (- e)) (d * 2 ^ Z.max 0 e) in
    if (2 ^ 1024 <=? m * 2 ^ e)%Z then FInf (n <? 0)%Z
    else FNum (Qred (scale (Z.sgn n * m) e)).

Definition neg (x : fval) : fval :=
  match x with
  | FNum q => FNum (- q)
  | FInf s => FInf (negb s)
  | FNaN => FNaN
  end.

(** [x + y] *)
Definition add (x y : fval) : fval :=
  match x, y with
  | FNaN, _ | _, FNaN => FNaN
  | FInf s, FInf t => if Bool.eqb s t then FInf s else FNaN
  | FInf s, FNum _ => FInf s
  | FNum _, FInf t => FInf t
  | FNum p, FNum q => round (p + q)
  end.

(** [x - y] *)
Definition sub (x y : fval) : fval := add x (neg y).

(** [x < y]: false when either side is NaN. *)
Definition ltb (x y : fval) : bool :=
  match x, y with
  | FNaN, _ | _, FNaN => false
  | _, FInf true => false
  | FInf true, _ => true
  | FInf false, _ => false
  | FNum _, FInf false => true
  | FNum p, FNum q => Qltb p q
  end.

(** [x <= y]: false when either side is NaN. *)
Definition leb (x y : fval) : bool :=
  match x, y with
  | FNaN, _ | _, FNaN => false
  | FInf true, _ => true
  | _, FInf false => true
  | FInf false, _ => false
  | FNum _, FInf true => false
  | FNum p, FNum q => Qle_bool p q
  end.

End Binary64.

(** *** The sum of a group

    pandas keeps a dtype with every column, and the dtype decides the
    arithmetic of a sum.  After [pd.to_numeric(...).fillna(0)] a column
    is of 64-bit integers, signed or (when a value is [2 ^ 63] or more)
    unsigned, or of binary64 floats.  A frame of this embedding keeps
    no dtype with its cells, so the views that sum a column of numbers
    take its dtype as an argument. *)

Inductive dtype : Type :=
| Int64
| UInt64
| Float64.

(** The loop of [group_sum] over the cells of one group, in row order.
    It is a compensated (Kahan) summation, written once for every
    dtype:
    [y = val - compensation; t = sumx + y;
     compensation = t - sumx - y;
     if compensation != compensation: compensation = 0;
     sumx = t]. *)
Section Kahan.
Context {T : Type} (add sub : T -> T -> T) (nan : T -> bool) (zero : T).

Definition kahan_step (st : T * T) (val : T) : T * T :=
  let y := sub val (snd st) in
  let t := add (fst st) y in
  let c := sub (sub t (fst st)) y in
  (t, if nan c then zero else c).

Definition kahan (l : list T) : T :=
  fst (fold_left kahan_step l (zero, zero)).

End Kahan.

(** Two's complement and unsigned 64-bit integers. *)
Definition wrap_int64 (z : Z) : Z := ((z + 2 ^ 63) mod 2 ^ 64 - 2 ^ 63)%Z.

Definition wrap_uint64 (z : Z) : Z := (z mod 2 ^ 64)%Z.

(** The numbers of a group: missing cells are skipped.  (A column of
    numbers holds no string.) *)
Definition numbers (l : list value) : list Q :=
  omap (fun v => match v with VNum q => Some q | _ => None end) l.

(** The integer that a cell of an integer column holds. *)
Definition to_int (q : Q) : Z := (Qnum q / Z.pos (Qden q))%Z.

Definition int_sum (wrap : Z -> Z) (l : list Z) : Z :=
  kahan (fun a b => wrap (a + b)%Z) (fun a b => wrap (a - b)%Z)
        (fun _ => false) 0%Z l.

(** [.sum()] of a group of a column of dtype [dt]. *)
Definition group_sum (dt : dtype) (l : list value) : fval :=
  match dt with
  | Float64 =>
      kahan Binary64.add Binary64.sub Binary64.is_nan (FNum 0)
            (map FNum (numbers l))
  | Int64 => FNum (inject_Z (int_sum wrap_int64 (map to_int (numbers l))))
  | UInt64 => FNum (inject_Z (int_sum wrap_uint64 (map to_int (numbers l))))
  end.


(** ** Group-by *)

(** The order in which pandas lists group keys: numbers, then strings,
    then the missing key (kept only with [dropna=False]). *)
Definition key_leb (a b : value) : bool :=
  match a, b with
  | _, VNaN => true
  | VNaN, _ => false
  | VNum p, VNum q => Qle_bool p q
  | VNum _, VStr _ => true
  | VStr _, VNum _ => false
  | VStr s, VStr t => String.leb s t
  end.

Definition group_keys (drop : bool) (keys : list value) : list value :=
  sort_by key_leb (unique (if drop then dropna keys else keys)).

Definition pair_eqb (a b : value * value) : bool :=
  value_eqb (fst a) (fst b) && value_eqb (snd a) (snd b).

Definition pair_leb (a b : value * value) : bool :=
  if value_eqb (fst a) (fst b) then key_leb (snd a) (snd b)
  else key_leb (fst a) (fst b).

Definition pair_missing (a : value * value) : bool :=
  is_missing (fst a) || is_missing (snd a).

Definition group_pairs (drop : bool) (keys : list (value * value))
  : list (value * value) :=
  sort_by pair_leb
    (distinct pair_eqb
       (if drop then List.filter (fun k => negb (pair_missing k)) keys else keys)).

(** [.count()] of a group: its non-missing cells. *)
Definition count_cells (l : list value) : nat := List.length (dropna l).

Definition addend (v : value) : Q :=
  match v with VNum q => q | _ => 0%Q end.

(** [.sum()] of a group of truth values: the number of true ones, which
    no arithmetic of the library rounds or wraps. *)
Definition sum_cells (l : list value) : Q :=
  fold_left (fun acc v => (acc + addend v)%Q) l 0%Q.

(** The cells of [vals] in the rows whose key is [k]. *)
Definition group_of {K : Type} (eqb : K -> K -> bool) (k : K)
  (keys : list K) (vals : list value) : list value :=
  map snd (List.filter (fun kv => eqb (fst kv) k) (combine keys vals)).

(** [df.groupby(key, dropna=drop)[col].count().reset_index(name=...)] *)
Definition groupby_count (drop : bool) (keys vals : list value)
  : list (value * nat) :=
  map (fun k => (k, count_cells (group_of value_eqb k keys vals)))
      (group_keys drop keys).

(** A view either renders or reports that its columns are absent. *)
Inductive view (A : Type) : Type :=
| Skipped
| Shown (a : A).
Arguments Skipped {A}.
Arguments Shown {A} a.

(** ** Most profitable product per region *)

Record profit_row : Type := mkProfit {
  pr_region : value;
  pr_product : value;
  pr_profit : fval
}.

(** [filtered.groupby(["order_region","product_name"], dropna=False)
     ["profit_per_order"].sum().reset_index()], the profit column being
    of dtype [dt]. *)
Definition prof_prod (dt : dtype) (filtered : DataFrame)
  : option (list profit_row) :=
  r ← series filtered "order_region";
  p ← series filtered "product_name";
  m ← series filtered "profit_per_order";
  let keys := combine r p in
  Some (map (fun k => mkProfit (fst k) (snd k)
                        (group_sum dt (group_of pair_eqb k keys m)))
            (group_pairs false keys)).

(** [.idxmax()] of one group: the index label of the first maximum. *)
Fixpoint idxmax (l : list (nat * Q)) : option nat :=
  match l with
  | [] => None
  | (i, q) :: t =>
      if existsb (fun jp => Qltb q (snd jp)) t then idxmax t else Some i
  end.

(** [.idxmax()] of one group of a grouped column of sums: the index
    label of the first maximum, NaN being passed over; a group that
    holds nothing but NaN has no maximum, and pandas raises. *)
Fixpoint group_idxmax (l : list (nat * fval)) : option nat :=
  match l with
  | [] => None
  | (i, x) :: t =>
      if Binary64.is_nan x || existsb (fun jp => Binary64.ltb x (snd jp)) t
      then group_idxmax t else Some i
  end.

Definition indexed {A : Type} (l : list A) : list (nat * A) :=
  combine (seq 0 (List.length l)) l.

(** The profit column of the group of region [k], with the index labels
    of its rows. *)
Definition region_group (k : value) (ipp : list (nat * profit_row))
  : list (nat * fval) :=
  map (fun ir => (fst ir, pr_profit (snd ir)))
      (List.filter (fun ir => value_eqb (pr_region (snd ir)) k) ipp).

(** [prof_prod.groupby("order_region")["profit_per_order"].idxmax()] *)
Definition best_idx (pp : list profit_row) : option (list nat) :=
  mapM (fun k => group_idxmax (region_group k (indexed pp)))
       (group_keys true (map pr_region pp)).

(** [prof_prod.loc[idx].reset_index(drop=True)] *)
Definition best_of (pp : list profit_row) : option (list profit_row) :=
  idx ← best_idx pp; mapM (fun i => nth_error pp i) idx.

Definition best_prod (dt : dtype) (filtered : DataFrame)
  : option (view (list profit_row)) :=
  if has_col "order_region" filtered && has_col "product_name" filtered
     && has_col "profit_per_order" filtered
  then pp ← prof_prod dt filtered; best ← best_of pp; Some (Shown best)
  else Some Skipped.

(** ** Delay summaries *)

(** Series division as pandas does it: a zero divisor gives an infinity,
    or NaN for [0 / 0]; nothing is raised. *)
Definition fdiv (a b : Q) : fval :=
  if Qeq_bool b 0 then
    if Qeq_bool a 0 then FNaN else FInf (Qltb a 0)
  else FNum (a / b).

(** [x * 100] *)
Definition times100 (x : fval) : fval :=
  match x with
  | FNum q => FNum (q * 100)
  | FInf s => FInf s
  | FNaN => FNaN
  end.

Definition Qnat (n : nat) : Q := inject_Z (Z.of_nat n).

Record delay_row : Type := mkDelay {
  dr_key : value;
  dr_delay_count : nat;
  dr_total_count : nat;
  dr_delay_pct : fval
}.

Definition lookup_key (k : value) (l : list (value * nat)) : option nat :=
  option_map snd (List.find (fun p => value_eqb (fst p) k) l).

(** [total.merge(delay, on=key, how="left")]: every row of the left
    table, with the count of the right table or a missing cell. *)
Definition merge_left (total delay : list (value * nat))
  : list (value * nat * option nat) :=
  map (fun kt => (fst kt, snd kt, lookup_key (fst kt) delay)) total.

(** [.fillna(0)] over the merged table, then the percentage column. *)
Definition summary_row (r : value * nat * option nat) : delay_row :=
  let key := fillna0 (fst (fst r)) in
  let total := snd (fst r) in
  let delay := default O (snd r) in
  mkDelay key delay total (times100 (fdiv (Qnat delay) (Qnat total))).

(** [.sort_values("delay_count", ascending=False)].  pandas leaves the
    relative order of rows with equal counts to its sorting routine;
    here they keep the order of the merged table. *)
Definition sort_delay (l : list delay_row) : list delay_row :=
  sort_by (fun a b => Nat.leb (dr_delay_count b) (dr_delay_count a)) l.

(** The summary grouped by [key], with the rows whose label equals
    [code] counted as delayed. *)
Definition delay_summary (key : string) (code : Q) (filtered : DataFrame)
  : option (list delay_row) :=
  lab ← series filtered "label";
  k ← series filtered key;
  let hit := boolean_index filtered (map (eq_num code) lab) in
  hk ← series hit key;
  hl ← series hit "label";
  let delay_by := groupby_count false hk hl in
  let total_by := groupby_count false k lab in
  Some (sort_delay (map summary_row (merge_left total_by delay_by))).

Definition guarded_summary (key : string) (code : Q) (filtered : DataFrame)
  : option (view (list delay_row)) :=
  if has_col key filtered && has_col "label" filtered
  then t ← delay_summary key code filtered; Some (Shown t)
  else Some Skipped.

(** Lines 250-257: [filtered[filtered["label"] == 1]] feeds the delayed
    counts. *)
Definition delay_summary_ship : DataFrame -> option (view (list delay_row)) :=
  guarded_summary "shipping_mode" 1.

(** Lines 268-275: [filtered[filtered["label"] == -1]]. *)
Definition delay_summary_region : DataFrame -> option (view (list delay_row)) :=
  guarded_summary "order_region" (-1).

(** ** The script's variables after the filter stage

    [filtered] and [std_df] name two distinct objects ([std_df] is built
    with [.copy()]); an item assignment changes the object a name is bound
    to, which the store records. *)

Record store : Type := mkStore {
  filtered : DataFrame;
  std_df : option DataFrame
}.

(** [.mean()] of a group of truth values. *)
Definition mean_cells (l : list value) : Q :=
  (sum_cells l / Qnat (count_cells l))%Q.

(** Lines 288-299: the Standard Class break-up. *)
Definition std_stage (st : store) : option (store * list (value * Q)) :=
  ship ← series (filtered st) "shipping_mode";
  let std := copy (boolean_index (filtered st) (map (eq_str "Standard Class") ship)) in
  lab ← series std "label";
  let std := assign std "is_delayed" (map (fun v => of_bool (eq_num (-1) v)) lab) in
  reg ← series std "order_region";
  del ← series std "is_delayed";
  let delay_region_std :=
    map (fun k => (k, mean_cells (group_of value_eqb k reg del)))
        (group_keys true reg) in
  Some (mkStore (filtered st) (Some std), delay_region_std).

(** ** Routes *)

Definition req_cols : list string :=
  ["Order city"; "Order Country"; "Customer city"; "Customer Country"; "label"].

(** The loop over [req_cols]: the first label that is not a column. *)
Definition first_missing (df : DataFrame) : option string :=
  List.find (fun c => negb (has_col c df)) req_cols.

Record route_row : Type := mkRoute {
  rt_origin : value;
  rt_destination : value;
  rt_total_orders : nat;
  rt_delayed_orders : Q;
  rt_delay_pct : fval
}.

Inductive routes_output : Type :=
| RoutesStopped (d : diagnostic)
| RoutesChart (top10_routes : list route_row).

(** [city.astype(str) + ", " + country.astype(str)], on one row and on
    the two series. *)
Definition route_label (repr_num : Q -> string) (x y : value) : value :=
  str_add (str_add (astype_str repr_num x) (VStr ", ")) (astype_str repr_num y).

Definition joined (repr_num : Q -> string) (a b : list value) : list value :=
  zip_with (route_label repr_num) a b.

(** The order of [nlargest]: larger first, NaN last. *)
Definition fval_geb (x y : fval) : bool :=
  match x, y with
  | _, FNaN => true
  | FNaN, _ => false
  | FInf false, _ => true
  | _, FInf true => true
  | FInf true, _ => false
  | _, FInf false => false
  | FNum p, FNum q => Qle_bool q p
  end.

(** [route_grp.nlargest(10, "delay_pct")]; rows with equal percentages
    are taken in the order of the table. *)
Definition nlargest10 (l : list route_row) : list route_row :=
  take 10 (sort_by (fun a b => fval_geb (rt_delay_pct a) (rt_delay_pct b)) l).

(** Lines 346-357: the table of routes of a frame that holds the
    [origin], [destination] and [is_delayed] columns. *)
Definition route_grp (df : DataFrame) : option (list route_row) :=
  o ← series df "origin";
  d ← series df "destination";
  lab ← series df "label";
  del ← series df "is_delayed";
  let keys := combine o d in
  Some (map (fun k =>
               let total := count_cells (group_of pair_eqb k keys lab) in
               let delayed := sum_cells (group_of pair_eqb k keys del) in
               mkRoute (fst k) (snd k) total delayed
                       (times100 (fdiv delayed (Qnat total))))
            (group_pairs true keys)).

(** Lines 325-360: the routes feature, on the object bound to
    [filtered]. *)
Definition routes_stage (repr_num : Q -> string) (st : store)
  : option (store * routes_output) :=
  match first_missing (filtered st) with
  | Some c => Some (st, RoutesStopped (MissingRequired c))
  | None =>
      oc ← series (filtered st) "Order city";
      ok ← series (filtered st) "Order Country";
      let f1 := assign (filtered st) "origin" (joined repr_num oc ok) in
      cc ← series f1 "Customer city";
      ck ← series f1 "Customer Country";
      let f2 := assign f1 "destination" (joined repr_num cc ck) in
      lab ← series f2 "label";
      let f3 := assign f2 "is_delayed" (map (fun v => of_bool (eq_num (-1) v)) lab) in
      grp ← route_grp f3;
      Some (mkStore f3 (std_df st), RoutesChart (nlargest10 grp))
  end.

(** The store right after the filter stage. *)
Definition after_filter (work : DataFrame) (sel_regions sel_shipping : list value)
  : option store :=
  f ← filter_stage work sel_regions sel_shipping;
  Some (mkStore f None).

(** ** Vocabulary of the statements *)

(** Label [name] is the one column of [df] at position [i]. *)
Definition at_col (df : DataFrame) (name : string) (i : nat) : Prop :=
  positions name (columns df) 0 = [i].

(** Every row holds one cell per label. *)
Definition wf_frame (df : DataFrame) : Prop :=
  Forall (fun r => List.length r = List.length (columns df)) (rows df).


(** A code point that has a UTF-8 encoding: below 0x110000. *)
Definition code_point (n : N) : Prop := (n < 1114112)%N.

(** An ASCII capital, and the small letter of a letter. *)
Definition capital (n : N) : bool := Chars.between 65 90 n.






(** [found[k]] *)
Definition found_of (fnd : list (string * option string)) (k : string)
  : option string :=
  match List.find (fun kv => String.eqb (fst kv) k) fnd with
  | Some kv => snd kv
  | None => None
  end.

(** A cell that [pd.to_numeric] cannot read as a number. *)
Definition unparseable (parse : string -> option Q) (v : value) : Prop :=
  v = VNaN \/ exists s, v = VStr s /\ parse s = None.

(** The mandatory fields that [found] leaves unresolved, in table order. *)
Definition unresolved_critical (fnd : list (string * option string)) : list string :=
  List.filter (fun k => match found_of fnd k with
                        | None => true
                        | Some _ => false
                        end)
              ["order_region"; "shipping_mode"; "label"].

(** The predicate of one filter on a row: an empty selection lets every
    row through, any other asks for membership of the cell at [i]. *)
Definition keeps (sel : list value) (i : nat) (r : list value) : bool :=
  negb (nonempty sel) || isin sel (cell i r).

(** [opts] are the options of a filter over the column [col]: each is a
    non-missing cell of the column, every non-missing cell is among them,
    and they are strictly ascending (sorted, no value twice). *)
Definition options_of (col opts : list value) : Prop :=
  (forall v, In v opts -> is_missing v = false /\ In v col) /\
  (forall c, In c col -> is_missing c = false -> isin opts c = true) /\
  StronglySorted (fun a b => value_ltb a b = true) opts.

(** Row [r] is not dropped on account of column [k] under the default
    selection: it holds a value there, or no row of [work] does. *)
Definition stays (work : DataFrame) (k : nat) (r : list value) : bool :=
  negb (is_missing (cell k r))
  || forallb (fun r' => is_missing (cell k r')) (rows work).




(** ** Sample data *)

(** A working set in which no row has a region. *)
Definition no_region_work : DataFrame :=
  mkFrame ["order_region"; "shipping_mode"; "label"]
          [[VNaN; VStr "First Class"; VNum (-1)]].

(** A reader that knows three literals, and a printer of numbers; the
    sample frames below hold no number in a printed column. *)
Definition sample_parse (s : string) : option Q :=
  if String.eqb s "-1" then Some (-1)%Q
  else if String.eqb s "0" then Some 0%Q
  else if String.eqb s "1" then Some 1%Q
  else None.

Definition sample_repr (q : Q) : string := "0".

(** A data set with the four route columns under the literal names the
    routes feature asks for.  The header ["order_country"], listed after
    ["Order Country"], takes the logical field, so ["Order Country"] keeps
    its name in the working set. *)
Definition routes_dataset : DataFrame :=
  mkFrame
    ["label"; "order_region"; "shipping_mode"; "Order city"; "Order Country";
     "order_country"; "Customer city"; "Customer Country"]
    [ [VNum (-1); VStr "West"; VStr "Standard Class"; VStr "Pune"; VStr "India";
       VStr "IN"; VStr "Oslo"; VStr "Norway"];
      [VNum 1; VStr "West"; VStr "First Class"; VStr "Pune"; VStr "India";
       VStr "IN"; VStr "Oslo"; VStr "Norway"] ].

(** The same data set with the origin city under another spelling. *)
Definition respelled_dataset : DataFrame :=
  mkFrame
    ["label"; "order_region"; "shipping_mode"; "ORDER CITY"; "Order Country";
     "order_country"; "Customer city"; "Customer Country"]
    (rows routes_dataset).

(** The script from the raw frame to the store after the filter stage,
    with the default selections (every option selected). *)
Definition default_store (parse : string -> option Q) (df : DataFrame)
  : option store :=
  match prepare parse df with
  | Working work =>
      regions ← filter_options "order_region" work;
      ships ← filter_options "shipping_mode" work;
      after_filter work regions ships
  | _ => None
  end.

(** One delayed order, shipped Standard Class. *)
Definition one_delayed_order : DataFrame :=
  mkFrame ["shipping_mode"; "label"] [[VStr "Standard Class"; VNum (-1)]].

(** Six orders with the labels -1, -1, 0, 1, "bad" and a missing one,
    and a sales column with one unreadable cell. *)
Definition six_labels : DataFrame :=
  mkFrame ["label"; "sales"; "order_region"; "shipping_mode"]
    [ [VNum (-1); VNum 10; VStr "West"; VStr "First Class"];
      [VNum (-1); VStr "n/a"; VStr "West"; VStr "First Class"];
      [VNum 0; VNum 5; VStr "East"; VStr "First Class"];
      [VNum 1; VNum 7; VStr "East"; VStr "Same Day"];
      [VStr "bad"; VNum 2; VStr "East"; VStr "Same Day"];
      [VNaN; VNum 1; VNaN; VStr "Same Day"] ].

(** Region West with products A and B tied at a summed profit of 100,
    B through a gain of 160 and a loss of 60. *)
Definition tied_products : DataFrame :=
  mkFrame ["order_region"; "product_name"; "profit_per_order"]
    [ [VStr "West"; VStr "B"; VNum 160];
      [VStr "West"; VStr "A"; VNum 100];
      [VStr "West"; VStr "B"; VNum (-60)];
      [VStr "East"; VStr "C"; VNum 5] ].

Definition tied_sums : list profit_row :=
  [ mkProfit (VStr "East") (VStr "C") (FNum 5);
    mkProfit (VStr "West") (VStr "A") (FNum 100);
    mkProfit (VStr "West") (VStr "B") (FNum 100) ].

(** Product A with the profits 1e16, 1 and -1e16, product B with 1. *)
Definition absorbed_profit : DataFrame :=
  mkFrame ["order_region"; "product_name"; "profit_per_order"]
    [ [VStr "West"; VStr "A"; VNum (inject_Z (10 ^ 16))];
      [VStr "West"; VStr "A"; VNum 1];
      [VStr "West"; VStr "A"; VNum (inject_Z (- 10 ^ 16))];
      [VStr "West"; VStr "B"; VNum 1] ].

(** Product A with twice the profit [2 ^ 62], product B with 1. *)
Definition overflowing_profit : DataFrame :=
  mkFrame ["order_region"; "product_name"; "profit_per_order"]
    [ [VStr "West"; VStr "A"; VNum (inject_Z (2 ^ 62))];
      [VStr "West"; VStr "A"; VNum (inject_Z (2 ^ 62))];
      [VStr "West"; VStr "B"; VNum 1] ].

(** A data set with no header that reads as the delay label. *)
Definition no_label_dataset : DataFrame :=
  mkFrame ["Order Region"; "Shipping Mode"; "Sales"]
    [[VStr "West"; VStr "First Class"; VNum 10]].

(** Two orders; the one of region East has no label. *)
Definition unlabelled_east : DataFrame :=
  mkFrame ["shipping_mode"; "order_region"; "label"]
    [ [VStr "Same Day"; VStr "East"; VNaN];
      [VStr "First Class"; VStr "West"; VNum (-1)] ].

(** ** Further vocabulary *)

(** The alias table flattened: each candidate, normalised, with the
    logical field it stands for. *)
Definition alias_keys : list (string * string) :=
  flat_map (fun e => map (fun c => (fst e, Norm.norm c)) (snd e)) candidates.

(** No normalised candidate is listed under two logical fields. *)
Definition alias_keys_apart : bool :=
  forallb (fun a =>
             forallb (fun b => negb (String.eqb (snd a) (snd b))
                               || String.eqb (fst a) (fst b))
                     alias_keys)
          alias_keys.

(** A character of a normalised label: of the class [a-z0-9], or the
    underscore. *)
Definition norm_char (c : ascii) : bool :=
  Chars.is_alnum (Chars.code c) || Ascii.eqb c Chars.underscore.

(** No two underscores in a row. *)
Fixpoint single_underscores (s : list ascii) : Prop :=
  match s with
  | c :: t =>
      match t with
      | d :: _ => ~ (c = Chars.underscore /\ d = Chars.underscore)
      | [] => True
      end /\ single_underscores t
  | [] => True
  end.

(** Lines 259-261: the row the warning names,
    [delay_summary_ship.loc[delay_summary_ship["delay_count"].idxmax()]],
    when the summary is not empty.  [idxmax] gives the first position,
    in the order of the sorted summary, that holds the largest count. *)
Definition worst (t : list delay_row) : option delay_row :=
  i ← idxmax (indexed (map (fun r => Qnat (dr_delay_count r)) t));
  nth_error t i.

(** Lines 236-238: the cross-tab of regions and shipping modes,
    [filtered.groupby(["order_region","shipping_mode"], dropna=False)
     .size().reset_index(name="count")]. *)
Definition pref (filtered : DataFrame)
  : option (view (list (value * value * nat))) :=
  if has_col "order_region" filtered && has_col "shipping_mode" filtered then
    r ← series filtered "order_region";
    s ← series filtered "shipping_mode";
    let keys := combine r s in
    Some (Shown
            (map (fun k => (fst k, snd k,
                            List.length (List.filter (fun x => pair_eqb x k) keys)))
                 (group_pairs false keys)))
  else Some Skipped.

(** Two delayed orders from India to Oslo; the second has no origin
    city. *)
Definition missing_city_orders : DataFrame :=
  mkFrame
    ["Order city"; "Order Country"; "Customer city"; "Customer Country"; "label"]
    [ [VStr "Pune"; VStr "India"; VStr "Oslo"; VStr "Norway"; VNum (-1)];
      [VNaN; VStr "India"; VStr "Oslo"; VStr "Norway"; VNum (-1)] ].

(** A data set with the label under two spellings. *)
Definition two_labels_dataset : DataFrame :=
  mkFrame ["label"; "Label"; "order_region"; "shipping_mode"]
    [[VNum (-1); VNum 0; VStr "West"; VStr "First Class"]].

(** The working set of [six_labels]: the label "bad" is missing, the
    sales cell "n/a" is 0. *)
Definition six_labels_work : DataFrame :=
  mkFrame ["label"; "sales"; "order_region"; "shipping_mode"]
    [ [VNum (-1); VNum 10; VStr "West"; VStr "First Class"];
      [VNum (-1); VNum 0; VStr "West"; VStr "First Class"];
      [VNum 0; VNum 5; VStr "East"; VStr "First Class"];
      [VNum 1; VNum 7; VStr "East"; VStr "Same Day"];
      [VNaN; VNum 2; VStr "East"; VStr "Same Day"];
      [VNaN; VNum 1; VNaN; VStr "Same Day"] ].

(** The summary by region of [unlabelled_east]. *)
Definition unlabelled_east_summary : list delay_row :=
  [ mkDelay (VStr "West") 1 1 (FNum 100);
    mkDelay (VStr "East") 0 0 FNaN ].

(** * Properties *)

(** ** Normalisation *)

Section Normalisation.
Import Chars Norm.

Lemma between_true (lo hi n : N) :
  between lo hi n = true <-> (lo <= n /\ n <= hi)%N.
Proof. unfold between. now rewrite andb_true_iff, !N.leb_le. Qed.

Lemma between_false (lo hi n : N) :
  between lo hi n = false <-> (n < lo \/ hi < n)%N.
Proof.
  unfold between. rewrite andb_false_iff, !N.leb_gt. tauto.
Qed.

Lemma is_alnum_range (n : N) :
  is_alnum n = true <-> (97 <= n <= 122 \/ 48 <= n <= 57)%N.
Proof. unfold is_alnum. now rewrite orb_true_iff, !between_true. Qed.


Lemma is_space_out (n : N) :
  (32 < n < 133)%N -> is_space n = false.
Proof.
  intros H. unfold is_space.
  repeat (apply orb_false_iff; split);
    first [apply between_false; lia|apply N.eqb_neq; lia].
Qed.


Lemma lower_point_plain (n : N) :
  capital n = false -> n <> 304%N -> n <> 8490%N -> lower_point n = [n].
Proof.
  unfold lower_point, capital. intros -> H1 H2.
  now rewrite (proj2 (N.eqb_neq _ _) H1), (proj2 (N.eqb_neq _ _) H2).
Qed.

Lemma re_sub_runs (s : list N) :
  re_sub false s = List.concat (map replace_run (runs s)) /\
  re_sub true s =
    List.concat (map replace_run
                   (match runs s with
                    | (false, _) :: rest => rest
                    | l => l
                    end)).
Proof.
  induction s as [|c t [IHf IHt]]; [split; reflexivity|].
  cbn [re_sub runs].
  destruct (runs t) as [|[b r] rest] eqn:Hr; destruct (is_alnum c) eqn:Hc;
    try destruct b; cbn in *; rewrite ?IHf, ?IHt; split; reflexivity.
Qed.




Lemma norm_spec (s : string) : norm s = spec_norm s.
Proof.
  unfold norm, spec_norm, norm_points, spec_norm_points.
  now rewrite (proj1 (re_sub_runs _)).
Qed.



















End Normalisation.

(** ** Strings and code points *)

Section Codec.
Import Chars Utf8.

Lemma code_ascii (n : N) : (n < 256)%N -> code (ascii_of_N n) = n.
Proof. apply N_ascii_embedding. Qed.

Lemma decode_1 (a : ascii) (t : list ascii) :
  (code a <? 128)%N = true -> decode (a :: t) = code a :: decode t.
Proof. intros H. cbn [decode]. now rewrite H. Qed.

Lemma decode_2 (a b : ascii) (t1 : list ascii) :
  (code a <? 128)%N = false ->
  between 192 223 (code a) = true -> continuation (code b) = true ->
  decode (a :: b :: t1)
  = ((code a - 192) * 64 + (code b - 128))%N :: decode t1.
Proof.
  intros H1 H2 H3. remember (b :: t1) as t eqn:Ht. cbn [decode].
  rewrite H1. subst t. now rewrite H2, H3.
Qed.

Lemma decode_3 (a b c : ascii) (t2 : list ascii) :
  (code a <? 128)%N = false ->
  between 192 223 (code a) = false ->
  between 224 239 (code a) = true ->
  continuation (code b) = true -> continuation (code c) = true ->
  decode (a :: b :: c :: t2)
  = ((code a - 224) * 4096 + (code b - 128) * 64 + (code c - 128))%N
    :: decode t2.
Proof.
  intros H1 H2 H3 H4 H5. remember (b :: c :: t2) as t eqn:Ht. cbn [decode].
  rewrite H1. subst t. now rewrite H2, H3, H4, H5.
Qed.

Lemma decode_4 (a b c d : ascii) (t3 : list ascii) :
  (code a <? 128)%N = false ->
  between 192 223 (code a) = false ->
  between 224 239 (code a) = false ->
  between 240 247 (code a) = true ->
  continuation (code b) = true -> continuation (code c) = true ->
  continuation (code d) = true ->
  decode (a :: b :: c :: d :: t3)
  = ((code a - 240) * 262144 + (code b - 128) * 4096
     + (code c - 128) * 64 + (code d - 128))%N :: decode t3.
Proof.
  intros H1 H2 H3 H4 H5 H6 H7. remember (b :: c :: d :: t3) as t eqn:Ht.
  cbn [decode]. rewrite H1. subst t. now rewrite H2, H3, H4, H5, H6, H7.
Qed.

Lemma decode_encode_point (n : N) (rest : list ascii) :
  code_point n -> decode (encode_point n ++ rest) = n :: decode rest.
Proof.
  unfold code_point, encode_point. intros Hn.
  pose proof (N.div_mod n 64 ltac:(discriminate)) as Hd.
  pose proof (N.mod_lt n 64 ltac:(discriminate)) as Hm.
  pose proof (N.div_mod (n / 64) 64 ltac:(discriminate)) as Hd2.
  pose proof (N.mod_lt (n / 64) 64 ltac:(discriminate)) as Hm2.
  pose proof (N.div_mod (n / 4096) 64 ltac:(discriminate)) as Hd3.
  pose proof (N.mod_lt (n / 4096) 64 ltac:(discriminate)) as Hm3.
  pose proof (N.le_0_l (n mod 64)) as Hp.
  pose proof (N.le_0_l ((n / 64) mod 64)) as Hp2.
  pose proof (N.le_0_l ((n / 4096) mod 64)) as Hp3.
  pose proof (N.le_0_l (n / 64 / 64 / 64)) as Hp4.
  assert (Hdd : (n / 4096 = n / 64 / 64)%N)
    by (now rewrite N.Div0.div_div).
  assert (Hddd : (n / 262144 = n / 4096 / 64)%N)
    by (now rewrite N.Div0.div_div).
  destruct (N.ltb_spec n 128) as [H1|H1].
  { cbn [app]. rewrite decode_1; rewrite code_ascii by lia;
      [reflexivity|now apply N.ltb_lt]. }
  destruct (N.ltb_spec n 2048) as [H2|H2].
  { cbn [app]. unfold continuation.
    rewrite decode_2; rewrite !code_ascii by lia;
      [f_equal; lia|apply N.ltb_ge; lia|apply between_true; lia
      |apply between_true; lia]. }
  destruct (N.ltb_spec n 65536) as [H3|H3].
  { cbn [app]. unfold continuation.
    rewrite decode_3; rewrite !code_ascii by lia;
      [f_equal; lia|apply N.ltb_ge; lia|apply between_false; lia
      |apply between_true; lia|apply between_true; lia
      |apply between_true; lia]. }
  cbn [app]. unfold continuation.
  rewrite decode_4; rewrite !code_ascii by lia;
    [f_equal; lia|apply N.ltb_ge; lia|apply between_false; lia
    |apply between_false; lia|apply between_true; lia
    |apply between_true; lia|apply between_true; lia|apply between_true; lia].
Qed.

Lemma decode_encode (u : list N) :
  Forall code_point u -> decode (encode u) = u.
Proof.
  induction 1 as [|n t Hn _ IH]; [reflexivity|].
  unfold encode. cbn [flat_map]. rewrite (decode_encode_point n _ Hn).
  f_equal. exact IH.
Qed.

(** Every sequence of code points is the sequence of code points of a
    string, its UTF-8 encoding. *)
Lemma points_str (u : list N) : Forall code_point u -> points (str u) = u.
Proof.
  intros H. unfold points, str.
  rewrite list_ascii_of_string_of_list_ascii. now apply decode_encode.
Qed.

Lemma encode_ascii (u : list N) :
  Forall (fun n => (n < 128)%N) u -> encode u = map ascii_of_N u.
Proof.
  induction 1 as [|n t Hn _ IH]; [reflexivity|].
  unfold encode in *. cbn [flat_map map]. rewrite IH.
  unfold encode_point. now rewrite (proj2 (N.ltb_lt _ _) Hn).
Qed.

End Codec.

(** ** Column resolution *)

Lemma find_app_first {A : Type} (f : A -> bool) (l1 l2 : list A) :
  List.find f (l1 ++ l2) =
  match List.find f l1 with Some x => Some x | None => List.find f l2 end.
Proof.
  induction l1 as [|x t IH]; [reflexivity|].
  cbn. destruct (f x); [reflexivity|exact IH].
Qed.

Lemma mapping_lookup (cols : list string) (m : gmap string string) (k : string) :
  fold_left (fun (m : gmap string string) c => <[Norm.norm c := c]> m) cols m !! k =
  match List.find (fun h => String.eqb (Norm.norm h) k) (rev cols) with
  | Some h => Some h
  | None => m !! k
  end.
Proof.
  revert m. induction cols as [|c t IH]; intros m; [reflexivity|].
  cbn [fold_left rev]. rewrite IH, find_app_first.
  destruct (List.find _ (rev t)); [reflexivity|].
  cbn. destruct (String.eqb (Norm.norm c) k) eqn:Hk.
  - apply String.eqb_eq in Hk. subst k. apply lookup_insert_eq.
  - apply String.eqb_neq in Hk. now apply lookup_insert_ne.
Qed.

Lemma col_map_last_wins (df : DataFrame) (k : string) :
  snd (normalize_cols df) !! k =
  List.find (fun h => String.eqb (Norm.norm h) k) (rev (columns df)).
Proof.
  cbn. rewrite mapping_lookup, lookup_empty.
  now destruct (List.find _ _).
Qed.

Lemma find_col_some (m : gmap string string) (cands : list string) (h : string) :
  find_col m cands = Some h <->
  exists pre c post, cands = pre ++ c :: post /\
    (forall c', In c' pre -> m !! Norm.norm c' = None) /\
    m !! Norm.norm c = Some h.
Proof.
  induction cands as [|c t IH]; cbn [find_col].
  - split; [discriminate|]. intros (pre & c & post & H & _).
    now destruct pre.
  - destruct (m !! Norm.norm c) as [a|] eqn:Hc.
    + split.
      * intros [= ->]. exists [], c, t. repeat split; [|exact Hc].
        intros c' [].
      * intros ([|p pre] & c1 & post & Heq & Hpre & Hhit).
        -- injection Heq as <- _. congruence.
        -- injection Heq as <- _. rewrite (Hpre c) in Hc; [discriminate|now left].
    + rewrite IH. split.
      * intros (pre & c1 & post & -> & Hpre & Hhit).
        exists (c :: pre), c1, post. repeat split; [|exact Hhit].
        intros c' [<-|Hin]; [exact Hc|now apply Hpre].
      * intros ([|p pre] & c1 & post & Heq & Hpre & Hhit).
        -- injection Heq as <- _. congruence.
        -- injection Heq as <- ->. exists pre, c1, post.
           repeat split; [|exact Hhit]. intros c' Hin. apply Hpre. now right.
Qed.

Lemma find_col_none (m : gmap string string) (cands : list string) :
  find_col m cands = None <->
  forall c, In c cands -> m !! Norm.norm c = None.
Proof.
  induction cands as [|c t IH]; cbn [find_col].
  - split; [intros _ c []|reflexivity].
  - destruct (m !! Norm.norm c) as [a|] eqn:Hc.
    + split; [discriminate|]. intros H. rewrite (H c) in Hc; [discriminate|now left].
    + rewrite IH. split.
      * intros H c' [<-|Hin]; [exact Hc|now apply H].
      * intros H c' Hin. apply H. now right.
Qed.


(** ** The mandatory-field check *)

Lemma missing_critical_resolve (m : gmap string string) :
  missing_critical (resolve m) = unresolved_critical (resolve m).
Proof.
  unfold resolve, candidates. cbn [map fst snd].
  repeat match goal with
         | |- context [find_col m ?l] => generalize (find_col m l); intro
         end.
  repeat match goal with
         | o : option string |- _ => destruct o
         end; reflexivity.
Qed.

(** C2: when one of [label], [order_region], [shipping_mode] is
    unresolved, the script stops on the diagnostic that lists the
    unresolved mandatory fields and all literal headers, and no working
    set is built; when the three resolve, it does not stop here. *)
Theorem mandatory_field_abort (parse : string -> option Q) (df : DataFrame) :
  let unresolved := unresolved_critical (found df) in
  (unresolved <> [] ->
   prepare parse df = Stopped (CriticalMissing unresolved (columns df))) /\
  (unresolved = [] -> forall d, prepare parse df <> Stopped d) /\
  (forall k, In k unresolved <->
             In k critical /\ found_of (found df) k = None).
Proof.
  intros unresolved. subst unresolved.
  unfold prepare, found. cbn [normalize_cols snd].
  set (m := fold_left _ _ _).
  rewrite missing_critical_resolve.
  split; [|split].
  - intros Hne. destruct (unresolved_critical (resolve m)); [contradiction|reflexivity].
  - intros ->. cbn [nonempty]. intros d.
    destruct (coerce parse _); discriminate.
  - intros k. unfold unresolved_critical, critical.
    rewrite filter_In. cbn [In].
    split; intros [Hin Hk]; (split; [tauto|]).
    + now destruct (found_of (resolve m) k).
    + now rewrite Hk.
Qed.

(** ** Frames: labels, series and masks *)

Lemma select_map {A : Type} (f : A -> bool) (l : list A) :
  select l (map f l) = List.filter f l.
Proof.
  induction l as [|x t IH]; [reflexivity|].
  cbn. destruct (f x); now rewrite IH.
Qed.

Lemma filter_filter_andb {A : Type} (p q : A -> bool) (l : list A) :
  List.filter q (List.filter p l) = List.filter (fun x => p x && q x) l.
Proof.
  induction l as [|x t IH]; [reflexivity|].
  cbn. destruct (p x); cbn; [destruct (q x)|]; now rewrite IH.
Qed.

Lemma filter_all {A : Type} (p : A -> bool) (l : list A) :
  (forall x, In x l -> p x = true) -> List.filter p l = l.
Proof.
  induction l as [|x t IH]; intros H; [reflexivity|].
  cbn. rewrite (H x) by now left. f_equal. apply IH. intros y Hy. apply H. now right.
Qed.

Lemma positions_bounds (name : string) (cols : list string) (k i : nat) :
  In i (positions name cols k) <->
  (k <= i)%nat /\ nth_error cols (i - k) = Some name.
Proof.
  revert k. induction cols as [|c t IH]; intros k; cbn [positions].
  - split; [intros []|]. intros [_ H]. now destruct (i - k)%nat.
  - assert (Hstep : In i (positions name t (S k)) <->
                    (S k <= i)%nat /\ nth_error (c :: t) (i - k) = Some name).
    { rewrite IH. split; intros [Hle Hn]; (split; [lia|]).
      - replace (i - k)%nat with (S (i - S k)) by lia. exact Hn.
      - replace (i - k)%nat with (S (i - S k)) in Hn by lia. exact Hn. }
    destruct (String.eqb name c) eqn:Hc.
    + apply String.eqb_eq in Hc. subst c. cbn [In]. rewrite Hstep.
      split.
      * intros [<-|[Hle Hn]]; [|split; [lia|exact Hn]].
        split; [lia|]. now rewrite Nat.sub_diag.
      * intros [Hle Hn]. destruct (Nat.eq_dec k i) as [->|Hne]; [now left|].
        right. split; [lia|exact Hn].
    + apply String.eqb_neq in Hc. rewrite Hstep.
      split; intros [Hle Hn].
      * split; [lia|exact Hn].
      * destruct (Nat.eq_dec k i) as [->|Hne]; [|split; [lia|exact Hn]].
        rewrite Nat.sub_diag in Hn. cbn in Hn. congruence.
Qed.

Lemma has_col_positions (name : string) (df : DataFrame) :
  has_col name df = nonempty (positions name (columns df) 0).
Proof.
  unfold has_col. generalize 0%nat.
  induction (columns df) as [|c t IH]; intros k; [reflexivity|].
  cbn. destruct (String.eqb name c); [reflexivity|apply IH].
Qed.

Lemma has_col_In (name : string) (df : DataFrame) :
  has_col name df = true <-> In name (columns df).
Proof.
  unfold has_col. rewrite existsb_exists. split.
  - intros (c & Hin & Hc). apply String.eqb_eq in Hc. now subst.
  - intros Hin. exists name. split; [exact Hin|apply String.eqb_refl].
Qed.

Lemma at_col_has (df : DataFrame) (name : string) (i : nat) :
  at_col df name i -> has_col name df = true.
Proof. unfold at_col. intros H. now rewrite has_col_positions, H. Qed.

Lemma at_col_series (df : DataFrame) (name : string) (i : nat) :
  at_col df name i -> series df name = Some (map (cell i) (rows df)).
Proof. unfold at_col, series. now intros ->. Qed.

Lemma series_at_col (df : DataFrame) (name : string) (s : list value) :
  series df name = Some s ->
  exists i, at_col df name i /\ s = map (cell i) (rows df).
Proof.
  unfold series, at_col.
  destruct (positions name (columns df) 0) as [|i [|j t]]; try discriminate.
  intros [= <-]. now exists i.
Qed.

Lemma frame_eta (df : DataFrame) : mkFrame (columns df) (rows df) = df.
Proof. now destruct df. Qed.

(** ** The filter stage *)

Lemma restrict_spec (name : string) (sel : list value) (f : DataFrame) (i : nat) :
  at_col f name i ->
  restrict name sel f =
  Some (mkFrame (columns f) (List.filter (keeps sel i) (rows f))).
Proof.
  intros Hat. unfold restrict, keeps.
  rewrite (at_col_has _ _ _ Hat), (at_col_series _ _ _ Hat).
  destruct sel as [|x sel]; cbn [nonempty andb negb orb].
  - rewrite filter_all by reflexivity. now rewrite frame_eta.
  - cbn [mbind option_bind]. unfold boolean_index.
    now rewrite map_map, select_map.
Qed.

Lemma filter_stage_spec (work : DataFrame) (R S : list value) (i j : nat) :
  at_col work "order_region" i ->
  at_col work "shipping_mode" j ->
  filter_stage work R S =
  Some (mkFrame (columns work)
          (List.filter (fun r => keeps R i r && keeps S j r) (rows work))).
Proof.
  intros Hi Hj. unfold filter_stage.
  rewrite (restrict_spec _ _ _ i) by exact Hi.
  cbn [mbind option_bind].
  rewrite (restrict_spec _ _ _ j) by exact Hj.
  cbn [columns rows copy]. now rewrite filter_filter_andb.
Qed.

Lemma isin_spec (sel : list value) (v : value) :
  isin sel v = true <-> exists x, In x sel /\ value_eqb v x = true.
Proof. unfold isin. apply existsb_exists. Qed.

(** C4: the filtered set is the working set cut down to the rows whose
    region is in the region selection and whose shipping mode is in the
    shipping-mode selection, an empty selection applying no predicate;
    with no region selected only the shipping-mode predicate remains. *)
Theorem filter_engine_semantics (work : DataFrame) (R S : list value) (i j : nat) :
  at_col work "order_region" i ->
  at_col work "shipping_mode" j ->
  filter_stage work R S =
    Some (mkFrame (columns work)
            (List.filter (fun r => keeps R i r && keeps S j r) (rows work))) /\
  (forall r, keeps R i r = true <->
             R = [] \/ exists x, In x R /\ value_eqb (cell i r) x = true) /\
  (forall r, keeps S j r = true <->
             S = [] \/ exists x, In x S /\ value_eqb (cell j r) x = true) /\
  filter_stage work [] S =
    Some (mkFrame (columns work) (List.filter (keeps S j) (rows work))) /\
  filter_stage work [] S = restrict "shipping_mode" S (copy work).
Proof.
  intros Hi Hj.
  assert (Hkeeps : forall sel k r, keeps sel k r = true <->
            sel = [] \/ exists x, In x sel /\ value_eqb (cell k r) x = true).
  { intros sel k r. unfold keeps. rewrite orb_true_iff, isin_spec.
    destruct sel; cbn; split; intros [H|H]; try discriminate; auto. }
  split; [now apply filter_stage_spec|].
  split; [apply Hkeeps|]. split; [apply Hkeeps|].
  rewrite (filter_stage_spec work [] S i j Hi Hj).
  split; [reflexivity|].
  now rewrite (restrict_spec _ _ _ j) by exact Hj.
Qed.

(** ** Equality and order of cells *)

Lemma value_eqb_refl (v : value) : value_eqb v v = true.
Proof.
  destruct v; cbn; [reflexivity| |apply String.eqb_refl].
  apply Qeq_bool_iff. reflexivity.
Qed.

Lemma value_eqb_sym (a b : value) : value_eqb a b = value_eqb b a.
Proof.
  destruct a, b; cbn; try reflexivity.
  - destruct (Qeq_bool q q0) eqn:H1, (Qeq_bool q0 q) eqn:H2; try reflexivity.
    + apply Qeq_bool_iff in H1. symmetry in H1. apply Qeq_bool_iff in H1. congruence.
    + apply Qeq_bool_iff in H2. symmetry in H2. apply Qeq_bool_iff in H2. congruence.
  - apply String.eqb_sym.
Qed.

Lemma value_eqb_trans (a b c : value) :
  value_eqb a b = true -> value_eqb b c = true -> value_eqb a c = true.
Proof.
  destruct a, b, c; cbn; try discriminate; try reflexivity.
  - rewrite !Qeq_bool_iff. intros H1 H2. now rewrite H1.
  - rewrite !String.eqb_eq. congruence.
Qed.

Lemma value_eqb_cong (a b c : value) :
  value_eqb a b = true -> value_eqb a c = value_eqb b c.
Proof.
  intros Hab. destruct (value_eqb b c) eqn:Hbc.
  - now apply (value_eqb_trans a b c).
  - destruct (value_eqb a c) eqn:Hac; [|reflexivity].
    rewrite value_eqb_sym in Hab.
    now rewrite (value_eqb_trans b a c Hab Hac) in Hbc.
Qed.

Lemma value_eqb_missing (a b : value) :
  value_eqb a b = true -> is_missing a = is_missing b.
Proof. destruct a, b; cbn; congruence. Qed.

Lemma Qltb_lt (p q : Q) : Qltb p q = true <-> (p < q)%Q.
Proof.
  unfold Qltb. rewrite negb_true_iff. split.
  - intros H. apply Qnot_le_lt. intros Hle. apply Qle_bool_iff in Hle. congruence.
  - intros H. destruct (Qle_bool q p) eqn:Hle; [|reflexivity].
    apply Qle_bool_iff in Hle. exfalso. exact (Qlt_not_le _ _ H Hle).
Qed.

Lemma Qltb_ge (p q : Q) : Qltb p q = false <-> (q <= p)%Q.
Proof.
  unfold Qltb. rewrite negb_false_iff. apply Qle_bool_iff.
Qed.

Lemma ascii_compare_trans (a b c : ascii) :
  Ascii.compare a b = Lt -> Ascii.compare b c = Lt -> Ascii.compare a c = Lt.
Proof.
  unfold Ascii.compare. rewrite !N.compare_lt_iff. lia.
Qed.

Lemma string_compare_refl (s : string) : String.compare s s = Eq.
Proof.
  induction s as [|a s IH]; [reflexivity|].
  cbn. unfold Ascii.compare. now rewrite N.compare_refl.
Qed.

Lemma string_compare_trans (s t u : string) :
  String.compare s t = Lt -> String.compare t u = Lt -> String.compare s u = Lt.
Proof.
  revert t u. induction s as [|a s IH]; intros [|b t] [|c u]; cbn;
    try discriminate; try reflexivity.
  destruct (Ascii.compare a b) eqn:Hab; try discriminate;
    destruct (Ascii.compare b c) eqn:Hbc; try discriminate; intros H1 H2.
  - apply Ascii.compare_eq_iff in Hab, Hbc. subst.
    unfold Ascii.compare. rewrite N.compare_refl. now apply (IH t u).
  - apply Ascii.compare_eq_iff in Hab. subst. now rewrite Hbc.
  - apply Ascii.compare_eq_iff in Hbc. subst. now rewrite Hab.
  - now rewrite (ascii_compare_trans a b c Hab Hbc).
Qed.

(** ** Sorting *)

Section Sorting.
Context {A : Type} (leb : A -> A -> bool) (P : A -> Prop).
Hypothesis leb_total : forall a b, P a -> P b -> leb a b = false -> leb b a = true.
Hypothesis leb_trans :
  forall a b c, P a -> P b -> P c ->
                leb a b = true -> leb b c = true -> leb a c = true.

Lemma insert_by_perm (x : A) (l : list A) : Permutation (insert_by leb x l) (x :: l).
Proof.
  induction l as [|y t IH]; [reflexivity|].
  cbn. destruct (leb x y); [reflexivity|].
  rewrite IH. apply perm_swap.
Qed.

Lemma sort_by_perm (l : list A) : Permutation (sort_by leb l) l.
Proof.
  induction l as [|x t IH]; [reflexivity|].
  cbn. rewrite insert_by_perm. now constructor.
Qed.

Lemma insert_by_sorted (x : A) (l : list A) :
  P x -> Forall P l ->
  StronglySorted (fun a b => leb a b = true) l ->
  StronglySorted (fun a b => leb a b = true) (insert_by leb x l).
Proof.
  intros Px HP Hs. induction l as [|y t IH]; cbn.
  - repeat constructor.
  - inversion HP as [|? ? Py HPt]; subst.
    inversion Hs as [|? ? Hst Hy]; subst.
    destruct (leb x y) eqn:Hxy.
    + constructor; [exact Hs|]. constructor; [exact Hxy|].
      rewrite List.Forall_forall in *. intros z Hz.
      apply (leb_trans x y z); auto.
    + constructor; [now apply IH|].
      rewrite List.Forall_forall in *. intros z Hz.
      apply (Permutation_in _ (insert_by_perm x t)) in Hz.
      destruct Hz as [<-|Hz]; [now apply leb_total|now apply Hy].
Qed.

Lemma sort_by_sorted (l : list A) :
  Forall P l -> StronglySorted (fun a b => leb a b = true) (sort_by leb l).
Proof.
  induction l as [|x t IH]; intros HP; [constructor|].
  inversion HP; subst. cbn. apply insert_by_sorted; auto.
  rewrite List.Forall_forall in *. intros z Hz.
  apply (Permutation_in _ (sort_by_perm t)) in Hz. auto.
Qed.

End Sorting.

(** ** Distinct elements *)

Lemma filter_perm_length {A : Type} (p : A -> bool) (l l' : list A) :
  Permutation l l' ->
  List.length (List.filter p l) = List.length (List.filter p l').
Proof.
  induction 1 as [|x l l' _ IH|x y l|l l' l'' _ IH1 _ IH2]; cbn.
  - reflexivity.
  - destruct (p x); cbn; now rewrite IH.
  - destruct (p x), (p y); reflexivity.
  - now rewrite IH1.
Qed.

Section Distinct.
Context {A : Type} (eqb : A -> A -> bool).
Hypothesis eqb_refl : forall a, eqb a a = true.
Hypothesis eqb_sym : forall a b, eqb a b = eqb b a.
Hypothesis eqb_trans :
  forall a b c, eqb a b = true -> eqb b c = true -> eqb a c = true.

Lemma distinct_In (v : A) (l : list A) : In v (distinct eqb l) -> In v l.
Proof.
  induction l as [|x t IH]; [intros []|].
  cbn. intros [<-|H]; [now left|].
  apply filter_In in H. right. now apply IH.
Qed.

Lemma distinct_covers (c : A) (l : list A) :
  In c l -> exists v, In v (distinct eqb l) /\ eqb c v = true.
Proof.
  induction l as [|x t IH]; [intros []|].
  cbn. intros [<-|H].
  - exists x. split; [now left|apply eqb_refl].
  - destruct (IH H) as (v & Hv & Hcv).
    destruct (eqb x v) eqn:Hxv.
    + exists x. split; [now left|].
      rewrite eqb_sym in Hxv. now apply (eqb_trans c v x).
    + exists v. split; [|exact Hcv].
      right. apply filter_In. split; [exact Hv|now rewrite Hxv].
Qed.

Lemma distinct_once (v : A) (l : list A) :
  (List.length (List.filter (eqb v) (distinct eqb l)) <= 1)%nat.
Proof.
  induction l as [|x t IH]; [cbn; lia|].
  cbn [distinct List.filter].
  destruct (eqb v x) eqn:Hvx.
  - cbn [List.length]. rewrite filter_filter_andb.
    replace (List.filter _ (distinct eqb t)) with (@nil A); [cbn; lia|].
    symmetry. clear IH. induction (distinct eqb t) as [|y u IHu]; [reflexivity|].
    cbn. destruct (eqb x y) eqn:Hxy; cbn; [exact IHu|].
    destruct (eqb v y) eqn:Hvy; [|exact IHu].
    rewrite eqb_sym in Hvx. now rewrite (eqb_trans x v y Hvx Hvy) in Hxy.
  - rewrite filter_filter_andb.
    etransitivity; [|exact IH].
    clear IH. induction (distinct eqb t) as [|y u IHu]; [reflexivity|].
    cbn. destruct (eqb x y), (eqb v y); cbn; lia.
Qed.

Lemma distinct_nil (l : list A) : distinct eqb l = [] <-> l = [].
Proof. destruct l; cbn; split; congruence. Qed.

(** A list sorted by a reflexive order in which no element occurs twice
    is strictly sorted. *)
Lemma sorted_once_strict (leb ltb : A -> A -> bool) (l : list A) :
  (forall a b, In a l -> In b l ->
               leb a b = true -> eqb a b = false -> ltb a b = true) ->
  (forall v, (List.length (List.filter (eqb v) l) <= 1)%nat) ->
  StronglySorted (fun a b => leb a b = true) l ->
  StronglySorted (fun a b => ltb a b = true) l.
Proof.
  intros Hstrict Honce Hs.
  induction l as [|x t IH]; [constructor|].
  inversion Hs as [|? ? Hst Hx]; subst.
  constructor.
  - apply IH; [intros a b Ha Hb; apply Hstrict; now right| |exact Hst].
    intros v. specialize (Honce v). cbn in Honce.
    destruct (eqb v x); cbn in Honce; lia.
  - rewrite List.Forall_forall in *. intros y Hy.
    apply Hstrict; [now left|now right|now apply Hx|].
    destruct (eqb x y) eqn:Hxy; [|reflexivity].
    specialize (Honce x). cbn in Honce. rewrite eqb_refl in Honce.
    cbn in Honce.
    assert (1 <= List.length (List.filter (eqb x) t))%nat; [|lia].
    clear - Hy Hxy. induction t as [|z u IHu]; [destruct Hy|].
    cbn. destruct Hy as [->|Hy].
    + rewrite Hxy. cbn. lia.
    + destruct (eqb x z); cbn; [lia|now apply IHu].
Qed.

End Distinct.

(** ** Filter options *)

Lemma py_leb_total_num (a b : value) :
  (exists p, a = VNum p) -> (exists q, b = VNum q) ->
  py_leb a b = false -> py_leb b a = true.
Proof.
  intros [p ->] [q ->]. unfold py_leb. cbn.
  rewrite negb_false_iff, negb_true_iff, Qltb_lt, Qltb_ge.
  apply Qlt_le_weak.
Qed.

Lemma py_leb_trans_num (a b c : value) :
  (exists p, a = VNum p) -> (exists q, b = VNum q) -> (exists r, c = VNum r) ->
  py_leb a b = true -> py_leb b c = true -> py_leb a c = true.
Proof.
  intros [p ->] [q ->] [r ->]. unfold py_leb. cbn.
  rewrite !negb_true_iff, !Qltb_ge. apply Qle_trans.
Qed.

Lemma py_leb_strict_num (a b : value) :
  (exists p, a = VNum p) -> (exists q, b = VNum q) ->
  py_leb a b = true -> value_eqb a b = false -> value_ltb a b = true.
Proof.
  intros [p ->] [q ->]. unfold py_leb. cbn.
  rewrite negb_true_iff, Qltb_ge, Qltb_lt. intros Hle Hne.
  destruct (Qle_lt_or_eq _ _ Hle) as [Hlt|Heq]; [exact Hlt|].
  apply Qeq_bool_iff in Heq. congruence.
Qed.

Lemma string_ltb_false (s t : string) :
  String.ltb t s = false -> s <> t -> String.ltb s t = true.
Proof.
  unfold String.ltb. rewrite (String.compare_antisym s t).
  destruct (String.compare t s) eqn:Hc; cbn; try discriminate; [|reflexivity].
  intros _ Hne. apply String.compare_eq_iff in Hc. congruence.
Qed.

Lemma py_leb_total_str (a b : value) :
  (exists s, a = VStr s) -> (exists t, b = VStr t) ->
  py_leb a b = false -> py_leb b a = true.
Proof.
  intros [s ->] [t ->]. unfold py_leb. cbn.
  rewrite negb_false_iff, negb_true_iff. unfold String.ltb.
  rewrite (String.compare_antisym s t).
  now destruct (String.compare t s).
Qed.

Lemma py_leb_trans_str (a b c : value) :
  (exists s, a = VStr s) -> (exists t, b = VStr t) -> (exists u, c = VStr u) ->
  py_leb a b = true -> py_leb b c = true -> py_leb a c = true.
Proof.
  intros [s ->] [t ->] [u ->]. unfold py_leb. cbn.
  rewrite !negb_true_iff. unfold String.ltb.
  destruct (String.compare t s) eqn:Hts; try discriminate;
    destruct (String.compare u t) eqn:Hut; try discriminate;
    destruct (String.compare u s) eqn:Hus; try reflexivity; intros _ _; exfalso.
  - apply String.compare_eq_iff in Hts, Hut. subst.
    rewrite string_compare_refl in Hus. discriminate.
  - apply String.compare_eq_iff in Hts. subst. congruence.
  - apply String.compare_eq_iff in Hut. subst. congruence.
  - rewrite String.compare_antisym in Hts.
    destruct (String.compare s t) eqn:Hst; try discriminate.
    rewrite (string_compare_trans u s t Hus Hst) in Hut. discriminate.
Qed.

Lemma py_leb_strict_str (a b : value) :
  (exists s, a = VStr s) -> (exists t, b = VStr t) ->
  py_leb a b = true -> value_eqb a b = false -> value_ltb a b = true.
Proof.
  intros [s ->] [t ->]. unfold py_leb. cbn.
  rewrite negb_true_iff, String.eqb_neq. apply string_ltb_false.
Qed.

Lemma existsb_false_all {A : Type} (p : A -> bool) (l : list A) :
  existsb p l = false -> forall x, In x l -> p x = false.
Proof.
  intros H x Hx. destruct (p x) eqn:Hp; [|reflexivity].
  assert (existsb p l = true) by (apply existsb_exists; eauto). congruence.
Qed.

Lemma py_sorted_strict (l opts : list value) :
  (forall v, In v l -> is_missing v = false) ->
  (forall v, (List.length (List.filter (value_eqb v) l) <= 1)%nat) ->
  py_sorted l = Some opts ->
  Permutation opts l /\
  StronglySorted (fun a b => value_ltb a b = true) opts.
Proof.
  intros Hnm Honce. unfold py_sorted.
  destruct (existsb is_str l && existsb (fun v => negb (is_str v)) l) eqn:Hmix;
    [discriminate|].
  intros [= <-].
  split; [apply sort_by_perm|].
  assert (Honce' : forall v,
            (List.length (List.filter (value_eqb v) (sort_by py_leb l)) <= 1)%nat).
  { intros v. now rewrite (filter_perm_length _ _ _ (sort_by_perm py_leb l)). }
  assert (Hin : forall v, In v (sort_by py_leb l) -> In v l).
  { intros v. apply Permutation_in, sort_by_perm. }
  apply andb_false_iff in Hmix. destruct Hmix as [Hns|Hs].
  - assert (HP : Forall (fun v => exists q, v = VNum q) l).
    { apply List.Forall_forall. intros v Hv.
      pose proof (existsb_false_all _ _ Hns v Hv) as H1.
      pose proof (Hnm v Hv) as H2. destruct v; try discriminate. eauto. }
    rewrite List.Forall_forall in HP.
    apply (sorted_once_strict value_eqb value_eqb_refl py_leb value_ltb);
      [|exact Honce'|].
    + intros a b Ha Hb. apply py_leb_strict_num; auto.
    + apply (sort_by_sorted py_leb (fun v => exists q, v = VNum q));
        [exact py_leb_total_num|exact py_leb_trans_num|now apply List.Forall_forall].
  - assert (HP : Forall (fun v => exists s, v = VStr s) l).
    { apply List.Forall_forall. intros v Hv.
      pose proof (existsb_false_all _ _ Hs v Hv) as H1. cbn in H1.
      destruct v; try discriminate. eauto. }
    rewrite List.Forall_forall in HP.
    apply (sorted_once_strict value_eqb value_eqb_refl py_leb value_ltb);
      [|exact Honce'|].
    + intros a b Ha Hb. apply py_leb_strict_str; auto.
    + apply (sort_by_sorted py_leb (fun v => exists s, v = VStr s));
        [exact py_leb_total_str|exact py_leb_trans_str|now apply List.Forall_forall].
Qed.

Lemma dropna_In (v : value) (l : list value) :
  In v (dropna l) <-> In v l /\ is_missing v = false.
Proof. unfold dropna. rewrite filter_In, negb_true_iff. reflexivity. Qed.

Lemma filter_options_spec (work : DataFrame) (name : string) (i : nat)
  (opts : list value) :
  at_col work name i ->
  filter_options name work = Some opts ->
  options_of (map (cell i) (rows work)) opts /\
  (opts = [] <-> forall r, In r (rows work) -> is_missing (cell i r) = true).
Proof.
  intros Hat. unfold filter_options.
  rewrite (at_col_has _ _ _ Hat), (at_col_series _ _ _ Hat).
  cbn [mbind option_bind]. set (s := map (cell i) (rows work)).
  intros Hs.
  destruct (py_sorted_strict (unique (dropna s)) opts) as [Hperm Hsorted];
    [| |exact Hs| ].
  { intros v Hv. apply distinct_In in Hv. now apply dropna_In in Hv. }
  { intros v. apply distinct_once; [exact value_eqb_sym|exact value_eqb_trans]. }
  split; [split; [|split; [|exact Hsorted]]|].
  - intros v Hv. apply (Permutation_in _ Hperm) in Hv.
    apply distinct_In in Hv. apply dropna_In in Hv. tauto.
  - intros c Hc Hnm.
    destruct (distinct_covers value_eqb value_eqb_refl value_eqb_sym
                value_eqb_trans c (dropna s)) as (v & Hv & Hcv).
    { now apply dropna_In. }
    apply isin_spec. exists v. split; [|exact Hcv].
    apply (Permutation_in _ (Permutation_sym Hperm)). exact Hv.
  - split.
    + intros ->. apply Permutation_nil in Hperm.
      apply distinct_nil in Hperm.
      intros r Hr. destruct (is_missing (cell i r)) eqn:Hm; [reflexivity|].
      assert (Hin : In (cell i r) (dropna s)).
      { apply dropna_In. split; [|exact Hm]. unfold s. now apply in_map. }
      rewrite Hperm in Hin. destruct Hin.
    + intros Hall. destruct opts as [|v opts]; [reflexivity|].
      assert (Hv : In v (unique (dropna s))).
      { apply (Permutation_in _ Hperm). now left. }
      apply distinct_In in Hv. apply dropna_In in Hv. destruct Hv as [Hv Hm].
      unfold s in Hv. apply in_map_iff in Hv. destruct Hv as (r & <- & Hr).
      rewrite (Hall r Hr) in Hm. discriminate.
Qed.

Lemma keeps_missing (sel : list value) (i : nat) (r : list value) :
  isin sel VNaN = false ->
  keeps sel i r = true -> is_missing (cell i r) = true -> sel = [].
Proof.
  intros Hsel Hk Hm. unfold keeps in Hk.
  destruct sel as [|x sel]; [reflexivity|]. cbn [nonempty negb orb] in Hk.
  destruct (cell i r); try discriminate. congruence.
Qed.

(** C10 does not hold as the specification words it: when no row has a
    region the default region selection is empty, the region predicate
    is not applied, and the row with the missing region stays in the
    filtered set. *)
Lemma default_selection_keeps_missing_region :
  filter_options "order_region" no_region_work = Some [] /\
  filter_options "shipping_mode" no_region_work = Some [VStr "First Class"] /\
  (exists f r,
      filter_stage no_region_work [] [VStr "First Class"] = Some f /\
      In r (rows f) /\ is_missing (cell 0 r) = true).
Proof.
  split; [reflexivity|]. split; [reflexivity|].
  exists no_region_work, [VNaN; VStr "First Class"; VNum (-1)].
  split; [reflexivity|]. split; [now left|reflexivity].
Qed.

Lemma keeps_options (work : DataFrame) (k : nat) (opts : list value)
  (r : list value) :
  options_of (map (cell k) (rows work)) opts ->
  (opts = [] <-> forall r', In r' (rows work) -> is_missing (cell k r') = true) ->
  In r (rows work) ->
  keeps opts k r = stays work k r.
Proof.
  intros (Hn & Hc & _) He Hr. unfold keeps, stays.
  destruct (is_missing (cell k r)) eqn:Hm; cbn [negb orb].
  - assert (Hin : isin opts (cell k r) = false).
    { destruct (isin opts (cell k r)) eqn:Hin; [|reflexivity].
      apply isin_spec in Hin. destruct Hin as (x & Hx & Heq).
      rewrite (value_eqb_missing _ _ Heq) in Hm.
      destruct (Hn x Hx) as [Hx' _]. congruence. }
    rewrite Hin, orb_false_r.
    destruct (forallb _ (rows work)) eqn:Hall.
    + rewrite forallb_forall in Hall. apply He in Hall. now subst opts.
    + destruct opts as [|x opts]; [|reflexivity].
      rewrite (proj2 (forallb_forall _ _)) in Hall; [discriminate|].
      now apply He.
  - rewrite (Hc (cell k r)); [apply orb_true_r|now apply in_map|exact Hm].
Qed.

(** C10, amended: the options of each filter are the sorted distinct
    non-missing values of its column, and they are empty exactly when
    every row misses the value.  Under the default selection the
    filtered set holds exactly the rows of the working set that, for
    each of the two columns, have a value or belong to a working set in
    which no row has one: a row with a missing region (shipping mode)
    is excluded as soon as some row has a region (shipping mode), and
    when every row misses the region the region predicate is not
    applied, so that the rows the shipping-mode filter lets through are
    all retained (and likewise with the two columns exchanged).  For
    selections without a missing member, a row that misses the value is
    retained only when that selection is empty. *)
Theorem filter_options_and_missing_rows
  (work : DataFrame) (i j : nat) (regs ships : list value) :
  at_col work "order_region" i ->
  at_col work "shipping_mode" j ->
  filter_options "order_region" work = Some regs ->
  filter_options "shipping_mode" work = Some ships ->
  options_of (map (cell i) (rows work)) regs /\
  options_of (map (cell j) (rows work)) ships /\
  (regs = [] <-> forall r, In r (rows work) -> is_missing (cell i r) = true) /\
  (ships = [] <-> forall r, In r (rows work) -> is_missing (cell j r) = true) /\
  (exists f,
     filter_stage work regs ships = Some f /\
     columns f = columns work /\
     rows f = List.filter (fun r => stays work i r && stays work j r) (rows work) /\
     (forall r, In r (rows f) ->
        ((exists r', In r' (rows work) /\ is_missing (cell i r') = false) ->
         is_missing (cell i r) = false) /\
        ((exists r', In r' (rows work) /\ is_missing (cell j r') = false) ->
         is_missing (cell j r) = false)) /\
     ((forall r', In r' (rows work) -> is_missing (cell i r') = true) ->
      filter_stage work regs ships = restrict "shipping_mode" ships (copy work) /\
      forall r, In r (rows work) -> stays work j r = true -> In r (rows f)) /\
     ((forall r', In r' (rows work) -> is_missing (cell j r') = true) ->
      filter_stage work regs ships = restrict "order_region" regs (copy work) /\
      forall r, In r (rows work) -> stays work i r = true -> In r (rows f))) /\
  (forall R S f r,
      isin R VNaN = false -> isin S VNaN = false ->
      filter_stage work R S = Some f -> In r (rows f) ->
      (is_missing (cell i r) = true -> R = []) /\
      (is_missing (cell j r) = true -> S = [])).
Proof.
  intros Hi Hj Hregs Hships.
  destruct (filter_options_spec _ _ _ _ Hi Hregs) as [Ho1 He1].
  destruct (filter_options_spec _ _ _ _ Hj Hships) as [Ho2 He2].
  assert (Hret : forall R S f r,
      isin R VNaN = false -> isin S VNaN = false ->
      filter_stage work R S = Some f -> In r (rows f) ->
      (is_missing (cell i r) = true -> R = []) /\
      (is_missing (cell j r) = true -> S = [])).
  { intros R S f r HR HS Hf Hr.
    rewrite (filter_stage_spec work R S i j Hi Hj) in Hf.
    injection Hf as <-. cbn [rows] in Hr.
    apply filter_In in Hr. destruct Hr as [_ Hk].
    apply andb_true_iff in Hk. destruct Hk as [Hk1 Hk2].
    split; intros Hm; eapply keeps_missing; eauto. }
  assert (Hrows : List.filter (fun r => keeps regs i r && keeps ships j r)
                              (rows work)
                  = List.filter (fun r => stays work i r && stays work j r)
                                (rows work)).
  { apply filter_ext_in. intros r Hr.
    now rewrite (keeps_options work i regs r Ho1 He1 Hr),
                (keeps_options work j ships r Ho2 He2 Hr). }
  assert (Hall : forall k, (forall r', In r' (rows work) ->
                                       is_missing (cell k r') = true) ->
                 forall r, In r (rows work) -> stays work k r = true).
  { intros k Hk r _. unfold stays.
    rewrite (proj2 (forallb_forall _ _)); [apply orb_true_r|exact Hk]. }
  assert (Hsome : forall k r, stays work k r = true ->
                  (exists r', In r' (rows work) /\ is_missing (cell k r') = false) ->
                  is_missing (cell k r) = false).
  { intros k r Hs (r' & Hr' & Hm'). unfold stays in Hs.
    destruct (is_missing (cell k r)); [|reflexivity]. cbn in Hs.
    rewrite forallb_forall in Hs. rewrite (Hs r' Hr') in Hm'. discriminate. }
  split; [exact Ho1|]. split; [exact Ho2|].
  split; [exact He1|]. split; [exact He2|].
  split; [|exact Hret].
  rewrite (filter_stage_spec work regs ships i j Hi Hj), Hrows.
  eexists. split; [reflexivity|]. cbn [columns rows].
  split; [reflexivity|]. split; [reflexivity|].
  split; [|split].
  - intros r Hr. apply filter_In in Hr. destruct Hr as [_ Hs].
    apply andb_true_iff in Hs. destruct Hs as [Hs1 Hs2].
    split; [now apply Hsome|now apply Hsome].
  - intros Hmiss. split.
    + rewrite (restrict_spec _ _ _ j) by exact Hj. cbn [columns rows copy].
      do 2 f_equal. apply filter_ext_in. intros r Hr.
      rewrite (Hall i Hmiss r Hr). cbn [andb]. symmetry.
      now apply keeps_options.
    + intros r Hr Hs. apply filter_In. split; [exact Hr|].
      now rewrite (Hall i Hmiss r Hr), Hs.
  - intros Hmiss. split.
    + rewrite (restrict_spec _ _ _ i) by exact Hi. cbn [columns rows copy].
      do 2 f_equal. apply filter_ext_in. intros r Hr.
      rewrite (Hall j Hmiss r Hr), andb_true_r. symmetry.
      now apply keeps_options.
    + intros r Hr Hs. apply filter_In. split; [exact Hr|].
      now rewrite (Hall j Hmiss r Hr), Hs.
Qed.

(** ** Item assignment *)

Lemma length_set_cell (i : nat) (v : value) (r : list value) :
  List.length (set_cell i v r) = List.length r.
Proof.
  revert i. induction r as [|x t IH]; intros [|i]; cbn; auto.
Qed.

Lemma cell_set_cell (i k : nat) (v : value) (r : list value) :
  cell k (set_cell i v r) =
  if Nat.eqb i k && (k <? List.length r)%nat then v else cell k r.
Proof.
  unfold cell. revert i k. induction r as [|x t IH]; intros i k.
  - cbn. rewrite andb_false_r. now destruct i.
  - destruct i as [|i], k as [|k]; cbn [set_cell nth]; try reflexivity.
    rewrite IH. reflexivity.
Qed.

Lemma length_fold_set (ps : list nat) (v : value) (r : list value) :
  List.length (fold_right (fun i acc => set_cell i v acc) r ps) = List.length r.
Proof.
  induction ps as [|i ps IH]; [reflexivity|].
  cbn. now rewrite length_set_cell.
Qed.

Lemma cell_fold_set (ps : list nat) (k : nat) (v : value) (r : list value) :
  cell k (fold_right (fun i acc => set_cell i v acc) r ps) =
  if existsb (Nat.eqb k) ps && (k <? List.length r)%nat then v else cell k r.
Proof.
  induction ps as [|i ps IH]; [reflexivity|].
  cbn [fold_right existsb]. rewrite cell_set_cell, length_fold_set, IH.
  rewrite (Nat.eqb_sym k i).
  destruct (Nat.eqb i k), (existsb (Nat.eqb k) ps), (k <? List.length r)%nat;
    reflexivity.
Qed.

Lemma zip_with_map_r {A B C : Type} (g : A -> B -> C) (h : A -> B) (l : list A) :
  zip_with g l (map h l) = map (fun r => g r (h r)) l.
Proof.
  induction l as [|x t IH]; [reflexivity|]. cbn. now rewrite IH.
Qed.

Lemma zip_with_maps {A B C D : Type} (g : B -> C -> D) (f : A -> B) (h : A -> C)
  (l : list A) :
  zip_with g (map f l) (map h l) = map (fun r => g (f r) (h r)) l.
Proof.
  induction l as [|x t IH]; [reflexivity|]. cbn. now rewrite IH.
Qed.

Lemma assign_map (df : DataFrame) (name : string) (h : list value -> value) :
  assign df name (map h (rows df)) =
  match positions name (columns df) 0 with
  | [] => mkFrame (columns df ++ [name]) (map (fun r => r ++ [h r]) (rows df))
  | ps => mkFrame (columns df)
            (map (fun r => fold_right (fun i acc => set_cell i (h r) acc) r ps)
                 (rows df))
  end.
Proof.
  unfold assign. destruct (positions name (columns df) 0);
    now rewrite zip_with_map_r.
Qed.

Lemma positions_app (n name : string) (cols : list string) (k : nat) :
  positions n (cols ++ [name]) k =
  positions n cols k ++
  (if String.eqb n name then [(k + List.length cols)%nat] else []).
Proof.
  revert k. induction cols as [|c t IH]; intros k; cbn.
  - rewrite Nat.add_0_r. now destruct (String.eqb n name).
  - rewrite IH. replace (S k + List.length t)%nat with (k + S (List.length t))%nat by lia.
    now destruct (String.eqb n c).
Qed.

Lemma positions_lt (name : string) (cols : list string) (i : nat) :
  In i (positions name cols 0) ->
  (i < List.length cols)%nat /\ nth_error cols i = Some name.
Proof.
  intros H. apply positions_bounds in H. destruct H as [_ H].
  rewrite Nat.sub_0_r in H. split; [|exact H].
  apply nth_error_Some. congruence.
Qed.

Lemma positions_disjoint (n name : string) (cols : list string) (i : nat) :
  n <> name -> In i (positions n cols 0) ->
  existsb (Nat.eqb i) (positions name cols 0) = false.
Proof.
  intros Hne Hi. destruct (existsb _ _) eqn:He; [|reflexivity].
  apply existsb_exists in He. destruct He as (j & Hj & Hij).
  apply Nat.eqb_eq in Hij. subst j.
  apply positions_lt in Hi, Hj. destruct Hi as [_ Hi], Hj as [_ Hj]. congruence.
Qed.

Lemma wf_assign (df : DataFrame) (name : string) (h : list value -> value) :
  wf_frame df -> wf_frame (assign df name (map h (rows df))).
Proof.
  unfold wf_frame. intros Hwf. rewrite assign_map.
  rewrite List.Forall_forall in Hwf.
  destruct (positions name (columns df) 0); cbn [columns rows];
    apply List.Forall_forall; intros r Hr; apply in_map_iff in Hr;
    destruct Hr as (r0 & <- & Hr0).
  - rewrite !length_app. cbn. now rewrite (Hwf r0 Hr0).
  - rewrite (length_fold_set (n :: l)). now apply Hwf.
Qed.

Lemma series_assign_other (df : DataFrame) (name n : string)
  (h : list value -> value) :
  wf_frame df -> n <> name ->
  series (assign df name (map h (rows df))) n = series df n.
Proof.
  intros Hwf Hne. rewrite assign_map. unfold series.
  unfold wf_frame in Hwf. rewrite List.Forall_forall in Hwf.
  destruct (positions name (columns df) 0) as [|p ps] eqn:Hps; cbn [columns rows].
  - rewrite positions_app.
    destruct (String.eqb_spec n name) as [->|_]; [contradiction|].
    rewrite app_nil_r.
    destruct (positions n (columns df) 0) as [|i [|j t]] eqn:Hn; try reflexivity.
    f_equal. rewrite map_map. apply map_ext_in. intros r Hr.
    assert (Hi : (i < List.length r)%nat).
    { rewrite (Hwf r Hr). apply (positions_lt n). rewrite Hn. now left. }
    unfold cell. now rewrite app_nth1.
  - destruct (positions n (columns df) 0) as [|i [|j t]] eqn:Hn; try reflexivity.
    f_equal. rewrite map_map. apply map_ext_in. intros r Hr.
    rewrite cell_fold_set, <- Hps.
    rewrite (positions_disjoint n name); [reflexivity|exact Hne|].
    rewrite Hn. now left.
Qed.

Lemma series_assign_same (df : DataFrame) (name : string)
  (h : list value -> value) (s : list value) :
  wf_frame df ->
  series (assign df name (map h (rows df))) name = Some s ->
  s = map h (rows df).
Proof.
  intros Hwf. rewrite assign_map. unfold series.
  unfold wf_frame in Hwf. rewrite List.Forall_forall in Hwf.
  destruct (positions name (columns df) 0) as [|p ps] eqn:Hps; cbn [columns rows].
  - rewrite positions_app, Hps, String.eqb_refl. cbn.
    intros [= <-]. rewrite map_map. apply map_ext_in. intros r Hr.
    unfold cell. rewrite <- (Hwf r Hr), app_nth2 by lia.
    now rewrite Nat.sub_diag.
  - rewrite Hps. destruct ps; [|discriminate].
    intros [= <-]. rewrite map_map. apply map_ext_in. intros r Hr.
    cbn [fold_right]. rewrite cell_set_cell, Nat.eqb_refl. cbn [andb].
    assert (Hp : (p < List.length r)%nat).
    { rewrite (Hwf r Hr). apply (positions_lt name). rewrite Hps. now left. }
    apply Nat.ltb_lt in Hp. now rewrite Hp.
Qed.

Lemma series_assign_at (df : DataFrame) (name : string) (i : nat)
  (h : list value -> value) :
  wf_frame df -> at_col df name i ->
  columns (assign df name (map h (rows df))) = columns df /\
  series (assign df name (map h (rows df))) name = Some (map h (rows df)).
Proof.
  intros Hwf Hat.
  assert (Hcols : columns (assign df name (map h (rows df))) = columns df).
  { rewrite assign_map. unfold at_col in Hat. now rewrite Hat. }
  split; [exact Hcols|].
  destruct (series (assign df name (map h (rows df))) name) as [s|] eqn:Hs.
  - now rewrite (series_assign_same _ _ _ _ Hwf Hs).
  - unfold series in Hs. rewrite Hcols in Hs. unfold at_col in Hat.
    rewrite Hat in Hs. discriminate.
Qed.

Lemma nodup_positions (name : string) (cols : list string) (k : nat) :
  List.NoDup cols ->
  (In name cols -> exists i, positions name cols k = [i]) /\
  (~ In name cols -> positions name cols k = []).
Proof.
  intros Hnd. revert k. induction Hnd as [|c t Hc Hnd IH]; intros k.
  - split; [intros []|reflexivity].
  - cbn [positions]. destruct (String.eqb_spec name c) as [->|Hne].
    + split.
      * intros _. exists k. now rewrite (proj2 (IH (S k)) Hc).
      * intros H. exfalso. apply H. now left.
    + split.
      * intros [Heq|Hin]; [congruence|]. now apply IH.
      * intros H. apply IH. intros Hin. apply H. now right.
Qed.

(** ** Coercion *)

Lemma map_column (w : DataFrame) (name : string) (f : value -> value) :
  wf_frame w -> List.NoDup (columns w) -> In name (columns w) ->
  exists s, series w name = Some s /\
    columns (assign w name (map f s)) = columns w /\
    wf_frame (assign w name (map f s)) /\
    series (assign w name (map f s)) name = Some (map f s) /\
    (forall n, n <> name -> series (assign w name (map f s)) n = series w n).
Proof.
  intros Hwf Hnd Hin.
  destruct (proj1 (nodup_positions name (columns w) 0 Hnd) Hin) as [i Hi].
  exists (map (cell i) (rows w)).
  split; [now apply at_col_series|].
  rewrite map_map.
  destruct (series_assign_at w name i (fun r => f (cell i r)) Hwf Hi) as [Hc Hs].
  split; [exact Hc|]. split; [now apply wf_assign|]. split; [exact Hs|].
  intros n Hn. now apply series_assign_other.
Qed.

Lemma series_absent (w : DataFrame) (name : string) :
  ~ In name (columns w) -> series w name = None.
Proof.
  intros H. unfold series.
  destruct (positions name (columns w) 0) as [|i t] eqn:Hp; [reflexivity|].
  exfalso. apply H. apply (nth_error_In _ i).
  apply (positions_lt name). rewrite Hp. now left.
Qed.

Lemma coerce_measure_spec (parse : string -> option Q) (w : DataFrame) (m : string) :
  wf_frame w -> List.NoDup (columns w) ->
  exists w', coerce_measure parse w m = Some w' /\
    columns w' = columns w /\ wf_frame w' /\
    (forall s, series w m = Some s ->
               series w' m = Some (map (fun v => fillna0 (to_numeric parse v)) s)) /\
    (forall n, n <> m -> series w' n = series w n).
Proof.
  intros Hwf Hnd. unfold coerce_measure.
  destruct (has_col m w) eqn:Hm.
  - apply has_col_In in Hm.
    destruct (map_column w m (fun v => fillna0 (to_numeric parse v)) Hwf Hnd Hm)
      as (s & Hs & Hc & Hwf' & Hsame & Hother).
    rewrite Hs. cbn [mbind option_bind]. eexists. split; [reflexivity|].
    split; [exact Hc|]. split; [exact Hwf'|]. split; [|exact Hother].
    intros s' Hs'. injection Hs' as <-. exact Hsame.
  - exists w. split; [reflexivity|]. split; [reflexivity|]. split; [exact Hwf|].
    split; [|reflexivity].
    intros s Hs. rewrite series_absent in Hs; [discriminate|].
    intros Hin. apply has_col_In in Hin. congruence.
Qed.

Lemma coerce_spec (parse : string -> option Q) (work : DataFrame) :
  wf_frame work -> List.NoDup (columns work) -> In "label" (columns work) ->
  exists w lab, coerce parse work = Some w /\
    series work "label" = Some lab /\
    columns w = columns work /\ wf_frame w /\
    series w "label" = Some (map (to_numeric parse) lab) /\
    (forall m col, In m measures -> series work m = Some col ->
       series w m = Some (map (fun v => fillna0 (to_numeric parse v)) col)).
Proof.
  intros Hwf Hnd Hin.
  destruct (map_column work "label" (to_numeric parse) Hwf Hnd Hin)
    as (lab & Hlab & Hc0 & Hwf0 & Hs0 & Ho0).
  set (w0 := assign work "label" (map (to_numeric parse) lab)) in *.
  assert (Hnd0 : List.NoDup (columns w0)) by now rewrite Hc0.
  destruct (coerce_measure_spec parse w0 "sales" Hwf0 Hnd0)
    as (w1 & E1 & Hc1 & Hwf1 & Hs1 & Ho1).
  assert (Hnd1 : List.NoDup (columns w1)) by now rewrite Hc1.
  destruct (coerce_measure_spec parse w1 "profit_per_order" Hwf1 Hnd1)
    as (w2 & E2 & Hc2 & Hwf2 & Hs2 & Ho2).
  assert (Hnd2 : List.NoDup (columns w2)) by now rewrite Hc2.
  destruct (coerce_measure_spec parse w2 "quantity" Hwf2 Hnd2)
    as (w3 & E3 & Hc3 & Hwf3 & Hs3 & Ho3).
  exists w3, lab.
  split.
  { unfold coerce, coerce_label, measures. rewrite Hlab.
    cbn [mbind option_bind fold_left]. fold w0.
    rewrite E1. cbn [mbind option_bind]. rewrite E2. cbn [mbind option_bind].
    exact E3. }
  split; [exact Hlab|].
  split; [congruence|]. split; [exact Hwf3|].
  split.
  { rewrite Ho3, Ho2, Ho1 by discriminate. exact Hs0. }
  intros m col Hm Hcol. cbn in Hm.
  destruct Hm as [<-|[<-|[<-|[]]]].
  - rewrite Ho3, Ho2 by discriminate. apply Hs1.
    rewrite Ho0 by discriminate. exact Hcol.
  - rewrite Ho3 by discriminate. apply Hs2.
    rewrite Ho1, Ho0 by discriminate. exact Hcol.
  - apply Hs3. rewrite Ho2, Ho1, Ho0 by discriminate. exact Hcol.
Qed.

Lemma sum_mask_map {A : Type} (p : A -> bool) (l : list A) :
  sum_mask (map p l) = List.length (List.filter p l).
Proof.
  unfold sum_mask. induction l as [|x t IH]; [reflexivity|].
  cbn. destruct (p x); cbn; now rewrite IH.
Qed.

Lemma label_count_spec (k : Q) (w : DataFrame) (s : list value) :
  series w "label" = Some s ->
  label_count k w = Some (List.length (List.filter (eq_num k) s)).
Proof.
  intros Hs. unfold label_count.
  destruct (series_at_col _ _ _ Hs) as (i & Hat & _).
  rewrite (at_col_has _ _ _ Hat), Hs. cbn [mbind option_bind].
  f_equal. apply sum_mask_map.
Qed.

Lemma filter_map_length {A B : Type} (p : B -> bool) (f : A -> B) (l : list A) :
  List.length (List.filter p (map f l)) =
  List.length (List.filter (fun x => p (f x)) l).
Proof.
  induction l as [|x t IH]; [reflexivity|].
  cbn. destruct (p (f x)); cbn; now rewrite IH.
Qed.

(** C5: coercion turns a label that does not read as a number into a
    missing cell, which no count on an exact label value includes, and
    turns an unreadable sales, profit or quantity cell into 0; on the
    labels -1, -1, 0, 1, "bad", missing the delayed count is 2, the
    on-time count 1 and the early count 1. *)
Theorem coercion_and_label_counts (parse : string -> option Q) (work : DataFrame) :
  wf_frame work -> List.NoDup (columns work) -> In "label" (columns work) ->
  exists w lab,
    coerce parse work = Some w /\
    series work "label" = Some lab /\
    series w "label" = Some (map (to_numeric parse) lab) /\
    (forall m col, In m measures -> series work m = Some col ->
       series w m = Some (map (fun v => fillna0 (to_numeric parse v)) col)) /\
    (forall v, unparseable parse v ->
       to_numeric parse v = VNaN /\
       fillna0 (to_numeric parse v) = VNum 0 /\
       forall k, eq_num k (to_numeric parse v) = false) /\
    (forall k, label_count k w =
       Some (List.length
               (List.filter (fun v => eq_num k (to_numeric parse v)) lab))) /\
    (parse "bad" = None ->
     lab = [VNum (-1); VNum (-1); VNum 0; VNum 1; VStr "bad"; VNaN] ->
     delayed_count w = Some 2%nat /\
     ontime_count w = Some 1%nat /\
     early_count w = Some 1%nat).
Proof.
  intros Hwf Hnd Hin.
  destruct (coerce_spec parse work Hwf Hnd Hin)
    as (w & lab & Hw & Hlab & _ & _ & Hl & Hm).
  exists w, lab.
  assert (Hcount : forall k, label_count k w =
            Some (List.length
                    (List.filter (fun v => eq_num k (to_numeric parse v)) lab))).
  { intros k. rewrite (label_count_spec k w _ Hl). f_equal.
    apply filter_map_length. }
  split; [exact Hw|]. split; [exact Hlab|]. split; [exact Hl|].
  split; [exact Hm|]. split; [|split; [exact Hcount|]].
  - intros v [->|(s & -> & Hs)]; cbn; rewrite ?Hs; auto.
  - intros Hbad ->. unfold delayed_count, ontime_count, early_count.
    rewrite !Hcount. cbn. rewrite Hbad. cbn. auto.
Qed.

(** ** Groups *)

Lemma combine_maps {A B C : Type} (f : A -> B) (g : A -> C) (l : list A) :
  combine (map f l) (map g l) = map (fun r => (f r, g r)) l.
Proof.
  induction l as [|x t IH]; [reflexivity|]. cbn. now rewrite IH.
Qed.

Lemma filter_map_comm {A B : Type} (p : B -> bool) (f : A -> B) (l : list A) :
  List.filter p (map f l) = map f (List.filter (fun x => p (f x)) l).
Proof.
  induction l as [|x t IH]; [reflexivity|].
  cbn. destruct (p (f x)); cbn; now rewrite IH.
Qed.

Lemma group_of_maps {A K : Type} (eqb : K -> K -> bool) (k : K)
  (f : A -> K) (g : A -> value) (l : list A) :
  group_of eqb k (map f l) (map g l) =
  map g (List.filter (fun r => eqb (f r) k) l).
Proof.
  unfold group_of. rewrite combine_maps, filter_map_comm, map_map.
  reflexivity.
Qed.

Lemma group_of_map_vals {K : Type} (eqb : K -> K -> bool) (k : K)
  (phi : value -> value) (keys : list K) (vals : list value) :
  group_of eqb k keys (map phi vals) = map phi (group_of eqb k keys vals).
Proof.
  unfold group_of. revert vals.
  induction keys as [|x t IH]; intros [|v vs]; try reflexivity.
  cbn. destruct (eqb x k); cbn; now rewrite IH.
Qed.

Lemma group_of_key_cong (k k' : value) (keys vals : list value) :
  value_eqb k' k = true ->
  group_of value_eqb k' keys vals = group_of value_eqb k keys vals.
Proof.
  intros Hk. unfold group_of. f_equal. apply filter_ext. intros kv.
  rewrite (value_eqb_sym (fst kv) k'), (value_eqb_sym (fst kv) k).
  now apply value_eqb_cong.
Qed.

Lemma count_cells_map {A : Type} (g : A -> value) (l : list A) :
  count_cells (map g l) =
  List.length (List.filter (fun r => negb (is_missing (g r))) l).
Proof.
  unfold count_cells, dropna.
  apply (filter_map_length (fun v => negb (is_missing v)) g l).
Qed.

Lemma count_cells_zero (l : list value) :
  count_cells l = O -> forall v, In v l -> is_missing v = true.
Proof.
  unfold count_cells. intros H v Hv.
  destruct (is_missing v) eqn:Hm; [reflexivity|].
  assert (Hin : In v (dropna l)) by now apply dropna_In.
  destruct (dropna l); [destruct Hin|discriminate].
Qed.

Lemma fold_sum_zero (l : list value) (a : Q) :
  (forall v, In v l -> (addend v == 0)%Q) ->
  (fold_left (fun acc v => (acc + addend v)%Q) l a == a)%Q.
Proof.
  revert a. induction l as [|v t IH]; intros a H; [reflexivity|].
  cbn. rewrite IH by (intros w Hw; apply H; now right).
  rewrite (H v) by now left. ring.
Qed.

Lemma sum_cells_zero (l : list value) :
  (forall v, In v l -> (addend v == 0)%Q) -> (sum_cells l == 0)%Q.
Proof. apply fold_sum_zero. Qed.

Lemma lookup_key_some (k : value) (l : list (value * nat)) (c : nat) :
  lookup_key k l = Some c ->
  exists k', In (k', c) l /\ value_eqb k' k = true.
Proof.
  unfold lookup_key. destruct (List.find _ l) as [[k' c']|] eqn:Hf; [|discriminate].
  cbn. intros [= <-]. apply find_some in Hf. now exists k'.
Qed.

Lemma fdiv_zero_zero (a : Q) :
  (a == 0)%Q -> times100 (fdiv a (Qnat 0)) = FNaN.
Proof.
  intros Ha. unfold fdiv. cbn. apply Qeq_bool_iff in Ha. now rewrite Ha.
Qed.

(** ** Delay summaries *)

Lemma group_keys_In (drop : bool) (keys : list value) (k : value) :
  In k (group_keys drop keys) -> In k keys.
Proof.
  unfold group_keys. intros H.
  apply (Permutation_in _ (sort_by_perm key_leb _)) in H.
  apply distinct_In in H. destruct drop; [|exact H].
  now apply dropna_In in H.
Qed.

Lemma group_keys_covers (keys : list value) (c : value) :
  In c keys ->
  exists v, In v (group_keys false keys) /\ value_eqb c v = true.
Proof.
  intros Hc.
  destruct (distinct_covers value_eqb value_eqb_refl value_eqb_sym
              value_eqb_trans c keys Hc) as (v & Hv & Hcv).
  exists v. split; [|exact Hcv].
  unfold group_keys.
  apply (Permutation_in _ (Permutation_sym (sort_by_perm key_leb _))). exact Hv.
Qed.

Lemma group_count_rows (k : value) (keyc labc : list value -> value)
  (rs : list (list value)) :
  count_cells (group_of value_eqb k (map keyc rs) (map labc rs)) =
  List.length
    (List.filter (fun r => value_eqb (keyc r) k && negb (is_missing (labc r))) rs).
Proof.
  now rewrite group_of_maps, count_cells_map, filter_filter_andb.
Qed.

Lemma filter_nil_length {A : Type} (p : A -> bool) (l : list A) :
  (forall x, In x l -> p x = false) -> List.length (List.filter p l) = O.
Proof.
  intros H. destruct (List.filter p l) as [|x t] eqn:Hf; [reflexivity|].
  assert (Hx : In x (List.filter p l)) by (rewrite Hf; now left).
  apply filter_In in Hx. destruct Hx as [Hx Hp]. rewrite (H x Hx) in Hp. discriminate.
Qed.

Lemma eq_num_present (k : Q) (v : value) :
  eq_num k v = true -> is_missing v = false.
Proof. now destruct v. Qed.

Lemma delay_summary_rows (key : string) (code : Q) (f : DataFrame) (i l : nat) :
  at_col f key i -> at_col f "label" l ->
  exists t, delay_summary key code f = Some t /\
    forall row, In row t ->
      exists k,
        In k (group_keys false (map (cell i) (rows f))) /\
        dr_key row = fillna0 k /\
        dr_total_count row =
          List.length
            (List.filter (fun r => value_eqb (cell i r) k
                                   && negb (is_missing (cell l r))) (rows f)) /\
        dr_delay_count row =
          List.length
            (List.filter (fun r => value_eqb (cell i r) k
                                   && eq_num code (cell l r)) (rows f)) /\
        dr_delay_pct row =
          times100 (fdiv (Qnat (dr_delay_count row)) (Qnat (dr_total_count row))).
Proof.
  intros Hi Hl. unfold delay_summary.
  rewrite (at_col_series _ _ _ Hl), (at_col_series _ _ _ Hi).
  cbn [mbind option_bind].
  set (hit := boolean_index f _).
  assert (Hhit : rows hit = List.filter (fun r => eq_num code (cell l r)) (rows f)).
  { unfold hit, boolean_index. cbn [rows]. now rewrite map_map, select_map. }
  assert (Hi' : at_col hit key i) by exact Hi.
  assert (Hl' : at_col hit "label" l) by exact Hl.
  rewrite (at_col_series _ _ _ Hi'), (at_col_series _ _ _ Hl').
  cbn [mbind option_bind]. rewrite Hhit.
  set (hr := List.filter _ (rows f)).
  eexists. split; [reflexivity|].
  intros row Hrow. unfold sort_delay in Hrow.
  apply (Permutation_in _ (sort_by_perm _ _)) in Hrow.
  apply in_map_iff in Hrow. destruct Hrow as ([[k total] d] & <- & Hm).
  unfold merge_left in Hm. apply in_map_iff in Hm.
  destruct Hm as ([k0 t0] & [= <- <- <-] & Hk).
  unfold groupby_count in Hk. apply in_map_iff in Hk.
  destruct Hk as (k & [= <- <-] & Hk).
  exists k. cbn [summary_row fst snd dr_key dr_total_count dr_delay_count dr_delay_pct].
  split; [exact Hk|]. split; [reflexivity|].
  split; [apply group_count_rows|]. split; [|reflexivity].
  destruct (lookup_key k _) as [c|] eqn:Hlk; cbn [default].
  - apply lookup_key_some in Hlk. destruct Hlk as (k' & Hin & Hkk).
    unfold groupby_count in Hin. apply in_map_iff in Hin.
    destruct Hin as (k1 & [= -> <-] & _).
    rewrite (group_of_key_cong k k' _ _ Hkk), group_count_rows.
    unfold hr. rewrite filter_filter_andb.
    erewrite filter_ext; [reflexivity|].
    intros r. cbn beta. destruct (eq_num code (cell l r)) eqn:He; cbn.
    + rewrite (eq_num_present _ _ He). cbn. now rewrite andb_true_r.
    + now rewrite andb_false_r.
  - symmetry. apply filter_nil_length. intros r Hr.
    destruct (value_eqb (cell i r) k) eqn:Hrk; [|reflexivity].
    destruct (eq_num code (cell l r)) eqn:He; [|reflexivity]. exfalso.
    assert (Hin : In (cell i r) (map (cell i) hr)).
    { apply in_map. apply filter_In. now split. }
    destruct (group_keys_covers _ _ Hin) as (v & Hv & Hcv).
    unfold lookup_key in Hlk.
    destruct (List.find _ _) eqn:Hf in Hlk; [discriminate|].
    pose proof (find_none _ _ Hf (v, count_cells (group_of value_eqb v
                  (map (cell i) hr) (map (cell l) hr)))) as Hnone.
    cbn in Hnone. rewrite value_eqb_sym in Hcv.
    rewrite (value_eqb_trans v (cell i r) k Hcv Hrk) in Hnone.
    assert (true = false); [|discriminate].
    apply Hnone. unfold groupby_count. apply in_map_iff. now exists v.
Qed.

(** ** The routes feature *)

Lemma in_take {A : Type} (n : nat) (l : list A) (x : A) :
  In x (take n l) -> In x l.
Proof.
  revert l. induction n as [|n IH]; intros [|y t]; cbn; try tauto.
  intros [->|H]; [now left|right; now apply IH].
Qed.

Lemma first_missing_some (df : DataFrame) (c : string) :
  first_missing df = Some c ->
  ~ In c (columns df) /\
  exists pre post, req_cols = pre ++ c :: post /\
                   forall p, In p pre -> In p (columns df).
Proof.
  unfold first_missing. generalize req_cols.
  induction l as [|x t IH]; [discriminate|].
  cbn. destruct (has_col x df) eqn:Hx; cbn.
  - intros H. destruct (IH H) as (Hc & pre & post & -> & Hpre).
    split; [exact Hc|]. exists (x :: pre), post. split; [reflexivity|].
    intros p [<-|Hp]; [now apply has_col_In|now apply Hpre].
  - intros [= <-]. split.
    + intros Hin. apply has_col_In in Hin. congruence.
    + exists [], t. split; [reflexivity|intros p []].
Qed.

Lemma first_missing_none (df : DataFrame) :
  first_missing df = None <-> forall c, In c req_cols -> In c (columns df).
Proof.
  unfold first_missing. split.
  - intros H c Hc. pose proof (find_none _ _ H c Hc) as Hn.
    cbn in Hn. apply negb_false_iff in Hn. now apply has_col_In.
  - intros H. destruct (List.find _ req_cols) as [c|] eqn:Hf; [|reflexivity].
    apply find_some in Hf. destruct Hf as [Hc Hn].
    apply negb_true_iff in Hn. apply H, has_col_In in Hc. congruence.
Qed.

(** C6 does not hold as the specification words it: a header that is a
    case variant of
    ["Order city"] is not taken for it, and the routes feature stops
    reporting that column missing. *)
Lemma routes_ignore_spelling_variants :
  Norm.norm "ORDER CITY" = Norm.norm "Order city" /\
  default_store sample_parse respelled_dataset =
    Some (mkStore respelled_dataset None) /\
  In "ORDER CITY" (columns respelled_dataset) /\
  routes_stage sample_repr (mkStore respelled_dataset None) =
    Some (mkStore respelled_dataset None,
          RoutesStopped (MissingRequired "Order city")).
Proof.
  split; [vm_compute; reflexivity|].
  split; [vm_compute; reflexivity|].
  split; [cbn; tauto|vm_compute; reflexivity].
Qed.

(** C6, amended: the routes feature looks for the five literal labels
    ["Order city"], ["Order Country"], ["Customer city"],
    ["Customer Country"] and ["label"] among the columns of the filtered
    set, by exact match; when one is absent it stops on a diagnostic that
    names the first absent one, draws nothing and leaves the filtered set
    as it was; when all five are present it does not stop. *)
Theorem routes_preconditions (repr_num : Q -> string) (st : store) :
  (forall c, first_missing (filtered st) = Some c ->
     routes_stage repr_num st = Some (st, RoutesStopped (MissingRequired c)) /\
     ~ In c (columns (filtered st)) /\
     exists pre post, req_cols = pre ++ c :: post /\
                      forall p, In p pre -> In p (columns (filtered st))) /\
  (first_missing (filtered st) = None <->
   forall c, In c req_cols -> In c (columns (filtered st))) /\
  (first_missing (filtered st) = None ->
   forall st' d, routes_stage repr_num st <> Some (st', RoutesStopped d)).
Proof.
  split; [|split; [apply first_missing_none|]].
  - intros c Hc. split; [unfold routes_stage; now rewrite Hc|].
    now apply first_missing_some.
  - intros Hn st' d. unfold routes_stage. rewrite Hn.
    repeat match goal with
           | |- context [series ?f ?n] => destruct (series f n); cbn
           | |- context [route_grp ?f] => destruct (route_grp f); cbn
           end; discriminate.
Qed.

Lemma joined_map (repr_num : Q -> string) (a b : nat) (rs : list (list value)) :
  joined repr_num (map (cell a) rs) (map (cell b) rs) =
  map (fun r => route_label repr_num (cell a r) (cell b r)) rs.
Proof. unfold joined. apply zip_with_maps. Qed.

(** What a run of the routes feature that reaches the chart has done:
    three item assignments on the filtered frame, then the grouping. *)
Lemma routes_stage_chart (repr_num : Q -> string) (st st' : store)
  (top : list route_row) :
  wf_frame (filtered st) ->
  routes_stage repr_num st = Some (st', RoutesChart top) ->
  exists h1 h2 f2 lab grp,
    f2 = assign (assign (filtered st) "origin" (map h1 (rows (filtered st))))
                "destination"
                (map h2 (rows (assign (filtered st) "origin"
                                      (map h1 (rows (filtered st)))))) /\
    wf_frame f2 /\
    series f2 "label" = Some lab /\
    filtered st' = assign f2 "is_delayed"
                     (map (fun v => of_bool (eq_num (-1) v)) lab) /\
    wf_frame (filtered st') /\
    std_df st' = std_df st /\
    series (filtered st') "label" = Some lab /\
    route_grp (filtered st') = Some grp /\
    top = nlargest10 grp.
Proof.
  intros Hwf. unfold routes_stage.
  destruct (first_missing (filtered st)); [discriminate|].
  destruct (series (filtered st) "Order city") as [oc|] eqn:Hoc; [|discriminate].
  destruct (series (filtered st) "Order Country") as [ok|] eqn:Hok; [|discriminate].
  cbn [mbind option_bind].
  destruct (series_at_col _ _ _ Hoc) as (a & _ & ->).
  destruct (series_at_col _ _ _ Hok) as (b & _ & ->).
  rewrite joined_map.
  set (h1 := fun r => route_label repr_num (cell a r) (cell b r)).
  set (f1 := assign (filtered st) "origin" _).
  assert (Hwf1 : wf_frame f1) by now apply wf_assign.
  destruct (series f1 "Customer city") as [cc|] eqn:Hcc; [|discriminate].
  destruct (series f1 "Customer Country") as [ck|] eqn:Hck; [|discriminate].
  cbn [mbind option_bind].
  destruct (series_at_col _ _ _ Hcc) as (c & _ & ->).
  destruct (series_at_col _ _ _ Hck) as (d & _ & ->).
  rewrite joined_map.
  set (h2 := fun r => route_label repr_num (cell c r) (cell d r)).
  set (f2 := assign f1 "destination" _).
  assert (Hwf2 : wf_frame f2) by now apply wf_assign.
  destruct (series f2 "label") as [lab|] eqn:Hlab; [|discriminate].
  cbn [mbind option_bind].
  destruct (route_grp _) as [grp|] eqn:Hgrp; [|discriminate].
  cbn [mbind option_bind]. intros [= <- <-].
  exists h1, h2, f2, lab, grp. cbn [filtered std_df].
  destruct (series_at_col _ _ _ Hlab) as (l & _ & Hl).
  assert (Hwf3 : wf_frame (assign f2 "is_delayed"
                             (map (fun v => of_bool (eq_num (-1) v)) lab))).
  { rewrite Hl, map_map. now apply wf_assign. }
  repeat (split; [first [reflexivity|assumption]|]).
  split; [|split; [exact Hgrp|reflexivity]].
  rewrite Hl at 1. rewrite map_map.
  rewrite series_assign_other; [exact Hlab|exact Hwf2|discriminate].
Qed.

(** ** The zero-total guard *)

Lemma guarded_summary_shown (key : string) (code : Q) (f : DataFrame)
  (t : list delay_row) :
  guarded_summary key code f = Some (Shown t) ->
  delay_summary key code f = Some t /\
  exists i l, at_col f key i /\ at_col f "label" l.
Proof.
  unfold guarded_summary.
  destruct (has_col key f && has_col "label" f); [|discriminate].
  destruct (delay_summary key code f) as [t'|] eqn:Ht; [|discriminate].
  cbn. intros [= <-]. split; [reflexivity|].
  unfold delay_summary in Ht.
  destruct (series f "label") as [lab|] eqn:Hl; [|discriminate].
  destruct (series f key) as [k|] eqn:Hk; [|discriminate].
  destruct (series_at_col _ _ _ Hl) as (l & Hl' & _).
  destruct (series_at_col _ _ _ Hk) as (i & Hi' & _).
  now exists i, l.
Qed.

Lemma summary_zero_total (key : string) (code : Q) (f : DataFrame)
  (t : list delay_row) (row : delay_row) :
  guarded_summary key code f = Some (Shown t) ->
  In row t -> dr_total_count row = O ->
  dr_delay_count row = O /\ dr_delay_pct row = FNaN.
Proof.
  intros Hg Hrow Hz.
  destruct (guarded_summary_shown _ _ _ _ Hg) as (Ht & i & l & Hi & Hl).
  destruct (delay_summary_rows key code f i l Hi Hl) as (t' & Ht' & Hrows).
  rewrite Ht in Ht'. injection Ht' as <-.
  destruct (Hrows row Hrow) as (k & _ & _ & Htot & Hdel & Hpct).
  assert (Hd : dr_delay_count row = O).
  { rewrite Hdel. apply filter_nil_length. intros r Hr.
    destruct (value_eqb (cell i r) k) eqn:Hk; [|reflexivity].
    destruct (eq_num code (cell l r)) eqn:He; [|reflexivity]. exfalso.
    rewrite Hz in Htot. symmetry in Htot.
    assert (Hin : In r (List.filter
              (fun r => value_eqb (cell i r) k && negb (is_missing (cell l r)))
              (rows f))).
    { apply filter_In. split; [exact Hr|].
      now rewrite Hk, (eq_num_present _ _ He). }
    destruct (List.filter _ (rows f)); [destruct Hin|discriminate]. }
  split; [exact Hd|]. rewrite Hpct, Hd, Hz. reflexivity.
Qed.

Lemma summary_no_raise (key : string) (code : Q) (f : DataFrame) (i l : nat) :
  at_col f key i -> at_col f "label" l ->
  exists t, guarded_summary key code f = Some (Shown t).
Proof.
  intros Hi Hl. unfold guarded_summary.
  rewrite (at_col_has _ _ _ Hi), (at_col_has _ _ _ Hl).
  destruct (delay_summary_rows key code f i l Hi Hl) as (t & -> & _).
  now exists t.
Qed.

Lemma is_missing_nan (v : value) : is_missing v = true <-> v = VNaN.
Proof. destruct v; cbn; split; congruence. Qed.

Lemma route_zero_total (f2 : DataFrame) (lab : list value)
  (grp : list route_row) (row : route_row) :
  wf_frame f2 ->
  series f2 "label" = Some lab ->
  series (assign f2 "is_delayed" (map (fun v => of_bool (eq_num (-1) v)) lab))
         "label" = Some lab ->
  route_grp (assign f2 "is_delayed" (map (fun v => of_bool (eq_num (-1) v)) lab))
    = Some grp ->
  In row grp -> rt_total_orders row = O -> rt_delay_pct row = FNaN.
Proof.
  intros Hwf Hlab Hlab3. unfold route_grp.
  destruct (series _ "origin") as [o|]; [|discriminate].
  destruct (series _ "destination") as [d|]; [|discriminate].
  rewrite Hlab3.
  destruct (series _ "is_delayed") as [del|] eqn:Hdel; [|discriminate].
  cbn [mbind option_bind]. intros [= <-] Hrow Hz.
  destruct (series_at_col _ _ _ Hlab) as (l & _ & Hl).
  assert (Hd : del = map (fun v => of_bool (eq_num (-1) v)) lab).
  { rewrite Hl, map_map in Hdel.
    rewrite (series_assign_same _ _ _ _ Hwf Hdel). now rewrite Hl, map_map. }
  subst del. apply in_map_iff in Hrow. destruct Hrow as (k & <- & _).
  cbn [rt_total_orders rt_delay_pct] in *. rewrite Hz.
  apply fdiv_zero_zero. rewrite group_of_map_vals.
  apply sum_cells_zero. intros v Hv. apply in_map_iff in Hv.
  destruct Hv as (u & <- & Hu).
  rewrite (proj1 (is_missing_nan u) (count_cells_zero _ Hz u Hu)). reflexivity.
Qed.

(** C7: in the delay summaries by shipping mode and by region and in
    the table of routes, a group whose total count is 0 has the
    percentage NaN, pandas' null: the division raises nothing, and
    the summaries are produced whenever their two columns are there. *)
Theorem zero_total_guard (repr_num : Q -> string) (st : store) :
  (forall t row,
      delay_summary_ship (filtered st) = Some (Shown t) ->
      In row t -> dr_total_count row = O -> dr_delay_pct row = FNaN) /\
  (forall t row,
      delay_summary_region (filtered st) = Some (Shown t) ->
      In row t -> dr_total_count row = O -> dr_delay_pct row = FNaN) /\
  (forall st' top row,
      wf_frame (filtered st) ->
      routes_stage repr_num st = Some (st', RoutesChart top) ->
      In row top -> rt_total_orders row = O -> rt_delay_pct row = FNaN) /\
  (forall i l,
      at_col (filtered st) "shipping_mode" i -> at_col (filtered st) "label" l ->
      exists t, delay_summary_ship (filtered st) = Some (Shown t)) /\
  (forall i l,
      at_col (filtered st) "order_region" i -> at_col (filtered st) "label" l ->
      exists t, delay_summary_region (filtered st) = Some (Shown t)).
Proof.
  split; [|split; [|split; [|split]]].
  - intros t row Ht Hrow Hz.
    exact (proj2 (summary_zero_total _ _ _ _ _ Ht Hrow Hz)).
  - intros t row Ht Hrow Hz.
    exact (proj2 (summary_zero_total _ _ _ _ _ Ht Hrow Hz)).
  - intros st' top row Hwf Hrun Hrow Hz.
    destruct (routes_stage_chart _ _ _ _ Hwf Hrun)
      as (h1 & h2 & f2 & lab & grp & _ & Hwf2 & Hlab & Hf3 & _ & _ & Hlab3 & Hgrp & ->).
    rewrite Hf3 in Hlab3, Hgrp.
    apply (route_zero_total f2 lab grp row Hwf2 Hlab Hlab3 Hgrp); [|exact Hz].
    unfold nlargest10 in Hrow. apply in_take in Hrow.
    now apply (Permutation_in _ (sort_by_perm _ _)) in Hrow.
  - intros i l. apply summary_no_raise.
  - intros i l. apply summary_no_raise.
Qed.

(** ** The delayed count by shipping mode *)

(** The summary by shipping mode counts, for each mode, the rows whose
    label equals 1; the summary by region counts those whose label
    equals -1. *)
Lemma delay_summary_codes (f : DataFrame) (key : string) (code : Q)
  (t : list delay_row) (row : delay_row) :
  guarded_summary key code f = Some (Shown t) -> In row t ->
  exists i l k,
    at_col f key i /\ at_col f "label" l /\ dr_key row = fillna0 k /\
    dr_delay_count row =
      List.length
        (List.filter (fun r => value_eqb (cell i r) k && eq_num code (cell l r))
                     (rows f)).
Proof.
  intros Hg Hrow.
  destruct (guarded_summary_shown _ _ _ _ Hg) as (Ht & i & l & Hi & Hl).
  destruct (delay_summary_rows key code f i l Hi Hl) as (t' & Ht' & Hrows).
  rewrite Ht in Ht'. injection Ht' as <-.
  destruct (Hrows row Hrow) as (k & _ & Hk & _ & Hdel & _).
  now exists i, l, k.
Qed.

(** C3: on one delayed order (label -1) shipped Standard Class, the
    summary by shipping mode reports 0 delayed orders out of 1, and a
    percentage of 0, where the specification counts 1 delayed order; the same
    summary with the code -1, which the summary by region uses, reports
    1 out of 1. *)
Theorem delay_by_ship_counts_early_orders :
  delay_summary_ship one_delayed_order =
    Some (Shown [mkDelay (VStr "Standard Class") 0 1 (FNum 0)]) /\
  guarded_summary "shipping_mode" (-1) one_delayed_order =
    Some (Shown [mkDelay (VStr "Standard Class") 1 1 (FNum 100)]).
Proof. split; vm_compute; reflexivity. Qed.

(** ** The store: which stage changes [filtered] *)

Lemma std_stage_keeps_filtered (st st' : store) (out : list (value * Q)) :
  std_stage st = Some (st', out) -> filtered st' = filtered st.
Proof.
  unfold std_stage.
  repeat match goal with
         | |- context [series ?f ?n] => destruct (series f n); cbn; [|discriminate]
         end.
  now intros [= <- _].
Qed.

(** C9: on the sample data set the Standard Class break-up leaves the
    object bound to [filtered] as the filter stage made it (it works on
    its copy [std_df]), while the routes feature adds the columns
    [origin], [destination] and [is_delayed] to that same object. *)
Theorem routes_view_adds_columns_to_filtered :
  default_store sample_parse routes_dataset = Some (mkStore routes_dataset None) /\
  exists st1 out1 st2 out2,
    std_stage (mkStore routes_dataset None) = Some (st1, out1) /\
    filtered st1 = routes_dataset /\
    routes_stage sample_repr st1 = Some (st2, RoutesChart out2) /\
    columns (filtered st2) =
      columns routes_dataset ++ ["origin"; "destination"; "is_delayed"] /\
    filtered st2 <> routes_dataset.
Proof.
  split; [vm_compute; reflexivity|].
  do 4 eexists.
  split; [vm_compute; reflexivity|].
  split; [reflexivity|].
  split; [vm_compute; reflexivity|].
  split; [reflexivity|].
  cbn. discriminate.
Qed.

(** ** Sums in the arithmetic of a dtype *)









Section IntSum.
Variable wrap : Z -> Z.
Hypothesis wrap_mod : forall z, (wrap z mod 2 ^ 64 = z mod 2 ^ 64)%Z.
Hypothesis wrap_cong :
  forall a b, (a mod 2 ^ 64 = b mod 2 ^ 64)%Z -> wrap a = wrap b.
Hypothesis wrap_zero : wrap 0%Z = 0%Z.





End IntSum.








(** ** Most profitable product per region *)




















(** ** The statements at sample inputs *)

Example norm_order_region :
  Norm.norm "  Order  Region " = "order_region".
Proof. vm_compute. reflexivity. Qed.

Example norm_punctuation :
  Norm.norm "Shipping-Mode (days)" = "shipping_mode_days_".
Proof. vm_compute. reflexivity. Qed.

Example tie_keeps_first_in_grouped_order :
  prof_prod Float64 tied_products = Some tied_sums /\
  prof_prod Int64 tied_products = Some tied_sums /\
  best_of tied_sums =
    Some [ mkProfit (VStr "East") (VStr "C") (FNum 5);
           mkProfit (VStr "West") (VStr "A") (FNum 100) ].
Proof. repeat split; vm_compute; reflexivity. Qed.

(** As floats the profits of A add up to 0, the 1 being lost to
    rounding, and B is kept; as integers they add up to 1, A and B tie
    and A, the first in grouped order, is kept. *)
Example rounding_decides_the_product :
  best_prod Float64 absorbed_profit =
    Some (Shown [mkProfit (VStr "West") (VStr "B") (FNum 1)]) /\
  best_prod Int64 absorbed_profit =
    Some (Shown [mkProfit (VStr "West") (VStr "A") (FNum 1)]).
Proof. split; vm_compute; reflexivity. Qed.

(** As 64-bit integers the profits of A wrap around to [- 2 ^ 63] and B
    is kept; as floats they add up to [2 ^ 63] and A is kept. *)
Example wrap_around_decides_the_product :
  best_prod Int64 overflowing_profit =
    Some (Shown [mkProfit (VStr "West") (VStr "B") (FNum 1)]) /\
  best_prod Float64 overflowing_profit =
    Some (Shown [mkProfit (VStr "West") (VStr "A")
                   (FNum (inject_Z (2 ^ 63)))]).
Proof. split; vm_compute; reflexivity. Qed.

Lemma filter_engine_semantics_witness :
  at_col six_labels "order_region" 2 /\
  at_col six_labels "shipping_mode" 3 /\
  filter_stage six_labels [VStr "East"] [] =
    Some (mkFrame (columns six_labels)
            (List.filter (fun r => keeps [VStr "East"] 2 r && keeps [] 3 r)
                         (rows six_labels))).
Proof.
  split; [reflexivity|]. split; [reflexivity|].
  apply (filter_engine_semantics six_labels [VStr "East"] [] 2 3);
    reflexivity.
Defined.

Lemma filter_options_and_missing_rows_witness :
  at_col no_region_work "order_region" 0 /\
  at_col no_region_work "shipping_mode" 1 /\
  filter_options "order_region" no_region_work = Some [] /\
  filter_options "shipping_mode" no_region_work = Some [VStr "First Class"] /\
  exists f,
    filter_stage no_region_work [] [VStr "First Class"] = Some f /\
    In [VNaN; VStr "First Class"; VNum (-1)] (rows f).
Proof.
  split; [reflexivity|]. split; [reflexivity|].
  split; [vm_compute; reflexivity|]. split; [vm_compute; reflexivity|].
  destruct (filter_options_and_missing_rows no_region_work 0 1
              [] [VStr "First Class"])
    as (_ & _ & _ & _ & (f & Hf & _ & _ & _ & Hkeep & _) & _);
    try (vm_compute; reflexivity).
  exists f. split; [exact Hf|].
  apply Hkeep; [|now left|reflexivity].
  intros r' [<-|[]]. reflexivity.
Defined.

Lemma coercion_and_label_counts_witness :
  wf_frame six_labels /\
  List.NoDup (columns six_labels) /\
  In "label" (columns six_labels) /\
  exists w,
    coerce sample_parse six_labels = Some w /\
    delayed_count w = Some 2%nat /\
    ontime_count w = Some 1%nat /\
    early_count w = Some 1%nat.
Proof.
  assert (Hwf : wf_frame six_labels) by (repeat constructor).
  assert (Hnd : List.NoDup (columns six_labels)).
  { repeat constructor; cbn; intuition discriminate. }
  assert (Hin : In "label" (columns six_labels)) by (now left).
  split; [exact Hwf|]. split; [exact Hnd|]. split; [exact Hin|].
  destruct (coercion_and_label_counts sample_parse six_labels Hwf Hnd Hin)
    as (w & lab & Hw & Hlab & _ & _ & _ & _ & Hex).
  exists w. split; [exact Hw|]. apply Hex; [reflexivity|].
  cbn in Hlab. now injection Hlab as <-.
Defined.



Lemma mandatory_field_abort_witness :
  unresolved_critical (found no_label_dataset) = ["label"] /\
  prepare sample_parse no_label_dataset =
    Stopped (CriticalMissing ["label"] (columns no_label_dataset)).
Proof.
  assert (Hu : unresolved_critical (found no_label_dataset) = ["label"])
    by (vm_compute; reflexivity).
  split; [exact Hu|].
  destruct (mandatory_field_abort sample_parse no_label_dataset) as (Hstop & _).
  rewrite Hu in Hstop. apply Hstop. discriminate.
Defined.

Lemma routes_preconditions_witness :
  first_missing respelled_dataset = Some "Order city" /\
  routes_stage sample_repr (mkStore respelled_dataset None) =
    Some (mkStore respelled_dataset None,
          RoutesStopped (MissingRequired "Order city")).
Proof.
  assert (Hm : first_missing respelled_dataset = Some "Order city")
    by (vm_compute; reflexivity).
  split; [exact Hm|].
  destruct (routes_preconditions sample_repr (mkStore respelled_dataset None))
    as (Hstop & _).
  exact (proj1 (Hstop "Order city" Hm)).
Defined.

Lemma zero_total_guard_witness :
  delay_summary_region unlabelled_east =
    Some (Shown [mkDelay (VStr "West") 1 1 (FNum 100);
                 mkDelay (VStr "East") 0 0 FNaN]) /\
  dr_delay_pct (mkDelay (VStr "East") 0 0 FNaN) = FNaN.
Proof.
  assert (Hs : delay_summary_region unlabelled_east =
                 Some (Shown [mkDelay (VStr "West") 1 1 (FNum 100);
                              mkDelay (VStr "East") 0 0 FNaN]))
    by (vm_compute; reflexivity).
  split; [exact Hs|].
  destruct (zero_total_guard sample_repr (mkStore unlabelled_east None))
    as (_ & Hregion & _).
  apply (Hregion _ _ Hs); [right; now left|reflexivity].
Defined.

(** * Further properties of the script *)

(** ** Normalised labels *)

Section NormalisedLabels.
Import Chars Norm.

Lemma re_sub_fixed (s : list N) :
  re_sub false (re_sub false s) = re_sub false s /\
  re_sub true (re_sub true s) = re_sub true s.
Proof.
  induction s as [|c t [IHf IHt]]; [split; reflexivity|].
  cbn [re_sub]. destruct (is_alnum c) eqn:Hc.
  - cbn [re_sub]. rewrite Hc, IHf. split; reflexivity.
  - split; [|exact IHt].
    cbn [re_sub]. change (is_alnum (code underscore)) with false. cbn iota.
    now rewrite IHt.
Qed.

(** The code points of a normalised label. *)
Lemma re_sub_points (b : bool) (s : list N) :
  Forall (fun n => is_alnum n = true \/ n = code underscore) (re_sub b s).
Proof.
  revert b. induction s as [|c t IH]; intros b; [constructor|].
  cbn [re_sub]. destruct (is_alnum c) eqn:Hc.
  - constructor; [now left|apply IH].
  - destruct b; [apply IH|]. constructor; [now right|apply IH].
Qed.

Lemma label_point_small (n : N) :
  is_alnum n = true \/ n = code underscore -> (n < 128)%N.
Proof.
  intros [H| ->]; [|reflexivity]. apply is_alnum_range in H. lia.
Qed.

Lemma re_sub_small (b : bool) (s : list N) :
  Forall (fun n => (n < 128)%N) (re_sub b s).
Proof.
  eapply List.Forall_impl; [|apply re_sub_points].
  intros n. apply label_point_small.
Qed.

Lemma re_sub_true_head (s : list N) (c : N) (t : list N) :
  re_sub true s = c :: t -> is_alnum c = true.
Proof.
  induction s as [|x u IH]; [discriminate|].
  cbn [re_sub]. destruct (is_alnum x) eqn:Hx; [|exact IH].
  now intros [= <- _].
Qed.

Lemma alnum_not_underscore (n : N) :
  is_alnum n = true -> ascii_of_N n <> underscore.
Proof.
  intros H E. apply is_alnum_range in H.
  assert (Hn : n = code underscore).
  { rewrite <- E. symmetry. apply N_ascii_embedding. lia. }
  subst n. cbn in H. lia.
Qed.

Lemma re_sub_chars (b : bool) (s : list N) :
  Forall (fun c => norm_char c = true) (map ascii_of_N (re_sub b s)).
Proof.
  apply Forall_map. eapply List.Forall_impl; [|apply re_sub_points].
  intros n [H| ->]; [|reflexivity]. unfold norm_char, code.
  rewrite N_ascii_embedding; [now rewrite H|].
  apply is_alnum_range in H. lia.
Qed.

Lemma re_sub_single (b : bool) (s : list N) :
  single_underscores (map ascii_of_N (re_sub b s)).
Proof.
  revert b. induction s as [|c t IH]; intros b; [exact I|].
  cbn [re_sub]. destruct (is_alnum c) eqn:Hc.
  - cbn [map single_underscores]. split; [|apply IH].
    destruct (map ascii_of_N (re_sub false t)); [exact I|].
    intros [Hu _]. now apply (alnum_not_underscore c).
  - destruct b; [apply IH|].
    cbn [map single_underscores]. split; [|apply IH].
    destruct (re_sub true t) as [|d u] eqn:Hr; [exact I|].
    cbn [map]. intros [_ Hu].
    apply (alnum_not_underscore d); [|exact Hu].
    now apply (re_sub_true_head t d u).
Qed.

Lemma label_point_plain (n : N) :
  is_alnum n = true \/ n = code underscore ->
  lower_point n = [n] /\ is_space n = false.
Proof.
  intros H.
  assert (Hr : (48 <= n <= 122)%N).
  { destruct H as [H| ->]; [apply is_alnum_range in H; lia|cbn; lia]. }
  assert (Hc : capital n = false).
  { apply between_false. destruct H as [H| ->];
      [apply is_alnum_range in H; lia|cbn; lia]. }
  split; [apply lower_point_plain; [exact Hc|lia|lia]|apply is_space_out; lia].
Qed.

Lemma lower_fixed (s : list N) :
  Forall (fun n => is_alnum n = true \/ n = code underscore) s -> lower s = s.
Proof.
  induction 1 as [|c t Hc _ IH]; [reflexivity|].
  unfold lower in *. cbn [flat_map]. rewrite IH.
  now rewrite (proj1 (label_point_plain c Hc)).
Qed.

Lemma lstrip_fixed (s : list N) :
  Forall (fun n => is_alnum n = true \/ n = code underscore) s -> lstrip s = s.
Proof.
  destruct 1 as [|c t Hc _]; [reflexivity|].
  cbn. now rewrite (proj2 (label_point_plain c Hc)).
Qed.

Lemma strip_fixed (s : list N) :
  Forall (fun n => is_alnum n = true \/ n = code underscore) s -> strip s = s.
Proof.
  intros H. unfold strip, rstrip. rewrite (lstrip_fixed s H).
  rewrite lstrip_fixed; [apply rev_involutive|now apply Forall_rev].
Qed.

Lemma norm_points_fixed (s : list N) :
  norm_points (norm_points s) = norm_points s.
Proof.
  unfold norm_points at 1.
  pose proof (re_sub_points false (lower (strip s))) as H.
  fold (norm_points s) in H.
  rewrite (strip_fixed _ H), (lower_fixed _ H).
  unfold norm_points. apply re_sub_fixed.
Qed.

Lemma norm_chars (s : string) :
  list_ascii_of_string (norm s) =
  map ascii_of_N (norm_points (Utf8.points s)).
Proof.
  unfold norm, Utf8.str. rewrite list_ascii_of_string_of_list_ascii.
  apply encode_ascii, re_sub_small.
Qed.

End NormalisedLabels.

(** X1: normalising a normalised label changes nothing; a normalised
    label holds only characters of [a-z0-9] and underscores, and never
    two underscores in a row. *)
Theorem norm_idempotent (s : string) :
  Norm.norm (Norm.norm s) = Norm.norm s /\
  Forall (fun c => norm_char c = true) (list_ascii_of_string (Norm.norm s)) /\
  single_underscores (list_ascii_of_string (Norm.norm s)).
Proof.
  split; [|rewrite norm_chars; split; [apply re_sub_chars|apply re_sub_single]].
  unfold Norm.norm at 1 3. f_equal.
  unfold Norm.norm. rewrite points_str.
  - apply norm_points_fixed.
  - eapply List.Forall_impl; [|apply re_sub_small].
    intros n Hn. cbv beta in Hn. unfold code_point. lia.
Qed.

(** ** Resolved headers *)

Lemma find_col_sound (df : DataFrame) (cands : list string) (h : string) :
  find_col (snd (normalize_cols df)) cands = Some h ->
  In h (columns df) /\ exists c, In c cands /\ Norm.norm h = Norm.norm c.
Proof.
  intros H. apply find_col_some in H.
  destruct H as (pre & c & post & -> & _ & Hc).
  rewrite col_map_last_wins in Hc. apply find_some in Hc.
  destruct Hc as [Hin Heq]. apply String.eqb_eq in Heq.
  split; [now apply in_rev|].
  exists c. split; [|exact Heq]. apply in_or_app. right. now left.
Qed.

Lemma find_col_complete (df : DataFrame) (cands : list string) (h c : string) :
  In h (columns df) -> In c cands -> Norm.norm h = Norm.norm c ->
  exists h', find_col (snd (normalize_cols df)) cands = Some h'.
Proof.
  intros Hh Hc Heq.
  destruct (find_col (snd (normalize_cols df)) cands) as [h'|] eqn:Hf;
    [now exists h'|].
  exfalso. pose proof (proj1 (find_col_none _ _) Hf c Hc) as Hn.
  rewrite col_map_last_wins in Hn.
  pose proof (find_none _ _ Hn h (proj1 (in_rev _ _) Hh)) as Hno.
  cbn in Hno. rewrite Heq, String.eqb_refl in Hno. discriminate.
Qed.

Lemma found_of_resolve (m : gmap string string) (k h : string) :
  found_of (resolve m) k = Some h ->
  exists cl, In (k, cl) candidates /\ find_col m cl = Some h.
Proof.
  unfold resolve, found_of. generalize candidates.
  induction l as [|[k0 cl0] t IH]; [discriminate|].
  cbn [map List.find fst snd].
  destruct (String.eqb_spec k0 k) as [->|Hne].
  - cbn. intros H. exists cl0. split; [now left|exact H].
  - intros H. destruct (IH H) as (cl & Hin & Hf).
    exists cl. split; [now right|exact Hf].
Qed.

Lemma found_of_entry (m : gmap string string) (k : string) (cl : list string) :
  In (k, cl) candidates -> found_of (resolve m) k = find_col m cl.
Proof.
  unfold candidates. cbn [In]. intros H.
  repeat (destruct H as [H|H]; [injection H as <- <-; reflexivity|]).
  destruct H.
Qed.

Lemma alias_keys_apart_true : alias_keys_apart = true.
Proof. vm_compute. reflexivity. Qed.

Lemma alias_keys_In (k c : string) (cl : list string) :
  In (k, cl) candidates -> In c cl -> In (k, Norm.norm c) alias_keys.
Proof.
  intros Hk Hc. unfold alias_keys. apply in_flat_map.
  exists (k, cl). split; [exact Hk|].
  cbn. apply in_map_iff. now exists c.
Qed.

Lemma resolved_fields_agree (df : DataFrame) (k1 k2 h : string) :
  found_of (found df) k1 = Some h -> found_of (found df) k2 = Some h -> k1 = k2.
Proof.
  unfold found. intros H1 H2.
  apply found_of_resolve in H1, H2.
  destruct H1 as (cl1 & Hin1 & Hf1), H2 as (cl2 & Hin2 & Hf2).
  apply find_col_sound in Hf1, Hf2.
  destruct Hf1 as (_ & c1 & Hc1 & He1), Hf2 as (_ & c2 & Hc2 & He2).
  pose proof (alias_keys_In _ _ _ Hin1 Hc1) as Ha1.
  pose proof (alias_keys_In _ _ _ Hin2 Hc2) as Ha2.
  pose proof alias_keys_apart_true as Hap. unfold alias_keys_apart in Hap.
  rewrite forallb_forall in Hap. specialize (Hap _ Ha1).
  rewrite forallb_forall in Hap. specialize (Hap _ Ha2).
  cbn [fst snd] in Hap. rewrite <- He1, <- He2, String.eqb_refl in Hap.
  cbn in Hap. now apply String.eqb_eq in Hap.
Qed.

(** X2: a logical field resolves to what [find_col] finds for its list
    of candidates; the header it resolves to is a literal header of the
    data set that normalises like one of the candidates, and the field
    does resolve whenever some header normalises like a candidate. *)
Theorem resolution_sound_complete (df : DataFrame) (k : string) (cl : list string) :
  In (k, cl) candidates ->
  found_of (found df) k = find_col (snd (normalize_cols df)) cl /\
  (forall h, found_of (found df) k = Some h ->
     In h (columns df) /\
     exists c, In c cl /\ Norm.norm h = Norm.norm c) /\
  ((exists h c, In h (columns df) /\ In c cl /\ Norm.norm h = Norm.norm c) ->
   exists h', found_of (found df) k = Some h').
Proof.
  intros Hin. unfold found at 1 2 3.
  rewrite (found_of_entry _ _ _ Hin).
  split; [reflexivity|]. split.
  - intros h. apply find_col_sound.
  - intros (h & c & Hh & Hc & Heq). now apply (find_col_complete df cl h c).
Qed.

(** X3: no literal header is taken by two logical fields, so the
    renaming never gives two names to one column. *)
Theorem resolved_headers_distinct (df : DataFrame) (k1 k2 h : string) :
  found_of (found df) k1 = Some h ->
  found_of (found df) k2 = Some h ->
  k1 = k2.
Proof. apply resolved_fields_agree. Qed.

(** ** The working set *)

Lemma rename_fold_In (fnd : list (string * option string))
  (m : gmap string string) (h k : string) :
  fold_left (fun (m : gmap string string) kv =>
               match snd kv with
               | Some actual => <[actual := fst kv]> m
               | None => m
               end) fnd m !! h = Some k ->
  In (k, Some h) fnd \/
  (m !! h = Some k /\ forall k1, ~ In (k1, Some h) fnd).
Proof.
  revert m. induction fnd as [|[k0 o] t IH]; intros m.
  - intros H. right. split; [exact H|intros k1 []].
  - cbn [fold_left fst snd]. intros H. apply IH in H.
    destruct H as [H|[H Hno]]; [left; now right|].
    destruct o as [a|].
    + destruct (String.eqb_spec a h) as [->|Hne].
      * rewrite lookup_insert_eq in H. injection H as ->. left. now left.
      * rewrite lookup_insert_ne in H by exact Hne. right.
        split; [exact H|]. intros k1 [[= _ Ha]|Hin]; [congruence|].
        now apply (Hno k1).
    + right. split; [exact H|]. intros k1 [[=]|Hin]. now apply (Hno k1).
Qed.

Lemma rename_fold_keeps (fnd : list (string * option string))
  (m : gmap string string) (h : string) :
  is_Some (m !! h) ->
  is_Some (fold_left (fun (m : gmap string string) kv =>
                        match snd kv with
                        | Some actual => <[actual := fst kv]> m
                        | None => m
                        end) fnd m !! h).
Proof.
  revert m. induction fnd as [|[k0 o] t IH]; intros m Hm; [exact Hm|].
  cbn [fold_left fst snd]. apply IH. destruct o as [a|]; [|exact Hm].
  destruct (String.eqb_spec a h) as [->|Hne].
  - rewrite lookup_insert_eq. eauto.
  - now rewrite lookup_insert_ne.
Qed.

Lemma rename_fold_some (fnd : list (string * option string))
  (m : gmap string string) (h k : string) :
  In (k, Some h) fnd ->
  is_Some (fold_left (fun (m : gmap string string) kv =>
                        match snd kv with
                        | Some actual => <[actual := fst kv]> m
                        | None => m
                        end) fnd m !! h).
Proof.
  revert m. induction fnd as [|[k0 o] t IH]; intros m; [intros []|].
  cbn [fold_left fst snd]. intros [[= -> ->]|Hin]; [|now apply IH].
  apply rename_fold_keeps. rewrite lookup_insert_eq. eauto.
Qed.

Lemma rename_fold_last (fnd : list (string * option string)) (h k : string) :
  (forall k1 k2, In (k1, Some h) fnd -> In (k2, Some h) fnd -> k1 = k2) ->
  In (k, Some h) fnd ->
  rename_map fnd !! h = Some k.
Proof.
  intros Hinj Hin. unfold rename_map.
  destruct (rename_fold_some fnd ∅ h k Hin) as [k' Hk'].
  rewrite Hk'. f_equal.
  destruct (rename_fold_In _ _ _ _ Hk') as [H|[_ Hno]].
  - now apply Hinj.
  - now destruct (Hno k).
Qed.

Lemma found_of_In (fnd : list (string * option string)) (k h : string) :
  found_of fnd k = Some h -> In (k, Some h) fnd.
Proof.
  unfold found_of. destruct (List.find _ fnd) as [[k' o]|] eqn:Hf; [|discriminate].
  apply find_some in Hf. destruct Hf as [Hin Hk]. cbn in Hk.
  apply String.eqb_eq in Hk. subst k'. cbn. now intros ->.
Qed.

Lemma In_found_of (df : DataFrame) (k h : string) :
  In (k, Some h) (found df) -> found_of (found df) k = Some h.
Proof.
  unfold found, resolve. intros H. apply in_map_iff in H.
  destruct H as ([k0 cl] & [= -> Hf] & Hin).
  fold (resolve (snd (normalize_cols df))).
  now rewrite (found_of_entry _ _ _ Hin).
Qed.

Lemma assign_series_frame (w : DataFrame) (name : string) (s : list value)
  (f : value -> value) :
  series w name = Some s ->
  columns (assign w name (map f s)) = columns w /\
  List.length (rows (assign w name (map f s))) = List.length (rows w).
Proof.
  intros Hs. destruct (series_at_col _ _ _ Hs) as (i & Hat & ->).
  rewrite map_map, assign_map. unfold at_col in Hat. rewrite Hat. cbn.
  now rewrite length_map.
Qed.

Lemma coerce_measure_frame (parse : string -> option Q) (w w' : DataFrame)
  (m : string) :
  coerce_measure parse w m = Some w' ->
  columns w' = columns w /\ List.length (rows w') = List.length (rows w).
Proof.
  unfold coerce_measure. destruct (has_col m w); [|now intros [= <-]].
  destruct (series w m) as [s|] eqn:Hs; [|discriminate].
  cbn. intros [= <-]. now apply assign_series_frame.
Qed.

Lemma coerce_frame (parse : string -> option Q) (work w : DataFrame) :
  coerce parse work = Some w ->
  columns w = columns work /\ List.length (rows w) = List.length (rows work).
Proof.
  unfold coerce, measures, coerce_label. cbn [fold_left].
  destruct (series work "label") as [s|] eqn:Hs; [|discriminate].
  cbn [mbind option_bind].
  destruct (assign_series_frame work "label" s (to_numeric parse) Hs) as [Hc0 Hr0].
  destruct (coerce_measure parse _ "sales") as [w1|] eqn:E1; [|discriminate].
  cbn [mbind option_bind].
  destruct (coerce_measure parse w1 "profit_per_order") as [w2|] eqn:E2;
    [|discriminate].
  cbn [mbind option_bind]. intros E3.
  apply coerce_measure_frame in E1, E2, E3.
  destruct E1 as [Hc1 Hr1], E2 as [Hc2 Hr2], E3 as [Hc3 Hr3].
  split; congruence.
Qed.

(** X4: when the script goes on, the working set has the rows of the
    raw frame, one for one; each column keeps its literal name unless a
    logical field resolved to it, in which case it carries the name of
    that field; the three mandatory names are among its columns. *)
Theorem prepared_working_set (parse : string -> option Q) (df w : DataFrame) :
  prepare parse df = Working w ->
  columns w = map (fun c => default c (rename_map (found df) !! c)) (columns df) /\
  List.length (rows w) = List.length (rows df) /\
  (forall k h, found_of (found df) k = Some h ->
     In h (columns df) /\ rename_map (found df) !! h = Some k /\
     In k (columns w)) /\
  (forall c, In c (columns df) ->
     (forall k, found_of (found df) k <> Some c) -> In c (columns w)) /\
  In "label" (columns w) /\
  In "order_region" (columns w) /\
  In "shipping_mode" (columns w).
Proof.
  unfold prepare. cbn [normalize_cols]. fold (normalize_cols df).
  change (resolve _) with (found df).
  destruct (nonempty (missing_critical (found df))) eqn:Hmiss; [discriminate|].
  destruct (coerce parse _) as [w'|] eqn:Hw; [|discriminate].
  intros [= ->]. apply coerce_frame in Hw. cbn [rename copy columns rows] in Hw.
  destruct Hw as [Hcols Hrows].
  assert (Hres : forall k h, found_of (found df) k = Some h ->
            In h (columns df) /\ rename_map (found df) !! h = Some k /\
            In k (columns w)).
  { intros k h Hk.
    assert (Hh : In h (columns df)).
    { unfold found in Hk. apply found_of_resolve in Hk.
      destruct Hk as (cl & _ & Hf). now apply find_col_sound in Hf. }
    assert (Hr : rename_map (found df) !! h = Some k).
    { apply rename_fold_last; [|now apply found_of_In].
      intros k1 k2 H1 H2. apply In_found_of in H1, H2.
      exact (resolved_fields_agree df k1 k2 h H1 H2). }
    split; [exact Hh|]. split; [exact Hr|].
    rewrite Hcols. apply in_map_iff. exists h. now rewrite Hr. }
  assert (Hcrit : forall k, In k ["order_region"; "shipping_mode"; "label"] ->
            In k (columns w)).
  { intros k Hk.
    destruct (found_of (found df) k) as [h|] eqn:Hf; [now apply (Hres k h)|].
    exfalso. unfold found in Hmiss. rewrite missing_critical_resolve in Hmiss.
    assert (Hin : In k (unresolved_critical (resolve (snd (normalize_cols df))))).
    { unfold unresolved_critical. apply filter_In. split; [exact Hk|].
      fold (found df). now rewrite Hf. }
    destruct (unresolved_critical _); [destruct Hin|discriminate]. }
  split; [exact Hcols|]. split; [exact Hrows|]. split; [exact Hres|].
  split.
  - intros c Hc Hno. rewrite Hcols. apply in_map_iff. exists c.
    split; [|exact Hc].
    destruct (rename_map (found df) !! c) as [k|] eqn:Hr; [|reflexivity].
    exfalso. unfold rename_map in Hr. apply rename_fold_In in Hr.
    destruct Hr as [Hr|[Hr _]]; [|now rewrite lookup_empty in Hr].
    apply In_found_of in Hr. now apply (Hno k).
  - split; [|split]; apply Hcrit; cbn; tauto.
Qed.

(** ** Coerced cells and the four counts *)

Lemma series_same_columns (w w' : DataFrame) (name : string) (s : list value) :
  columns w' = columns w -> series w name = Some s ->
  exists s', series w' name = Some s'.
Proof.
  intros Hc Hs. unfold series in *. rewrite Hc.
  destruct (positions name (columns w) 0) as [|i [|j t]]; try discriminate.
  eauto.
Qed.

(** X5: after coercion no label cell is a string (each is a number or
    missing), and every cell of the sales, profit and quantity columns
    is a number. *)
Theorem coerced_cells (parse : string -> option Q) (work w : DataFrame) :
  wf_frame work -> List.NoDup (columns work) -> In "label" (columns work) ->
  coerce parse work = Some w ->
  (forall lab v, series w "label" = Some lab -> In v lab -> is_str v = false) /\
  (forall m col v, In m measures -> series w m = Some col -> In v col ->
     exists q, v = VNum q).
Proof.
  intros Hwf Hnd Hin Hw.
  destruct (coerce_spec parse work Hwf Hnd Hin)
    as (w0 & lab0 & Hw0 & _ & Hc & _ & Hl & Hm).
  rewrite Hw in Hw0. injection Hw0 as <-.
  split.
  - intros lab v Hlab Hv. rewrite Hl in Hlab. injection Hlab as <-.
    apply in_map_iff in Hv. destruct Hv as (u & <- & _).
    destruct u as [|q|s]; cbn; [reflexivity|reflexivity|].
    now destruct (parse s).
  - intros m col v Hmm Hcol Hv.
    destruct (series_same_columns w work m col (eq_sym Hc) Hcol) as (col0 & Hcol0).
    rewrite (Hm m col0 Hmm Hcol0) in Hcol. injection Hcol as <-.
    apply in_map_iff in Hv. destruct Hv as (u & <- & _).
    destruct u as [|q|s]; cbn; eauto.
    destruct (parse s); cbn; eauto.
Qed.

Lemma label_codes_apart (v : value) :
  ((if eq_num (-1) v then 1 else 0) + (if eq_num 0 v then 1 else 0)
   + (if eq_num 1 v then 1 else 0) <= 1)%nat.
Proof.
  destruct v as [|q|s]; cbn; try lia.
  destruct (Qeq_bool q (-1)) eqn:H1, (Qeq_bool q 0) eqn:H2,
    (Qeq_bool q 1) eqn:H3; cbn; try lia; exfalso;
    rewrite ?Qeq_bool_iff in *.
  - rewrite H1 in H2. discriminate H2.
  - rewrite H1 in H2. discriminate H2.
  - rewrite H1 in H3. discriminate H3.
  - rewrite H2 in H3. discriminate H3.
Qed.

Lemma label_codes_sum (lab : list value) :
  let c k := List.length (List.filter (eq_num k) lab) in
  (c (-1)%Q + c 0%Q + c 1%Q <= List.length lab)%nat /\
  ((c (-1)%Q + c 0%Q + c 1%Q)%nat = List.length lab <->
   forall v, In v lab -> eq_num (-1) v || eq_num 0 v || eq_num 1 v = true).
Proof.
  induction lab as [|v t [IHle IHeq]]; cbn zeta in *.
  - split; [cbn; lia|]. split; [intros _ v []|reflexivity].
  - pose proof (label_codes_apart v) as Hv. cbn [List.filter List.length].
    destruct (eq_num (-1) v) eqn:H1, (eq_num 0 v) eqn:H2, (eq_num 1 v) eqn:H3;
      cbn [List.length orb] in *; try lia; (split; [lia|]).
    1-3: rewrite <- Nat.add_succ_l || idtac.
    all: split.
    all: try (intros Hs u [<-|Hu]; [now rewrite ?H1, ?H2, ?H3|apply IHeq; [lia|exact Hu]]).
    all: try (intros Hall; assert (Ht : forall u, In u t ->
                eq_num (-1) u || eq_num 0 u || eq_num 1 u = true)
                by (intros u Hu; apply Hall; now right);
              apply IHeq in Ht; lia).
    + intros Hs. lia.
    + intros Hall. specialize (Hall v (or_introl eq_refl)).
      rewrite H1, H2, H3 in Hall. discriminate.
Qed.

(** X6: the delayed, on-time and early counts count disjoint rows, so
    together they never exceed the number of orders, and they add up to
    it exactly when every label is -1, 0 or 1. *)
Theorem counts_bounded (w : DataFrame) (lab : list value) :
  series w "label" = Some lab ->
  exists d o e,
    delayed_count w = Some d /\ ontime_count w = Some o /\
    early_count w = Some e /\
    (d + o + e <= total_orders w)%nat /\
    ((d + o + e)%nat = total_orders w <->
     forall v, In v lab -> eq_num (-1) v || eq_num 0 v || eq_num 1 v = true).
Proof.
  intros Hs. unfold delayed_count, ontime_count, early_count.
  rewrite !(label_count_spec _ w lab Hs).
  do 3 eexists. split; [reflexivity|]. split; [reflexivity|].
  split; [reflexivity|].
  assert (Hlen : total_orders w = List.length lab).
  { destruct (series_at_col _ _ _ Hs) as (i & _ & ->).
    unfold total_orders. now rewrite length_map. }
  rewrite Hlen. exact (label_codes_sum lab).
Qed.

(** ** More on the filter stage *)

Lemma filter_sublist {A : Type} (p : A -> bool) (l : list A) :
  sublist (List.filter p l) l.
Proof.
  induction l as [|x t IH]; [constructor|].
  cbn. destruct (p x); now constructor.
Qed.

Lemma filter_twice {A : Type} (p : A -> bool) (l : list A) :
  List.filter p (List.filter p l) = List.filter p l.
Proof.
  apply filter_all. intros x Hx. now apply filter_In in Hx.
Qed.

(** X7: the filter stage only removes rows: the filtered set has the
    columns of the working set and its rows are rows of the working set
    in their order; filtering the filtered set again with the same
    selections changes nothing. *)
Theorem filter_removes_rows_only (work : DataFrame) (R S : list value) (i j : nat) :
  at_col work "order_region" i ->
  at_col work "shipping_mode" j ->
  exists f,
    filter_stage work R S = Some f /\
    columns f = columns work /\
    sublist (rows f) (rows work) /\
    filter_stage f R S = Some f.
Proof.
  intros Hi Hj. eexists. split; [exact (filter_stage_spec work R S i j Hi Hj)|].
  split; [reflexivity|]. split; [apply filter_sublist|].
  rewrite (filter_stage_spec _ R S i j); [|exact Hi|exact Hj].
  cbn [columns rows]. now rewrite filter_twice.
Qed.

(** X8: with every option selected, the filter stage drops exactly the
    rows that miss the region while some row has one, and those that
    miss the shipping mode while some row has one; a working set with
    no missing region and no missing shipping mode passes unchanged. *)
Theorem default_selection_rows
  (work : DataFrame) (i j : nat) (regs ships : list value) :
  at_col work "order_region" i ->
  at_col work "shipping_mode" j ->
  filter_options "order_region" work = Some regs ->
  filter_options "shipping_mode" work = Some ships ->
  filter_stage work regs ships =
    Some (mkFrame (columns work)
            (List.filter
               (fun r => (negb (nonempty regs) || negb (is_missing (cell i r)))
                         && (negb (nonempty ships) || negb (is_missing (cell j r))))
               (rows work))) /\
  ((forall r, In r (rows work) ->
      is_missing (cell i r) = false /\ is_missing (cell j r) = false) ->
   filter_stage work regs ships = Some work).
Proof.
  intros Hi Hj Hregs Hships.
  destruct (filter_options_spec _ _ _ _ Hi Hregs) as [(Hn1 & Hc1 & _) _].
  destruct (filter_options_spec _ _ _ _ Hj Hships) as [(Hn2 & Hc2 & _) _].
  assert (Hk : forall opts k r,
            (forall v, In v opts -> is_missing v = false /\
                                    In v (map (cell k) (rows work))) ->
            (forall c, In c (map (cell k) (rows work)) ->
                       is_missing c = false -> isin opts c = true) ->
            In r (rows work) ->
            keeps opts k r = negb (nonempty opts) || negb (is_missing (cell k r))).
  { intros opts k r Hn Hc Hr. unfold keeps. f_equal.
    destruct (is_missing (cell k r)) eqn:Hm; cbn.
    - destruct (isin opts (cell k r)) eqn:Hin; [|reflexivity].
      apply isin_spec in Hin. destruct Hin as (x & Hx & Heq).
      rewrite (value_eqb_missing _ _ Heq) in Hm.
      destruct (Hn x Hx) as [Hx' _]. congruence.
    - apply Hc; [now apply in_map|exact Hm]. }
  assert (Hspec : filter_stage work regs ships =
            Some (mkFrame (columns work)
              (List.filter
                 (fun r => (negb (nonempty regs) || negb (is_missing (cell i r)))
                           && (negb (nonempty ships) || negb (is_missing (cell j r))))
                 (rows work)))).
  { rewrite (filter_stage_spec _ _ _ i j) by assumption. do 2 f_equal.
    apply filter_ext_in. intros r Hr.
    now rewrite (Hk regs i r Hn1 Hc1 Hr), (Hk ships j r Hn2 Hc2 Hr). }
  split; [exact Hspec|].
  intros Hall. rewrite Hspec, filter_all; [now rewrite frame_eta|].
  intros r Hr. destruct (Hall r Hr) as [-> ->]. cbn. now rewrite !orb_true_r.
Qed.

(** ** More on the delay summaries *)

Lemma delay_summary_table (key : string) (code : Q) (f : DataFrame) (i l : nat) :
  at_col f key i -> at_col f "label" l ->
  delay_summary key code f =
  Some (sort_delay
          (map (fun k =>
                  let d := List.length
                             (List.filter (fun r => value_eqb (cell i r) k
                                                    && eq_num code (cell l r))
                                          (rows f)) in
                  let t := List.length
                             (List.filter (fun r => value_eqb (cell i r) k
                                                    && negb (is_missing (cell l r)))
                                          (rows f)) in
                  mkDelay (fillna0 k) d t (times100 (fdiv (Qnat d) (Qnat t))))
               (group_keys false (map (cell i) (rows f))))).
Proof.
  intros Hi Hl.
  destruct (delay_summary_rows key code f i l Hi Hl) as (t & Ht & _).
  rewrite Ht. unfold delay_summary in Ht.
  rewrite (at_col_series _ _ _ Hl), (at_col_series _ _ _ Hi) in Ht.
  cbn [mbind option_bind] in Ht.
  set (hit := boolean_index f _) in Ht.
  assert (Hhit : rows hit = List.filter (fun r => eq_num code (cell l r)) (rows f)).
  { unfold hit, boolean_index. cbn [rows]. now rewrite map_map, select_map. }
  assert (Hi' : at_col hit key i) by exact Hi.
  assert (Hl' : at_col hit "label" l) by exact Hl.
  rewrite (at_col_series _ _ _ Hi'), (at_col_series _ _ _ Hl') in Ht.
  cbn [mbind option_bind] in Ht. rewrite Hhit in Ht.
  injection Ht as <-. do 2 f_equal.
  unfold merge_left, groupby_count. rewrite !map_map.
  apply map_ext_in. intros k Hk. cbn [fst snd].
  set (hr := List.filter _ (rows f)).
  unfold summary_row. cbn [fst snd].
  assert (Hd : default O (lookup_key k
                 (map (fun k0 => (k0, count_cells (group_of value_eqb k0
                         (map (cell i) hr) (map (cell l) hr))))
                      (group_keys false (map (cell i) hr)))) =
               List.length (List.filter (fun r => value_eqb (cell i r) k
                                                  && eq_num code (cell l r))
                                        (rows f))).
  { destruct (lookup_key k _) as [c|] eqn:Hlk; cbn [default].
    - apply lookup_key_some in Hlk. destruct Hlk as (k' & Hin & Hkk).
      apply in_map_iff in Hin. destruct Hin as (k1 & [= -> <-] & _).
      rewrite (group_of_key_cong k k' _ _ Hkk), group_count_rows.
      unfold hr. rewrite filter_filter_andb.
      erewrite filter_ext; [reflexivity|].
      intros r. cbn beta. destruct (eq_num code (cell l r)) eqn:He; cbn.
      + rewrite (eq_num_present _ _ He). cbn. now rewrite andb_true_r.
      + now rewrite andb_false_r.
    - symmetry. apply filter_nil_length. intros r Hr.
      destruct (value_eqb (cell i r) k) eqn:Hrk; [|reflexivity].
      destruct (eq_num code (cell l r)) eqn:He; [|reflexivity]. exfalso.
      assert (Hin : In (cell i r) (map (cell i) hr)).
      { apply in_map. apply filter_In. now split. }
      destruct (group_keys_covers _ _ Hin) as (v & Hv & Hcv).
      unfold lookup_key in Hlk.
      destruct (List.find _ _) eqn:Hf in Hlk; [discriminate|].
      pose proof (find_none _ _ Hf (v, count_cells (group_of value_eqb v
                    (map (cell i) hr) (map (cell l) hr)))) as Hnone.
      cbn in Hnone. rewrite value_eqb_sym in Hcv.
      rewrite (value_eqb_trans v (cell i r) k Hcv Hrk) in Hnone.
      assert (true = false); [|discriminate].
      apply Hnone. apply in_map_iff. now exists v. }
  rewrite Hd, group_count_rows. reflexivity.
Qed.

Lemma list_sum_perm (l l' : list nat) :
  Permutation l l' -> list_sum l = list_sum l'.
Proof.
  unfold list_sum.
  induction 1 as [|x l l' _ IH|x y l|l l' l'' _ IH1 _ IH2]; cbn; lia.
Qed.

Lemma list_sum_indicator {A : Type} (q : A -> bool) (l : list A) :
  list_sum (map (fun k => if q k then 1%nat else O) l) =
  List.length (List.filter q l).
Proof.
  unfold list_sum. induction l as [|x t IH]; [reflexivity|].
  cbn. destruct (q x); cbn; now rewrite IH.
Qed.

Lemma list_sum_add {A : Type} (a b : A -> nat) (l : list A) :
  list_sum (map (fun k => (a k + b k)%nat) l) =
  (list_sum (map a l) + list_sum (map b l))%nat.
Proof.
  unfold list_sum. induction l as [|x t IH]; [reflexivity|].
  cbn. rewrite IH. lia.
Qed.

Lemma group_keys_once (keys : list value) (c : value) :
  In c keys ->
  List.length (List.filter (value_eqb c) (group_keys false keys)) = 1%nat.
Proof.
  intros Hc. unfold group_keys.
  rewrite (filter_perm_length _ _ _ (sort_by_perm key_leb _)).
  pose proof (distinct_once value_eqb value_eqb_sym value_eqb_trans c keys) as Hle.
  destruct (distinct_covers value_eqb value_eqb_refl value_eqb_sym
              value_eqb_trans c keys Hc) as (v & Hv & Hcv).
  assert (Hin : In v (List.filter (value_eqb c) (unique keys)))
    by (apply filter_In; now split).
  unfold unique in *.
  destruct (List.filter _ (distinct value_eqb keys)) as [|y [|z t]]; cbn in *;
    [destruct Hin|reflexivity|lia].
Qed.

(** Every row that passes [P] is counted under exactly one key. *)
Lemma groups_partition (keyc : list value -> value) (P : list value -> bool)
  (rs all : list (list value)) :
  (forall r, In r rs -> In r all) ->
  list_sum (map (fun k => List.length
                            (List.filter (fun r => value_eqb (keyc r) k && P r) rs))
                (group_keys false (map keyc all))) =
  List.length (List.filter P rs).
Proof.
  induction rs as [|r t IH]; intros Hsub.
  - cbn [List.filter List.length].
    generalize (group_keys false (map keyc all)). unfold list_sum.
    induction l as [|k ks IHk]; [reflexivity|exact IHk].
  - cbn [List.filter].
    rewrite (map_ext
               (fun k => List.length
                  (if value_eqb (keyc r) k && P r
                   then r :: List.filter (fun r0 => value_eqb (keyc r0) k && P r0) t
                   else List.filter (fun r0 => value_eqb (keyc r0) k && P r0) t))
               (fun k => ((if value_eqb (keyc r) k && P r then 1 else 0)
                          + List.length
                              (List.filter (fun r0 => value_eqb (keyc r0) k && P r0) t))%nat)).
    2:{ intros k. now destruct (value_eqb (keyc r) k && P r). }
    rewrite list_sum_add, IH by (intros x Hx; apply Hsub; now right).
    rewrite list_sum_indicator.
    destruct (P r) eqn:HP.
    + erewrite filter_ext; [|intros k; apply andb_true_r].
      rewrite group_keys_once; [reflexivity|].
      apply in_map. apply Hsub. now left.
    + erewrite filter_ext; [|intros k; apply andb_false_r].
      rewrite filter_nil_length by reflexivity. reflexivity.
Qed.

(** X9: in a delay summary the totals of the groups add up to the number
    of rows with a label, and the delayed counts to the number of rows
    whose label is the code counted as delayed (1 by shipping mode, -1 by
    region): every such row is counted in exactly one group, the rows
    without a key forming a group of their own. *)
Theorem summary_counts_add_up (key : string) (code : Q) (f : DataFrame)
  (t : list delay_row) :
  guarded_summary key code f = Some (Shown t) ->
  exists l, at_col f "label" l /\
    list_sum (map dr_total_count t) =
      List.length (List.filter (fun r => negb (is_missing (cell l r))) (rows f)) /\
    list_sum (map dr_delay_count t) =
      List.length (List.filter (fun r => eq_num code (cell l r)) (rows f)).
Proof.
  intros Hg.
  destruct (guarded_summary_shown _ _ _ _ Hg) as (Ht & i & l & Hi & Hl).
  rewrite (delay_summary_table key code f i l Hi Hl) in Ht. injection Ht as <-.
  exists l. split; [exact Hl|].
  unfold sort_delay.
  split.
  - rewrite (list_sum_perm _ _ (Permutation_map _ (sort_by_perm _ _))).
    rewrite map_map. cbn [dr_total_count].
    apply (groups_partition (cell i) (fun r => negb (is_missing (cell l r)))).
    auto.
  - rewrite (list_sum_perm _ _ (Permutation_map _ (sort_by_perm _ _))).
    rewrite map_map. cbn [dr_delay_count].
    apply (groups_partition (cell i) (fun r => eq_num code (cell l r))).
    auto.
Qed.

Lemma Qnat_le (a b : nat) : (a <= b)%nat -> (Qnat a <= Qnat b)%Q.
Proof. intros H. unfold Qnat. rewrite <- Zle_Qle. lia. Qed.

Lemma Qnat_pos (a : nat) : (0 < a)%nat -> (0 < Qnat a)%Q.
Proof.
  intros H. unfold Qnat. change 0%Q with (inject_Z 0). rewrite <- Zlt_Qlt. lia.
Qed.

(** A quotient of a part by a non-empty whole, as a percentage. *)
Lemma pct_bounds (d t : Q) :
  (0 <= d)%Q -> (d <= t)%Q -> (0 < t)%Q ->
  exists q, times100 (fdiv d t) = FNum q /\ (0 <= q)%Q /\ (q <= 100)%Q.
Proof.
  intros Hd Hdt Ht. unfold fdiv.
  destruct (Qeq_bool t 0) eqn:Hz.
  - apply Qeq_bool_iff in Hz. rewrite Hz in Ht. now apply Qlt_irrefl in Ht.
  - cbn [times100]. eexists. split; [reflexivity|]. split.
    + apply Qmult_le_0_compat; [|discriminate].
      apply Qle_shift_div_l; [exact Ht|]. now rewrite Qmult_0_l.
    + apply (Qle_trans _ (1 * 100)%Q); [|unfold Qle; cbn; lia].
      apply Qmult_le_compat_r; [|discriminate].
      apply Qle_shift_div_r; [exact Ht|]. now rewrite Qmult_1_l.
Qed.

Lemma filter_length_mono {A : Type} (p q : A -> bool) (l : list A) :
  (forall x, p x = true -> q x = true) ->
  (List.length (List.filter p l) <= List.length (List.filter q l))%nat.
Proof.
  intros H. induction l as [|x t IH]; [reflexivity|].
  cbn. destruct (p x) eqn:Hp.
  - rewrite (H x Hp). cbn. lia.
  - destruct (q x); cbn; lia.
Qed.

Lemma strongly_sorted_impl {A : Type} (R R' : A -> A -> Prop) (l : list A) :
  (forall a b, R a b -> R' a b) -> StronglySorted R l -> StronglySorted R' l.
Proof.
  intros H. induction 1 as [|x t Hs IH Hx]; constructor; [exact IH|].
  rewrite List.Forall_forall in *. auto.
Qed.

Lemma sort_delay_sorted (l : list delay_row) :
  StronglySorted (fun a b => (dr_delay_count b <= dr_delay_count a)%nat)
                 (sort_delay l).
Proof.
  unfold sort_delay.
  apply (strongly_sorted_impl
           (fun a b => Nat.leb (dr_delay_count b) (dr_delay_count a) = true)).
  { intros a b. apply Nat.leb_le. }
  apply (sort_by_sorted _ (fun _ => True)).
  - intros a b _ _ H. apply Nat.leb_gt in H. apply Nat.leb_le. lia.
  - intros a b c _ _ _ H1 H2. apply Nat.leb_le in H1, H2. apply Nat.leb_le. lia.
  - apply List.Forall_forall. auto.
Qed.

Lemma guarded_summary_sorted (key : string) (code : Q) (f : DataFrame)
  (t : list delay_row) :
  guarded_summary key code f = Some (Shown t) ->
  StronglySorted (fun a b => (dr_delay_count b <= dr_delay_count a)%nat) t.
Proof.
  intros Hg.
  destruct (guarded_summary_shown _ _ _ _ Hg) as (Ht & i & l & Hi & Hl).
  rewrite (delay_summary_table key code f i l Hi Hl) in Ht. injection Ht as <-.
  apply sort_delay_sorted.
Qed.

(** X10: a delay summary lists its groups by falling delayed count; the
    delayed count of a group never exceeds its total, and where the total
    is not 0 the percentage is a number from 0 to 100; no row has a
    missing key: [fillna(0)] runs over the key column too, so the group
    of the rows without a shipping mode (or region) is listed under the
    key 0. *)
Theorem summary_rows_bounded (key : string) (code : Q) (f : DataFrame)
  (t : list delay_row) :
  guarded_summary key code f = Some (Shown t) ->
  StronglySorted (fun a b => (dr_delay_count b <= dr_delay_count a)%nat) t /\
  (forall row, In row t ->
    is_missing (dr_key row) = false /\
    (dr_delay_count row <= dr_total_count row)%nat /\
    ((0 < dr_total_count row)%nat ->
     exists q, dr_delay_pct row = FNum q /\ (0 <= q)%Q /\ (q <= 100)%Q)) /\
  exists i l, at_col f key i /\ at_col f "label" l /\
    ((exists r, In r (rows f) /\ is_missing (cell i r) = true) ->
     exists row, In row t /\ dr_key row = VNum 0 /\
       dr_total_count row =
         List.length
           (List.filter (fun r => is_missing (cell i r)
                                  && negb (is_missing (cell l r))) (rows f))).
Proof.
  intros Hg. split; [now apply (guarded_summary_sorted key code f)|].
  destruct (guarded_summary_shown _ _ _ _ Hg) as (Ht & i & l & Hi & Hl).
  split.
  2:{ exists i, l. split; [exact Hi|]. split; [exact Hl|].
      intros (r & Hr & Hm).
      rewrite (delay_summary_table key code f i l Hi Hl) in Ht.
      injection Ht as <-.
      destruct (group_keys_covers (map (cell i) (rows f)) (cell i r))
        as (v & Hv & Hcv); [now apply in_map|].
      assert (Hvn : v = VNaN).
      { rewrite (value_eqb_missing _ _ Hcv) in Hm. now apply is_missing_nan. }
      subst v. eexists. split.
      - unfold sort_delay.
        apply (Permutation_in _ (Permutation_sym (sort_by_perm _ _))).
        apply in_map_iff. exists VNaN. split; [reflexivity|exact Hv].
      - cbn [dr_key dr_total_count fillna0]. split; [reflexivity|].
        erewrite filter_ext; [reflexivity|].
        intros r0. cbn beta. now destruct (cell i r0). }
  destruct (delay_summary_rows key code f i l Hi Hl) as (t' & Ht' & Hrows).
  rewrite Ht in Ht'. injection Ht' as <-.
  intros row Hrow.
  destruct (Hrows row Hrow) as (k & _ & Hk & Htot & Hdel & Hpct).
  assert (Hle : (dr_delay_count row <= dr_total_count row)%nat).
  { rewrite Hdel, Htot. apply filter_length_mono. intros r Hr.
    apply andb_true_iff in Hr. destruct Hr as [-> He].
    now rewrite (eq_num_present _ _ He). }
  split; [rewrite Hk; now destruct k|]. split; [exact Hle|].
  intros Hpos. rewrite Hpct. apply pct_bounds.
  - apply (Qnat_le 0). lia.
  - now apply Qnat_le.
  - now apply Qnat_pos.
Qed.

Lemma combine_snd_In {A B : Type} (a : list A) (b : list B) (x : A) (y : B) :
  In (x, y) (combine a b) -> In y b.
Proof. apply in_combine_r. Qed.

(** X11: the shipping mode named in the warning is the first row of the
    summary table, and no row of the table has more delayed orders; an
    empty table names none. *)
Theorem worst_is_first (key : string) (code : Q) (f : DataFrame)
  (t : list delay_row) :
  guarded_summary key code f = Some (Shown t) ->
  worst t = head t /\
  forall w row, worst t = Some w -> In row t ->
    (dr_delay_count row <= dr_delay_count w)%nat.
Proof.
  intros Hg. pose proof (guarded_summary_sorted _ _ _ _ Hg) as Hs.
  assert (Hw : worst t = head t).
  { destruct t as [|x u]; [reflexivity|].
    unfold worst, indexed. cbn [map List.length seq combine idxmax head].
    inversion Hs as [|? ? _ Hx]; subst.
    rewrite List.Forall_forall in Hx.
    assert (He : existsb (fun jp : nat * Q => Qltb (Qnat (dr_delay_count x)) (snd jp))
                   (combine (seq 1 (List.length (map (fun r => Qnat (dr_delay_count r)) u)))
                            (map (fun r => Qnat (dr_delay_count r)) u)) = false).
    { destruct (existsb _ _) eqn:He; [|reflexivity]. exfalso.
      apply existsb_exists in He. destruct He as ([j q] & Hin & Hlt).
      apply combine_snd_In in Hin. apply in_map_iff in Hin.
      destruct Hin as (r & <- & Hr). cbn in Hlt. apply Qltb_lt in Hlt.
      pose proof (Qnat_le _ _ (Hx r Hr)) as Hle.
      exact (Qlt_not_le _ _ Hlt Hle). }
    rewrite He. reflexivity. }
  split; [exact Hw|].
  intros w row Hww Hrow. rewrite Hw in Hww.
  destruct t as [|x u]; [discriminate|]. injection Hww as ->.
  inversion Hs as [|? ? _ Hx]; subst. rewrite List.Forall_forall in Hx.
  destruct Hrow as [->|Hrow]; [lia|now apply Hx].
Qed.

(** ** The ten routes *)

Lemma fval_geb_total (x y : fval) : fval_geb x y = false -> fval_geb y x = true.
Proof.
  destruct x as [p|[]|], y as [q|[]|]; cbn; try discriminate; try reflexivity.
  intros H. destruct (Qle_bool p q) eqn:Hpq; [reflexivity|].
  exfalso. destruct (Qlt_le_dec q p) as [Hlt|Hle].
  - apply Qlt_le_weak in Hlt. apply Qle_bool_iff in Hlt. congruence.
  - apply Qle_bool_iff in Hle. congruence.
Qed.

Lemma fval_geb_trans (x y z : fval) :
  fval_geb x y = true -> fval_geb y z = true -> fval_geb x z = true.
Proof.
  destruct x as [p|[]|], y as [q|[]|], z as [r|[]|]; cbn;
    try discriminate; try reflexivity.
  rewrite !Qle_bool_iff. intros H1 H2. exact (Qle_trans _ _ _ H2 H1).
Qed.

Lemma strongly_sorted_app {A : Type} (R : A -> A -> Prop) (l1 l2 : list A) :
  StronglySorted R (l1 ++ l2) ->
  StronglySorted R l1 /\ forall a b, In a l1 -> In b l2 -> R a b.
Proof.
  induction l1 as [|x t IH]; cbn; intros H.
  - split; [constructor|intros a b []].
  - inversion H as [|? ? Hs Hx]; subst. destruct (IH Hs) as [Ht Hab].
    rewrite List.Forall_forall in Hx. split.
    + constructor; [exact Ht|]. apply List.Forall_forall.
      intros y Hy. apply Hx. apply in_or_app. now left.
    + intros a b [<-|Ha] Hb; [|now apply Hab].
      apply Hx. apply in_or_app. now right.
Qed.

(** X12: the chart shows at most ten routes, all of them rows of the
    table of routes, and every route of the table when it has ten or
    fewer; they come by falling percentage, NaN last, and none of the
    routes left out ranks above one that is shown. *)
Theorem top10_routes_spec (grp : list route_row) :
  List.length (nlargest10 grp) = Nat.min 10 (List.length grp) /\
  (forall row, In row (nlargest10 grp) -> In row grp) /\
  ((List.length grp <= 10)%nat -> Permutation (nlargest10 grp) grp) /\
  StronglySorted
    (fun a b => fval_geb (rt_delay_pct a) (rt_delay_pct b) = true)
    (nlargest10 grp) /\
  exists rest,
    Permutation (nlargest10 grp ++ rest) grp /\
    forall a b, In a (nlargest10 grp) -> In b rest ->
                fval_geb (rt_delay_pct a) (rt_delay_pct b) = true.
Proof.
  unfold nlargest10.
  set (s := sort_by (fun a b => fval_geb (rt_delay_pct a) (rt_delay_pct b)) grp).
  assert (Hp : Permutation s grp) by apply sort_by_perm.
  assert (Hs : StronglySorted
                 (fun a b => fval_geb (rt_delay_pct a) (rt_delay_pct b) = true) s).
  { apply (sort_by_sorted _ (fun _ => True)).
    - intros a b _ _. apply fval_geb_total.
    - intros a b c _ _ _. apply fval_geb_trans.
    - apply List.Forall_forall. auto. }
  rewrite <- (take_drop 10 s) in Hs. apply strongly_sorted_app in Hs.
  destruct Hs as [Htop Hrest].
  split; [now rewrite length_take, (Permutation_length Hp)|].
  split; [intros row Hrow; apply in_take in Hrow;
          exact (Permutation_in _ Hp Hrow)|].
  split.
  { intros Hlen. rewrite take_ge; [exact Hp|].
    now rewrite (Permutation_length Hp). }
  split; [exact Htop|].
  exists (drop 10 s). split; [now rewrite take_drop|exact Hrest].
Qed.

(** ** What the routes feature writes *)

Lemma positions_append (n : string) (cols extra : list string) (k : nat) :
  positions n (cols ++ extra) k =
  positions n cols k ++ positions n extra (k + List.length cols).
Proof.
  revert k. induction cols as [|c t IH]; intros k; cbn.
  - now rewrite Nat.add_0_r.
  - rewrite IH. replace (S k + List.length t)%nat with (k + S (List.length t))%nat by lia.
    now destruct (String.eqb n c).
Qed.

Lemma positions_absent (name : string) (cols : list string) :
  ~ In name cols -> positions name cols 0 = [].
Proof.
  intros H. destruct (positions name cols 0) as [|i t] eqn:Hp; [reflexivity|].
  exfalso. apply H. apply (nth_error_In _ i).
  apply (positions_lt name). rewrite Hp. now left.
Qed.

Lemma at_col_lt (df : DataFrame) (name : string) (i : nat) (r : list value) :
  wf_frame df -> at_col df name i -> In r (rows df) -> (i < List.length r)%nat.
Proof.
  unfold wf_frame, at_col. intros Hwf Hat Hr.
  rewrite List.Forall_forall in Hwf. rewrite (Hwf r Hr).
  apply (positions_lt name). rewrite Hat. now left.
Qed.

Lemma cell_app_l (i : nat) (r x : list value) :
  (i < List.length r)%nat -> cell i (r ++ x) = cell i r.
Proof. intros H. unfold cell. now apply app_nth1. Qed.

Lemma routes_stage_fresh (repr_num : Q -> string) (st : store) (a b c d l : nat) :
  wf_frame (filtered st) ->
  at_col (filtered st) "Order city" a ->
  at_col (filtered st) "Order Country" b ->
  at_col (filtered st) "Customer city" c ->
  at_col (filtered st) "Customer Country" d ->
  at_col (filtered st) "label" l ->
  ~ In "origin" (columns (filtered st)) ->
  ~ In "destination" (columns (filtered st)) ->
  ~ In "is_delayed" (columns (filtered st)) ->
  exists top,
    routes_stage repr_num st =
    Some (mkStore
            (mkFrame
               (columns (filtered st) ++ ["origin"; "destination"; "is_delayed"])
               (map (fun r =>
                       r ++ [route_label repr_num (cell a r) (cell b r);
                             route_label repr_num (cell c r) (cell d r);
                             of_bool (eq_num (-1) (cell l r))])
                    (rows (filtered st))))
            (std_df st),
          RoutesChart top).
Proof.
  intros Hwf Ha Hb Hc Hd Hl Ho Hde Hi.
  set (f := filtered st) in *.
  apply positions_absent in Ho, Hde, Hi.
  unfold at_col in Ha, Hb, Hc, Hd, Hl.
  assert (Hlt : forall n k r, positions n (columns f) 0 = [k] -> In r (rows f) ->
                              (k < List.length r)%nat).
  { intros n k r Hn Hr. now apply (at_col_lt f n). }
  unfold routes_stage. fold f.
  assert (Hfm : first_missing f = None).
  { apply first_missing_none. intros x Hx. apply has_col_In.
    rewrite has_col_positions. cbn in Hx.
    destruct Hx as [<-|[<-|[<-|[<-|[<-|[]]]]]];
      [rewrite Ha|rewrite Hb|rewrite Hc|rewrite Hd|rewrite Hl]; reflexivity. }
  rewrite Hfm.
  rewrite (at_col_series f _ a Ha), (at_col_series f _ b Hb).
  cbn [mbind option_bind]. rewrite joined_map, assign_map, Ho.
  set (f1 := mkFrame (columns f ++ ["origin"]) _).
  assert (Hc1 : positions "Customer city" (columns f1) 0 = [c]).
  { unfold f1. cbn [columns]. rewrite positions_append, Hc. reflexivity. }
  assert (Hd1 : positions "Customer Country" (columns f1) 0 = [d]).
  { unfold f1. cbn [columns]. rewrite positions_append, Hd. reflexivity. }
  rewrite (at_col_series f1 _ c Hc1), (at_col_series f1 _ d Hd1).
  cbn [mbind option_bind]. rewrite joined_map, assign_map.
  assert (Hde1 : positions "destination" (columns f1) 0 = []).
  { unfold f1. cbn [columns]. rewrite positions_append, Hde. reflexivity. }
  rewrite Hde1.
  set (f2 := mkFrame (columns f1 ++ ["destination"]) _).
  assert (Hl2 : positions "label" (columns f2) 0 = [l]).
  { unfold f2, f1. cbn [columns]. rewrite !positions_append, Hl. reflexivity. }
  rewrite (at_col_series f2 _ l Hl2). cbn [mbind option_bind].
  rewrite map_map, assign_map.
  assert (Hi2 : positions "is_delayed" (columns f2) 0 = []).
  { unfold f2, f1. cbn [columns]. rewrite !positions_append, Hi. reflexivity. }
  rewrite Hi2.
  set (f3 := mkFrame (columns f2 ++ ["is_delayed"]) _).
  assert (Hf3 : f3 =
            mkFrame (columns f ++ ["origin"; "destination"; "is_delayed"])
              (map (fun r =>
                      r ++ [route_label repr_num (cell a r) (cell b r);
                            route_label repr_num (cell c r) (cell d r);
                            of_bool (eq_num (-1) (cell l r))])
                   (rows f))).
  { unfold f3, f2, f1. cbn [columns rows]. rewrite <- !app_assoc. cbn [app].
    f_equal. rewrite !map_map. apply map_ext_in. intros r Hr.
    rewrite <- !app_assoc. cbn [app]. do 2 f_equal.
    now rewrite !cell_app_l by (eapply Hlt; eassumption). }
  assert (Hgrp : exists grp, route_grp f3 = Some grp).
  { unfold route_grp.
    assert (Hp : forall n, positions n (columns f3) 0 =
                   positions n (columns f) 0 ++
                   positions n ["origin"; "destination"; "is_delayed"]
                             (List.length (columns f))).
    { intros n. rewrite Hf3. cbn [columns]. now rewrite positions_append. }
    unfold series. rewrite !Hp, Ho, Hde, Hi, Hl. cbn.
    eauto. }
  destruct Hgrp as (grp & Hgrp). rewrite Hgrp. cbn [mbind option_bind].
  rewrite Hf3. now exists (nlargest10 grp).
Qed.

Lemma route_label_missing (repr_num : Q -> string) (x y : value) :
  route_label repr_num x y = VNaN <-> x = VNaN \/ y = VNaN.
Proof.
  unfold route_label. destruct x, y; cbn; split; intros H;
    try discriminate H; try reflexivity; auto;
    destruct H as [H|H]; discriminate H.
Qed.

(** X13: on a filtered set that holds the five required columns once
    each and none of the names [origin], [destination], [is_delayed],
    the routes feature cannot fail; it appends exactly these three
    columns to the filtered set, in that order, and leaves every other
    cell as it was.  The first two hold the city and the country of the
    row joined by a comma and a space, a number being printed first,
    and are missing exactly when the city or the country is missing;
    the third tells whether the label is -1. *)
Theorem routes_append_three_columns
  (repr_num : Q -> string) (st : store) (a b c d l : nat) :
  wf_frame (filtered st) ->
  at_col (filtered st) "Order city" a ->
  at_col (filtered st) "Order Country" b ->
  at_col (filtered st) "Customer city" c ->
  at_col (filtered st) "Customer Country" d ->
  at_col (filtered st) "label" l ->
  ~ In "origin" (columns (filtered st)) ->
  ~ In "destination" (columns (filtered st)) ->
  ~ In "is_delayed" (columns (filtered st)) ->
  (exists top,
    routes_stage repr_num st =
    Some (mkStore
            (mkFrame
               (columns (filtered st) ++ ["origin"; "destination"; "is_delayed"])
               (map (fun r =>
                       r ++ [route_label repr_num (cell a r) (cell b r);
                             route_label repr_num (cell c r) (cell d r);
                             of_bool (eq_num (-1) (cell l r))])
                    (rows (filtered st))))
            (std_df st),
          RoutesChart top)) /\
  (forall x y, route_label repr_num x y = VNaN <-> x = VNaN \/ y = VNaN) /\
  (forall s t, route_label repr_num (VStr s) (VStr t) = VStr ((s ++ ", ") ++ t)) /\
  (forall p t, route_label repr_num (VNum p) (VStr t)
               = VStr ((repr_num p ++ ", ") ++ t)) /\
  (forall s q, route_label repr_num (VStr s) (VNum q)
               = VStr ((s ++ ", ") ++ repr_num q)) /\
  (forall p q, route_label repr_num (VNum p) (VNum q)
               = VStr ((repr_num p ++ ", ") ++ repr_num q)).
Proof.
  intros Hwf Ha Hb Hc Hd Hl Ho Hde Hi.
  split; [now apply routes_stage_fresh|].
  split; [apply route_label_missing|].
  repeat split.
Qed.

Lemma Qnat_succ (n : nat) : (Qnat (S n) == Qnat n + 1)%Q.
Proof.
  unfold Qnat. rewrite Nat2Z.inj_succ, <- Z.add_1_r, inject_Z_plus. reflexivity.
Qed.

Lemma fold_sum_flags (p : value -> bool) (G : list value) (a : Q) :
  (fold_left (fun acc v => (acc + addend v)%Q)
             (map (fun v => of_bool (p v)) G) a
   == a + Qnat (List.length (List.filter p G)))%Q.
Proof.
  revert a. induction G as [|v t IH]; intros a.
  - cbn. unfold Qnat. cbn. ring.
  - cbn [map fold_left List.filter]. rewrite IH.
    destruct (p v); cbn [of_bool addend List.length].
    + rewrite Qnat_succ. ring.
    + ring.
Qed.

Lemma sum_flags (p : value -> bool) (G : list value) :
  (sum_cells (map (fun v => of_bool (p v)) G)
   == Qnat (List.length (List.filter p G)))%Q.
Proof. unfold sum_cells. rewrite fold_sum_flags. ring. Qed.

Lemma route_grp_rows (f2 : DataFrame) (lab : list value)
  (grp : list route_row) (row : route_row) :
  wf_frame f2 ->
  series f2 "label" = Some lab ->
  series (assign f2 "is_delayed" (map (fun v => of_bool (eq_num (-1) v)) lab))
         "label" = Some lab ->
  route_grp (assign f2 "is_delayed" (map (fun v => of_bool (eq_num (-1) v)) lab))
    = Some grp ->
  In row grp ->
  exists o d G,
    series (assign f2 "is_delayed" (map (fun v => of_bool (eq_num (-1) v)) lab))
           "origin" = Some o /\
    series (assign f2 "is_delayed" (map (fun v => of_bool (eq_num (-1) v)) lab))
           "destination" = Some d /\
    G = group_of pair_eqb (rt_origin row, rt_destination row) (combine o d) lab /\
    rt_total_orders row = count_cells G /\
    rt_delayed_orders row = sum_cells (map (fun v => of_bool (eq_num (-1) v)) G) /\
    rt_delay_pct row =
      times100 (fdiv (rt_delayed_orders row) (Qnat (rt_total_orders row))).
Proof.
  intros Hwf Hlab Hlab3. unfold route_grp.
  destruct (series _ "origin") as [o|] eqn:Ho; [|discriminate].
  destruct (series _ "destination") as [d|] eqn:Hd0; [|discriminate].
  rewrite Hlab3.
  destruct (series _ "is_delayed") as [del|] eqn:Hdel; [|discriminate].
  cbn [mbind option_bind]. intros [= <-] Hrow.
  destruct (series_at_col _ _ _ Hlab) as (l & _ & Hl).
  assert (Hd : del = map (fun v => of_bool (eq_num (-1) v)) lab).
  { rewrite Hl, map_map in Hdel.
    rewrite (series_assign_same _ _ _ _ Hwf Hdel). now rewrite Hl, map_map. }
  subst del. apply in_map_iff in Hrow. destruct Hrow as ([k1 k2] & <- & _).
  exists o, d, (group_of pair_eqb (k1, k2) (combine o d) lab).
  cbn [rt_total_orders rt_delayed_orders rt_delay_pct rt_origin rt_destination
       fst snd].
  rewrite group_of_map_vals. auto 10.
Qed.

(** X14: in the table of routes the total of a route counts its rows
    with a label and its delayed orders count its rows labelled -1, a
    row belonging to the route whose origin and destination it has; the
    delayed orders never exceed the total, and where the total is not 0
    the percentage is a number from 0 to 100. *)
Theorem route_rows_bounded (repr_num : Q -> string) (st st' : store)
  (top : list route_row) (row : route_row) :
  wf_frame (filtered st) ->
  routes_stage repr_num st = Some (st', RoutesChart top) ->
  In row top ->
  (exists o d lab G,
     series (filtered st') "origin" = Some o /\
     series (filtered st') "destination" = Some d /\
     series (filtered st') "label" = Some lab /\
     G = group_of pair_eqb (rt_origin row, rt_destination row) (combine o d) lab /\
     rt_total_orders row = List.length (dropna G) /\
     (rt_delayed_orders row
      == Qnat (List.length (List.filter (eq_num (-1)) G)))%Q) /\
  (0 <= rt_delayed_orders row)%Q /\
  (rt_delayed_orders row <= Qnat (rt_total_orders row))%Q /\
  ((0 < rt_total_orders row)%nat ->
   exists q, rt_delay_pct row = FNum q /\ (0 <= q)%Q /\ (q <= 100)%Q).
Proof.
  intros Hwf Hrun Hrow.
  destruct (routes_stage_chart _ _ _ _ Hwf Hrun)
    as (h1 & h2 & f2 & lab & grp & _ & Hwf2 & Hlab & Hf3 & _ & _ & Hlab3 & Hgrp & ->).
  rewrite Hf3 in Hlab3, Hgrp.
  unfold nlargest10 in Hrow. apply in_take in Hrow.
  apply (Permutation_in _ (sort_by_perm _ _)) in Hrow.
  destruct (route_grp_rows f2 lab grp row Hwf2 Hlab Hlab3 Hgrp Hrow)
    as (o & d & G & Ho & Hd0 & HG & Htot & Hdel & Hpct).
  rewrite <- Hf3 in Ho, Hd0, Hlab3.
  assert (Hd : (rt_delayed_orders row
                == Qnat (List.length (List.filter (eq_num (-1)) G)))%Q).
  { rewrite Hdel. apply sum_flags. }
  assert (Hle : (List.length (List.filter (eq_num (-1)) G)
                 <= rt_total_orders row)%nat).
  { rewrite Htot. unfold count_cells, dropna. apply filter_length_mono.
    intros v Hv. now rewrite (eq_num_present _ _ Hv). }
  assert (H0 : (0 <= rt_delayed_orders row)%Q).
  { rewrite Hd. apply (Qnat_le 0). lia. }
  assert (H1 : (rt_delayed_orders row <= Qnat (rt_total_orders row))%Q).
  { rewrite Hd. now apply Qnat_le. }
  split; [exists o, d, lab, G; auto 10|].
  split; [exact H0|]. split; [exact H1|].
  intros Hpos. rewrite Hpct. apply pct_bounds; [exact H0|exact H1|].
  now apply Qnat_pos.
Qed.

(** ** The Standard Class break-up *)

Lemma cell_app_last (r : list value) (v : value) (n : nat) :
  n = List.length r -> cell n (r ++ [v]) = v.
Proof.
  intros ->. unfold cell. rewrite app_nth2 by lia. now rewrite Nat.sub_diag.
Qed.

Lemma filter_length_le_all {A : Type} (p : A -> bool) (l : list A) :
  (List.length (List.filter p l) <= List.length l)%nat.
Proof.
  induction l as [|x t IH]; [reflexivity|].
  cbn. destruct (p x); cbn; lia.
Qed.

Lemma mean_flags_bounds (p : value -> bool) (G : list value) :
  G <> [] ->
  (mean_cells (map (fun v => of_bool (p v)) G)
   == Qnat (List.length (List.filter p G)) / Qnat (List.length G))%Q /\
  (0 <= mean_cells (map (fun v => of_bool (p v)) G))%Q /\
  (mean_cells (map (fun v => of_bool (p v)) G) <= 1)%Q.
Proof.
  intros Hne. unfold mean_cells.
  assert (Hc : count_cells (map (fun v => of_bool (p v)) G) = List.length G).
  { rewrite count_cells_map, filter_all; [reflexivity|].
    intros v _. now destruct (p v). }
  rewrite Hc, sum_flags.
  assert (Hpos : (0 < Qnat (List.length G))%Q).
  { apply Qnat_pos. destruct G; [congruence|cbn; lia]. }
  split; [reflexivity|]. split.
  - apply Qle_shift_div_l; [exact Hpos|]. rewrite Qmult_0_l.
    apply (Qnat_le 0). lia.
  - apply Qle_shift_div_r; [exact Hpos|]. rewrite Qmult_1_l.
    apply Qnat_le. apply filter_length_le_all.
Qed.

(** X15: on a filtered set that holds [shipping_mode], [label] and
    [order_region] once each and no column [is_delayed], the Standard
    Class break-up cannot fail and leaves the filtered set as it was;
    its own frame [std_df] holds exactly the rows whose shipping mode is
    the string "Standard Class", with one more column telling whether the
    label is -1; each region listed has a rate from 0 to 1, the share of
    its Standard Class rows labelled -1 (a row without a label counting as
    not delayed); rows without a region are not listed, and without any
    Standard Class row the table is empty. *)
Theorem std_view_spec (st : store) (s l g : nat) :
  wf_frame (filtered st) ->
  at_col (filtered st) "shipping_mode" s ->
  at_col (filtered st) "label" l ->
  at_col (filtered st) "order_region" g ->
  ~ In "is_delayed" (columns (filtered st)) ->
  let std_rows :=
    List.filter (fun r => eq_str "Standard Class" (cell s r)) (rows (filtered st)) in
  exists out,
    std_stage st =
      Some (mkStore (filtered st)
              (Some (mkFrame (columns (filtered st) ++ ["is_delayed"])
                       (map (fun r => r ++ [of_bool (eq_num (-1) (cell l r))])
                            std_rows))),
            out) /\
    (forall k rate, In (k, rate) out ->
       is_missing k = false /\
       (0 <= rate)%Q /\ (rate <= 1)%Q /\
       (rate ==
        Qnat (List.length
                (List.filter (fun r => value_eqb (cell g r) k
                                       && eq_num (-1) (cell l r)) std_rows))
        / Qnat (List.length
                  (List.filter (fun r => value_eqb (cell g r) k) std_rows)))%Q) /\
    (std_rows = [] -> out = []).
Proof.
  intros Hwf Hs Hl Hg Hfresh std_rows.
  set (f := filtered st) in *.
  apply positions_absent in Hfresh.
  unfold std_stage. fold f.
  rewrite (at_col_series f _ s Hs). cbn [mbind option_bind].
  unfold boolean_index, copy. cbn [columns rows].
  rewrite map_map, select_map. fold std_rows.
  set (f1 := mkFrame (columns f) std_rows).
  assert (Hl1 : at_col f1 "label" l) by exact Hl.
  rewrite (at_col_series f1 _ l Hl1). cbn [mbind option_bind].
  rewrite map_map, assign_map. cbn [columns rows f1]. rewrite Hfresh.
  set (f2 := mkFrame (columns f ++ ["is_delayed"]) _).
  assert (Hg2 : at_col f2 "order_region" g).
  { unfold at_col, f2. cbn [columns]. rewrite positions_append.
    unfold at_col in Hg. rewrite Hg. reflexivity. }
  assert (Hd2 : at_col f2 "is_delayed" (List.length (columns f))).
  { unfold at_col, f2. cbn [columns]. rewrite positions_append, Hfresh.
    reflexivity. }
  rewrite (at_col_series f2 _ g Hg2), (at_col_series f2 _ _ Hd2).
  cbn [mbind option_bind].
  assert (Hsub : forall r, In r std_rows -> In r (rows f)).
  { intros r Hr. unfold std_rows in Hr. now apply filter_In in Hr. }
  assert (Hreg : map (cell g) (rows f2) = map (cell g) std_rows).
  { unfold f2. cbn [rows]. rewrite map_map. apply map_ext_in. intros r Hr.
    apply cell_app_l. apply (at_col_lt f "order_region"); auto. }
  assert (Hdel : map (cell (List.length (columns f))) (rows f2) =
                 map (fun r => of_bool (eq_num (-1) (cell l r))) std_rows).
  { unfold f2. cbn [rows]. rewrite map_map. apply map_ext_in. intros r Hr.
    apply cell_app_last. unfold wf_frame in Hwf.
    rewrite List.Forall_forall in Hwf. symmetry. apply Hwf. auto. }
  rewrite Hreg, Hdel.
  eexists. split; [reflexivity|]. split.
  - intros k rate Hin. apply in_map_iff in Hin.
    destruct Hin as (k' & [= -> <-] & Hk).
    assert (Hm : is_missing k = false).
    { unfold group_keys in Hk.
      apply (Permutation_in _ (sort_by_perm key_leb _)) in Hk.
      apply distinct_In in Hk. now apply dropna_In in Hk. }
    apply group_keys_In in Hk. apply in_map_iff in Hk.
    destruct Hk as (r0 & Hr0k & Hr0).
    rewrite group_of_maps.
    set (X := List.filter (fun r => value_eqb (cell g r) k) std_rows).
    assert (HX : X <> []).
    { assert (Hin : In r0 X).
      { apply filter_In. split; [exact Hr0|]. rewrite Hr0k. apply value_eqb_refl. }
      intros He. rewrite He in Hin. destruct Hin. }
    replace (map (fun r => of_bool (eq_num (-1) (cell l r))) X)
      with (map (fun v => of_bool (eq_num (-1) v)) (map (cell l) X))
      by now rewrite map_map.
    assert (HG : map (cell l) X <> []) by (destruct X; [congruence|discriminate]).
    destruct (mean_flags_bounds (eq_num (-1)) (map (cell l) X) HG)
      as (Heq & H0 & H1).
    split; [exact Hm|]. split; [exact H0|]. split; [exact H1|].
    rewrite Heq, filter_map_length, length_map. unfold X.
    now rewrite filter_filter_andb.
  - intros Hnil. rewrite Hnil. reflexivity.
Qed.

(** ** The cross-tab of regions and shipping modes *)

Lemma pair_eqb_refl (a : value * value) : pair_eqb a a = true.
Proof. unfold pair_eqb. now rewrite !value_eqb_refl. Qed.

Lemma pair_eqb_sym (a b : value * value) : pair_eqb a b = pair_eqb b a.
Proof.
  unfold pair_eqb.
  now rewrite (value_eqb_sym (fst a)), (value_eqb_sym (snd a)).
Qed.

Lemma pair_eqb_trans (a b c : value * value) :
  pair_eqb a b = true -> pair_eqb b c = true -> pair_eqb a c = true.
Proof.
  unfold pair_eqb. rewrite !andb_true_iff. intros [H1 H2] [H3 H4].
  split; eapply value_eqb_trans; eauto.
Qed.

Lemma pairs_once (keys : list (value * value)) (c : value * value) :
  In c keys ->
  List.length (List.filter (pair_eqb c) (group_pairs false keys)) = 1%nat.
Proof.
  intros Hc. unfold group_pairs.
  rewrite (filter_perm_length _ _ _ (sort_by_perm pair_leb _)).
  pose proof (distinct_once pair_eqb pair_eqb_sym pair_eqb_trans c keys) as Hle.
  destruct (distinct_covers pair_eqb pair_eqb_refl pair_eqb_sym
              pair_eqb_trans c keys Hc) as (v & Hv & Hcv).
  assert (Hin : In v (List.filter (pair_eqb c) (distinct pair_eqb keys)))
    by (apply filter_In; now split).
  destruct (List.filter _ (distinct pair_eqb keys)) as [|y [|z t]]; cbn in *;
    [destruct Hin|reflexivity|lia].
Qed.

Lemma pairs_partition (sub keys : list (value * value)) :
  (forall x, In x sub -> In x keys) ->
  list_sum (map (fun k => List.length (List.filter (fun x => pair_eqb x k) sub))
                (group_pairs false keys)) =
  List.length sub.
Proof.
  induction sub as [|x t IH]; intros Hsub.
  - cbn [List.filter List.length].
    generalize (group_pairs false keys). unfold list_sum.
    induction l as [|k ks IHk]; [reflexivity|exact IHk].
  - cbn [List.filter].
    rewrite (map_ext
               (fun k => List.length
                  (if pair_eqb x k
                   then x :: List.filter (fun x0 => pair_eqb x0 k) t
                   else List.filter (fun x0 => pair_eqb x0 k) t))
               (fun k => ((if pair_eqb x k then 1 else 0)
                          + List.length (List.filter (fun x0 => pair_eqb x0 k) t))%nat)).
    2:{ intros k. now destruct (pair_eqb x k). }
    rewrite list_sum_add, IH by (intros y Hy; apply Hsub; now right).
    rewrite list_sum_indicator, pairs_once; [reflexivity|].
    apply Hsub. now left.
Qed.

(** X16: the cross-tab counts every row of the filtered set in exactly
    one cell, rows without a region or a shipping mode included: its
    counts add up to the number of rows, and no cell listed is empty. *)
Theorem pref_counts_every_row (f : DataFrame) (t : list (value * value * nat)) :
  pref f = Some (Shown t) ->
  list_sum (map snd t) = List.length (rows f) /\
  forall c, In c t -> (0 < snd c)%nat.
Proof.
  unfold pref.
  destruct (has_col "order_region" f && has_col "shipping_mode" f); [|discriminate].
  destruct (series f "order_region") as [r|] eqn:Hr; [|discriminate].
  destruct (series f "shipping_mode") as [s|] eqn:Hs; [|discriminate].
  cbn [mbind option_bind]. intros [= <-].
  destruct (series_at_col _ _ _ Hr) as (i & _ & ->).
  destruct (series_at_col _ _ _ Hs) as (j & _ & ->).
  split.
  - rewrite map_map. cbn [snd].
    rewrite pairs_partition by auto.
    now rewrite combine_maps, length_map.
  - intros c Hc. apply in_map_iff in Hc. destruct Hc as (k & <- & Hk).
    cbn [snd]. unfold group_pairs in Hk.
    apply (Permutation_in _ (sort_by_perm pair_leb _)) in Hk.
    apply distinct_In in Hk.
    assert (Hin : In k (List.filter (fun x => pair_eqb x k)
                          (combine (map (cell i) (rows f)) (map (cell j) (rows f)))))
      by (apply filter_In; split; [exact Hk|apply pair_eqb_refl]).
    destruct (List.filter _ _); [destruct Hin|cbn; lia].
Qed.

(** ** A label under two spellings *)

Lemma positions_length (n : string) (cols : list string) (k : nat) :
  List.length (positions n cols k) = List.length (List.filter (String.eqb n) cols).
Proof.
  revert k. induction cols as [|c t IH]; intros k; [reflexivity|].
  cbn. destruct (String.eqb n c); cbn; now rewrite IH.
Qed.

Lemma filter_two {A : Type} (p : A -> bool) (l : list A) (x y : A) :
  In x l -> In y l -> x <> y -> p x = true -> p y = true ->
  (2 <= List.length (List.filter p l))%nat.
Proof.
  induction l as [|z t IH]; intros Hx Hy Hne Hpx Hpy; [destruct Hx|].
  assert (Hone : forall u, In u t -> p u = true ->
                           (1 <= List.length (List.filter p t))%nat).
  { intros u Hu Hpu.
    assert (Hin : In u (List.filter p t)) by (apply filter_In; now split).
    destruct (List.filter p t); [destruct Hin|cbn; lia]. }
  cbn. destruct Hx as [->|Hx], Hy as [->|Hy].
  - congruence.
  - rewrite Hpx. cbn. pose proof (Hone y Hy Hpy). lia.
  - rewrite Hpy. cbn. pose proof (Hone x Hx Hpx). lia.
  - pose proof (IH Hx Hy Hne Hpx Hpy). destruct (p z); cbn; lia.
Qed.

(** X17: when the data set has a header that is literally [label] and
    the label field resolves to another header (one listed later that
    normalises alike, such as "Label"), the renaming leaves two columns
    named [label] and the script dies at the coercion of the label. *)
Theorem duplicate_label_raises (parse : string -> option Q) (df : DataFrame)
  (h : string) :
  unresolved_critical (found df) = [] ->
  In "label" (columns df) ->
  found_of (found df) "label" = Some h ->
  h <> "label" ->
  prepare parse df = Raised.
Proof.
  intros Hcrit Hlit Hh Hne.
  unfold prepare. cbn [normalize_cols]. fold (normalize_cols df).
  change (resolve _) with (found df).
  unfold found at 1. rewrite missing_critical_resolve. fold (found df).
  rewrite Hcrit. cbn [nonempty].
  assert (Hnone : coerce parse (rename (copy df) (rename_map (found df))) = None).
  { unfold coerce, coerce_label.
    assert (Hs : series (rename (copy df) (rename_map (found df))) "label" = None).
    { unfold series. cbn [rename copy columns].
      assert (Hlen : (2 <= List.length
                (positions "label"
                   (map (fun c => default c (rename_map (found df) !! c)) (columns df))
                   0))%nat).
      { rewrite positions_length, filter_map_length.
        apply (filter_two _ _ "label" h); [exact Hlit| |congruence| |].
        - unfold found in Hh. apply found_of_resolve in Hh.
          destruct Hh as (cl & _ & Hf). now apply find_col_sound in Hf.
        - destruct (rename_map (found df) !! "label") as [k|] eqn:Hr;
            [|reflexivity].
          exfalso. unfold rename_map in Hr. apply rename_fold_In in Hr.
          destruct Hr as [Hr|[Hr _]]; [|now rewrite lookup_empty in Hr].
          apply In_found_of in Hr.
          assert (Hk : k = "label").
          { pose proof Hr as Hr'. unfold found in Hr'.
            apply found_of_resolve in Hr'. destruct Hr' as (cl & Hin & Hf).
            apply find_col_sound in Hf. destruct Hf as (_ & c & Hc & Heq).
            pose proof (alias_keys_In _ _ _ Hin Hc) as Ha.
            assert (Hb : In ("label", Norm.norm "label") alias_keys)
              by (vm_compute; tauto).
            pose proof alias_keys_apart_true as Hap. unfold alias_keys_apart in Hap.
            rewrite forallb_forall in Hap. specialize (Hap _ Ha).
            rewrite forallb_forall in Hap. specialize (Hap _ Hb).
            cbn [fst snd] in Hap. rewrite <- Heq, String.eqb_refl in Hap.
            cbn in Hap. now apply String.eqb_eq in Hap. }
          subst k. congruence.
        - assert (Hr : rename_map (found df) !! h = Some "label").
          { apply rename_fold_last; [|now apply found_of_In].
            intros k1 k2 H1 H2. apply In_found_of in H1, H2.
            exact (resolved_fields_agree df k1 k2 h H1 H2). }
          now rewrite Hr. }
      destruct (positions _ _ 0) as [|i [|j t]]; cbn in Hlen; try lia; reflexivity. }
    rewrite Hs. reflexivity. }
  now rewrite Hnone.
Qed.

(** ** The further properties at sample inputs *)

Lemma resolution_sound_complete_witness :
  In ("order_country", ["order_country"; "order country"; "country"]) candidates /\
  found_of (found routes_dataset) "order_country" =
    find_col (snd (normalize_cols routes_dataset))
             ["order_country"; "order country"; "country"].
Proof.
  assert (Hin : In ("order_country", ["order_country"; "order country"; "country"])
                   candidates) by (cbn; tauto).
  split; [exact Hin|].
  exact (proj1 (resolution_sound_complete routes_dataset _ _ Hin)).
Defined.

Lemma resolved_headers_distinct_witness :
  found_of (found routes_dataset) "label" = Some "label" /\ "label" = "label".
Proof.
  assert (H : found_of (found routes_dataset) "label" = Some "label")
    by (vm_compute; reflexivity).
  split; [exact H|].
  exact (resolved_headers_distinct routes_dataset "label" "label" "label" H H).
Defined.

Lemma prepared_working_set_witness :
  prepare sample_parse six_labels = Working six_labels_work /\
  List.length (rows six_labels_work) = List.length (rows six_labels) /\
  In "label" (columns six_labels_work).
Proof.
  assert (H : prepare sample_parse six_labels = Working six_labels_work)
    by (vm_compute; reflexivity).
  split; [exact H|].
  destruct (prepared_working_set sample_parse six_labels six_labels_work H)
    as (_ & Hrows & _ & _ & Hlabel & _).
  split; [exact Hrows|exact Hlabel].
Defined.

Lemma coerced_cells_witness :
  wf_frame six_labels /\
  List.NoDup (columns six_labels) /\
  In "label" (columns six_labels) /\
  coerce sample_parse six_labels = Some six_labels_work /\
  (forall v, In v [VNum 10; VNum 0; VNum 5; VNum 7; VNum 2; VNum 1] ->
             exists q, v = VNum q).
Proof.
  assert (Hwf : wf_frame six_labels) by (repeat constructor).
  assert (Hnd : List.NoDup (columns six_labels)).
  { repeat constructor; cbn; intuition discriminate. }
  assert (Hin : In "label" (columns six_labels)) by (now left).
  assert (Hw : coerce sample_parse six_labels = Some six_labels_work)
    by (vm_compute; reflexivity).
  split; [exact Hwf|]. split; [exact Hnd|]. split; [exact Hin|].
  split; [exact Hw|].
  destruct (coerced_cells sample_parse six_labels six_labels_work Hwf Hnd Hin Hw)
    as (_ & Hm).
  intros v Hv.
  apply (Hm "sales" [VNum 10; VNum 0; VNum 5; VNum 7; VNum 2; VNum 1] v);
    [cbn; tauto|reflexivity|exact Hv].
Defined.

Lemma counts_bounded_witness :
  series six_labels_work "label" =
    Some [VNum (-1); VNum (-1); VNum 0; VNum 1; VNaN; VNaN] /\
  exists d o e,
    delayed_count six_labels_work = Some d /\
    ontime_count six_labels_work = Some o /\
    early_count six_labels_work = Some e /\
    (d + o + e <= total_orders six_labels_work)%nat.
Proof.
  assert (H : series six_labels_work "label" =
                Some [VNum (-1); VNum (-1); VNum 0; VNum 1; VNaN; VNaN])
    by reflexivity.
  split; [exact H|].
  destruct (counts_bounded six_labels_work _ H)
    as (d & o & e & Hd & Ho & He & Hle & _).
  exists d, o, e. auto.
Defined.

Lemma filter_removes_rows_only_witness :
  at_col six_labels_work "order_region" 2 /\
  at_col six_labels_work "shipping_mode" 3 /\
  exists f,
    filter_stage six_labels_work [VStr "East"] [VStr "Same Day"] = Some f /\
    sublist (rows f) (rows six_labels_work).
Proof.
  split; [reflexivity|]. split; [reflexivity|].
  destruct (filter_removes_rows_only six_labels_work [VStr "East"] [VStr "Same Day"]
              2 3 eq_refl eq_refl) as (f & Hf & _ & Hsub & _).
  exists f. split; [exact Hf|exact Hsub].
Defined.

Lemma default_selection_rows_witness :
  at_col six_labels_work "order_region" 2 /\
  at_col six_labels_work "shipping_mode" 3 /\
  filter_options "order_region" six_labels_work = Some [VStr "East"; VStr "West"] /\
  filter_options "shipping_mode" six_labels_work =
    Some [VStr "First Class"; VStr "Same Day"] /\
  filter_stage six_labels_work [VStr "East"; VStr "West"]
               [VStr "First Class"; VStr "Same Day"] =
    Some (mkFrame (columns six_labels_work)
            (List.filter
               (fun r => (negb (nonempty [VStr "East"; VStr "West"])
                          || negb (is_missing (cell 2 r)))
                         && (negb (nonempty [VStr "First Class"; VStr "Same Day"])
                             || negb (is_missing (cell 3 r))))
               (rows six_labels_work))).
Proof.
  assert (H1 : filter_options "order_region" six_labels_work =
                 Some [VStr "East"; VStr "West"]) by (vm_compute; reflexivity).
  assert (H2 : filter_options "shipping_mode" six_labels_work =
                 Some [VStr "First Class"; VStr "Same Day"])
    by (vm_compute; reflexivity).
  split; [reflexivity|]. split; [reflexivity|].
  split; [exact H1|]. split; [exact H2|].
  exact (proj1 (default_selection_rows six_labels_work 2 3 _ _
                  eq_refl eq_refl H1 H2)).
Defined.

Lemma summary_counts_add_up_witness :
  guarded_summary "order_region" (-1) unlabelled_east =
    Some (Shown unlabelled_east_summary) /\
  exists l, at_col unlabelled_east "label" l /\
    list_sum (map dr_total_count unlabelled_east_summary) =
      List.length (List.filter (fun r => negb (is_missing (cell l r)))
                               (rows unlabelled_east)).
Proof.
  assert (H : guarded_summary "order_region" (-1) unlabelled_east =
                Some (Shown unlabelled_east_summary)) by (vm_compute; reflexivity).
  split; [exact H|].
  destruct (summary_counts_add_up _ _ _ _ H) as (l & Hl & Ht & _).
  exists l. split; [exact Hl|exact Ht].
Defined.

Lemma summary_rows_bounded_witness :
  guarded_summary "order_region" (-1) unlabelled_east =
    Some (Shown unlabelled_east_summary) /\
  StronglySorted (fun a b => (dr_delay_count b <= dr_delay_count a)%nat)
                 unlabelled_east_summary.
Proof.
  assert (H : guarded_summary "order_region" (-1) unlabelled_east =
                Some (Shown unlabelled_east_summary)) by (vm_compute; reflexivity).
  split; [exact H|].
  exact (proj1 (summary_rows_bounded _ _ _ _ H)).
Defined.

Lemma worst_is_first_witness :
  guarded_summary "order_region" (-1) unlabelled_east =
    Some (Shown unlabelled_east_summary) /\
  worst unlabelled_east_summary = head unlabelled_east_summary.
Proof.
  assert (H : guarded_summary "order_region" (-1) unlabelled_east =
                Some (Shown unlabelled_east_summary)) by (vm_compute; reflexivity).
  split; [exact H|].
  exact (proj1 (worst_is_first _ _ _ _ H)).
Defined.

Lemma routes_append_three_columns_witness :
  wf_frame missing_city_orders /\
  at_col missing_city_orders "Order city" 0 /\
  at_col missing_city_orders "Order Country" 1 /\
  at_col missing_city_orders "Customer city" 2 /\
  at_col missing_city_orders "Customer Country" 3 /\
  at_col missing_city_orders "label" 4 /\
  ~ In "origin" (columns missing_city_orders) /\
  ~ In "destination" (columns missing_city_orders) /\
  ~ In "is_delayed" (columns missing_city_orders) /\
  exists st' top,
    routes_stage sample_repr (mkStore missing_city_orders None) =
      Some (st', RoutesChart top) /\
    columns (filtered st') =
      columns missing_city_orders ++ ["origin"; "destination"; "is_delayed"] /\
    rows (filtered st') =
      [ [VStr "Pune"; VStr "India"; VStr "Oslo"; VStr "Norway"; VNum (-1);
         VStr "Pune, India"; VStr "Oslo, Norway"; VNum 1];
        [VNaN; VStr "India"; VStr "Oslo"; VStr "Norway"; VNum (-1);
         VNaN; VStr "Oslo, Norway"; VNum 1] ].
Proof.
  assert (Hwf : wf_frame missing_city_orders) by (repeat constructor).
  assert (Ho : ~ In "origin" (columns missing_city_orders))
    by (cbn; intuition discriminate).
  assert (Hd : ~ In "destination" (columns missing_city_orders))
    by (cbn; intuition discriminate).
  assert (Hi : ~ In "is_delayed" (columns missing_city_orders))
    by (cbn; intuition discriminate).
  repeat (split; [first [assumption|reflexivity]|]).
  destruct (routes_append_three_columns sample_repr
              (mkStore missing_city_orders None)
              0 1 2 3 4 Hwf eq_refl eq_refl eq_refl eq_refl eq_refl Ho Hd Hi)
    as ((top & Htop) & _).
  eexists. exists top. split; [exact Htop|split; reflexivity].
Defined.

Lemma route_rows_bounded_witness :
  wf_frame routes_dataset /\
  exists st' top row,
    routes_stage sample_repr (mkStore routes_dataset None) =
      Some (st', RoutesChart top) /\
    In row top /\
    (rt_delayed_orders row <= Qnat (rt_total_orders row))%Q.
Proof.
  assert (Hwf : wf_frame routes_dataset) by (repeat constructor).
  split; [exact Hwf|].
  destruct (routes_stage sample_repr (mkStore routes_dataset None))
    as [[st' [d|top]]|] eqn:Hrun; try (vm_compute in Hrun; discriminate Hrun).
  destruct top as [|row top]; [vm_compute in Hrun; discriminate Hrun|].
  exists st', (row :: top), row.
  split; [reflexivity|]. split; [now left|].
  destruct (route_rows_bounded sample_repr (mkStore routes_dataset None) st'
              (row :: top) row Hwf Hrun (or_introl eq_refl))
    as (_ & _ & Hle & _).
  exact Hle.
Defined.

Lemma std_view_spec_witness :
  wf_frame routes_dataset /\
  at_col routes_dataset "shipping_mode" 2 /\
  at_col routes_dataset "label" 0 /\
  at_col routes_dataset "order_region" 1 /\
  ~ In "is_delayed" (columns routes_dataset) /\
  exists std out,
    std_stage (mkStore routes_dataset None) =
      Some (mkStore routes_dataset (Some std), out) /\
    List.length (rows std) = 1%nat.
Proof.
  assert (Hwf : wf_frame routes_dataset) by (repeat constructor).
  assert (Hi : ~ In "is_delayed" (columns routes_dataset))
    by (cbn; intuition discriminate).
  repeat (split; [first [assumption|reflexivity]|]).
  destruct (std_view_spec (mkStore routes_dataset None) 2 0 1
              Hwf eq_refl eq_refl eq_refl Hi) as (out & Hrun & _).
  eexists. exists out. split; [exact Hrun|reflexivity].
Defined.

Lemma pref_counts_every_row_witness :
  pref six_labels_work =
    Some (Shown [ (VStr "East", VStr "First Class", 1%nat);
                  (VStr "East", VStr "Same Day", 2%nat);
                  (VStr "West", VStr "First Class", 2%nat);
                  (VNaN, VStr "Same Day", 1%nat) ]) /\
  (1 + 2 + 2 + 1)%nat = List.length (rows six_labels_work).
Proof.
  assert (H : pref six_labels_work =
    Some (Shown [ (VStr "East", VStr "First Class", 1%nat);
                  (VStr "East", VStr "Same Day", 2%nat);
                  (VStr "West", VStr "First Class", 2%nat);
                  (VNaN, VStr "Same Day", 1%nat) ])) by (vm_compute; reflexivity).
  split; [exact H|].
  exact (proj1 (pref_counts_every_row _ _ H)).
Defined.

Lemma duplicate_label_raises_witness :
  unresolved_critical (found two_labels_dataset) = [] /\
  In "label" (columns two_labels_dataset) /\
  found_of (found two_labels_dataset) "label" = Some "Label" /\
  "Label" <> "label" /\
  prepare sample_parse two_labels_dataset = Raised.
Proof.
  assert (H1 : unresolved_critical (found two_labels_dataset) = [])
    by (vm_compute; reflexivity).
  assert (H2 : In "label" (columns two_labels_dataset)) by (now left).
  assert (H3 : found_of (found two_labels_dataset) "label" = Some "Label")
    by (vm_compute; reflexivity).
  assert (H4 : "Label" <> "label") by discriminate.
  repeat (split; [assumption|]).
  exact (duplicate_label_raises sample_parse two_labels_dataset "Label" H1 H2 H3 H4).
Defined.
